(** * United resolver: cross-chain swap orchestration

    A shallow embedding of the resolver's TypeScript/JavaScript sources:
    - [dist/services/ProfitabilityAnalyzer.js]  (module [ProfitabilityAnalyzer])
    - [dist/services/OrderMonitor.js]           (modules [OrderMonitor], [EscrowExecutor])
    - [dist/resolver/CrossChainResolver.js]     (module [CrossChainResolver])
    - [resolver/resolver.ts], the relayer-side [Resolver] class
      (module [Resolver])
    - [services/orderMonitorService.ts]         (module [OrderMonitorService]).

    JavaScript numbers that carry money (prices, amounts, profits) are IEEE
    binary64 values and are modelled by Rocq's primitive floats, so that
    [NaN] and rounding behave as they do at run time.  Timestamps, chain
    ids and on-chain integer quantities are integers and are modelled by
    [Z].  Asynchronous methods are modelled in a state-and-exception monad
    over a [World] that holds the objects' mutable fields, a wall clock and
    the chronological trace of everything the code asks of its
    environment (network, chains, logger, timers). *)

From Stdlib Require Import ZArith String List Bool Ascii Lia.
From Stdlib Require Import Floats.
From stdpp Require Import base option list strings gmap pretty.

Set Warnings "-inexact-float".
#[local] Open Scope Z_scope.
#[local] Open Scope string_scope.

(* ===================================================================== *)
(** ** JavaScript values used by the sources *)
(* ===================================================================== *)

Module Js.

(** A thrown value: either an [Error] object with its message, or some
    other value ([error instanceof Error] is false). *)
Inductive exn :=
| Error (message : string)
| Thrown.

(** [error instanceof Error ? error.message : dflt] *)
Definition messageOr (e : exn) (dflt : string) : string :=
  match e with Error m => m | Thrown => dflt end.

(** Truthiness of the value kinds the sources test with [!x] or [||]. *)
Definition truthy_string (s : string) : bool := negb (String.eqb s "").
Definition truthy_number (x : float) : bool :=
  negb (PrimFloat.eqb x 0 || PrimFloat.is_nan x).
Definition truthy_int (z : Z) : bool := negb (Z.eqb z 0).

(** [x?.usd || d] on an optional number. *)
Definition orNumber (x : option float) (d : float) : float :=
  match x with
  | Some v => if truthy_number v then v else d
  | None => d
  end.

(** [s.startsWith(p)] *)
Definition startsWith (s p : string) : bool := String.prefix p s.

(** [s.slice(0, 10)] *)
Definition slice10 (s : string) : string := String.substring 0 10 s.

(** The property names every object literal inherits from
    [Object.prototype]. *)
Definition objectPrototypeNames : list string :=
  ["constructor"; "hasOwnProperty"; "isPrototypeOf"; "propertyIsEnumerable";
   "toLocaleString"; "toString"; "valueOf";
   "__defineGetter__"; "__defineSetter__"; "__lookupGetter__";
   "__lookupSetter__"; "__proto__"].

(** How a template literal, or the conversion to a property key,
    renders the inherited value: the prototype object itself for
    ['__proto__'], a native function otherwise. *)
Definition inheritedText (name : string) : string :=
  if String.eqb name "__proto__" then "[object Object]"
  else if String.eqb name "constructor"
       then "function Object() { [native code] }"
       else "function " ++ name ++ "() { [native code] }".

(** [table[key]] on an object literal with the own properties [own],
    all of them non-empty strings: the text of the value, [None] for
    [undefined].  A key that is not an own property but names an
    inherited one finds the inherited value, which is truthy. *)
Definition lookup (own : string -> option string) (key : string)
  : option string :=
  match own key with
  | Some v => Some v
  | None =>
      if bool_decide (key ∈ objectPrototypeNames)
      then Some (inheritedText key) else None
  end.

End Js.

(** A chain identifier is [string | number]; [typeof chainId === 'string']
    separates Cosmos chains from EVM chains throughout the sources. *)
Inductive ChainId :=
| ChainNum (n : Z)
| ChainStr (s : string).

#[global] Instance ChainId_eq_dec : EqDecision ChainId.
Proof. solve_decision. Defined.

Definition isString (c : ChainId) : bool :=
  match c with ChainStr _ => true | ChainNum _ => false end.

(** Template-literal / [toString] rendering of a chain id. *)
Definition chainIdToString (c : ChainId) : string :=
  match c with ChainNum n => pretty n | ChainStr s => s end.

Inductive Side := Source | Destination.

#[global] Instance Side_eq_dec : EqDecision Side.
Proof. solve_decision. Defined.

(* ===================================================================== *)
(** ** Data model ([types.ts]) *)
(* ===================================================================== *)

Module TimeLocks.
Record t := mk {
  srcWithdrawal : Z;
  srcPublicWithdrawal : Z;
  srcCancellation : Z;
  srcPublicCancellation : Z;
  dstWithdrawal : Z;
  dstPublicWithdrawal : Z;
  dstCancellation : Z
}.
End TimeLocks.

Inductive OrderStatus :=
| StPending | StAnalyzing | StExecuting | StCompleted | StFailed | StExpired.

Module Order.
(** [CrossChainOrder] *)
Record t := mk {
  orderHash : string;
  maker : string;
  srcChainId : ChainId;
  dstChainId : ChainId;
  srcToken : string;
  dstToken : string;
  srcAmount : string;
  dstAmount : string;
  deadline : Z;
  secretHash : string;
  signature : string;
  escrowFactory : option string;
  timeLocks : option TimeLocks.t;
  createdAt : option Z;
  nonce : option string;
  status : OrderStatus;
  estimatedGasCost : string;
  profitability : option float
}.
End Order.

Inductive PriceSource := FromCache | FromApi | FromFallback.

Module TokenPrice.
Record t := mk { priceUsd : float; source : PriceSource }.
End TokenPrice.

Module GasEstimate.
Record t := mk {
  sourceGasUnits : Z;
  sourceGasPrice : string;
  sourceGasUsd : float;
  destinationGasUnits : Z;
  destinationGasPrice : string;
  destinationGasUsd : float;
  claimGasUnits : Z;
  claimGasUsd : float;
  totalGasUsd : float
}.
End GasEstimate.

Module ChainGas.
(** The object returned by [estimateChainGasCost]. *)
Record t := mk { gasUnits : Z; gasPrice : string; gasCostUsd : float }.
End ChainGas.

Module LiquidityStatus.
Record t := mk {
  hasSourceLiquidity : bool;
  hasDestinationLiquidity : bool;
  liquidityRatio : float;
  estimatedSlippage : float
}.
End LiquidityStatus.

Module Decision.
(** [ResolverDecision] *)
Record t := mk {
  orderHash : string;
  shouldFill : bool;
  reason : string;
  expectedProfitUsd : float;
  profitMarginPercent : float;
  estimatedGasCost : float;
  srcTokenPrice : option TokenPrice.t;
  dstTokenPrice : option TokenPrice.t;
  liquidityStatus : option LiquidityStatus.t;
  optimalRoute : option string;
  analysisTimeMs : Z;
  timestamp : Z
}.
End Decision.

Inductive TxStatus := TxPending | TxConfirmed | TxFailed.

Module TransactionResult.
Record t := mk {
  hash : string;
  chainId : string;
  blockNumber : Z;
  gasUsed : string;
  status : TxStatus
}.
End TransactionResult.

Module Broadcast.
(** What [cosmosClient.signAndBroadcast] resolves to. *)
Record t := mk {
  code : Z;
  rawLog : string;
  transactionHash : string;
  height : Z;
  gasUsed : Z
}.
End Broadcast.

Module Immutables.
Record t := mk {
  orderHash : string;
  hashlock : string;
  maker : string;
  taker : string;
  token : string;
  amount : string;
  safetyDeposit : string;
  timelocks : TimeLocks.t
}.
End Immutables.

Module FillOrderArgs.
(** [fillOrderArgs]; the limit order itself is kept as its salt. *)
Record t := mk {
  order : string;
  immutables : Immutables.t;
  signature_r : string;
  signature_vs : string;
  amount : string;
  takerTraits : string;
  args : string
}.
End FillOrderArgs.

Inductive SwapStatus := SwActive | SwCompleted.

Module Swap.
Record t := mk {
  immutables : Immutables.t;
  srcEscrow : string;
  dstEscrow : string;
  chainId : ChainId;
  status : SwapStatus;
  createdAt : Z;
  updateAt : option Z
}.
End Swap.

(* ===================================================================== *)
(** ** The environment: requests, outcomes, trace *)
(* ===================================================================== *)

(** A request the code awaits from the outside world, indexed by the type
    of what it resolves to.  Escrow requests carry the [type] argument
    (['source' | 'destination']) of the method that issues them. *)
Inductive Call : Type -> Type :=
(* axios *)
| AxiosGetPrice (coinId : string) : Call (option float)
| AxiosGetOrders (since : Z) : Call (list Order.t)
(* ethers: signer, token and escrow contracts, provider *)
| GetSignerAddress : Call string
| Allowance (token owner spender : string) : Call Z
| Approve (token spender : string) (amount : Z) : Call string
| TxWait (hash : string) : Call unit
| LockFunds (type : Side) (escrow secretHash token : string)
            (amount timelock : Z) (recipient : string) (value : Z) : Call string
| ClaimFunds (type : Side) (escrow secret : string) : Call string
| Refund (type : Side) (escrow secretHash : string) : Call string
| GetTransactionReceipt (txHash : string) : Call (option Z)
| RandomBytes32 : Call string
(* cosmjs *)
| CosmosGetAccounts : Call (list string)
| SignAndBroadcast (type : Side) (from denom amount memo : string)
    : Call Broadcast.t
(* relayer-side resolver contract and factory *)
| DeploySrc (orderArgs : FillOrderArgs.t) : Call string
| TxWaitReceipt (hash : string) : Call unit
| FactoryOn (eventName : string) : Call unit.

Inductive Outcome (T : Type) :=
| Returns (v : T)
| Throws (e : Js.exn).
Arguments Returns {T} v.
Arguments Throws {T} e.

Inductive LogLevel := LInfo | LWarn | LError.

(** One entry of the chronological trace. *)
Inductive Event :=
| Ev {T : Type} (c : Call T) (o : Outcome T)
| Log (level : LogLevel) (message : string) (args : list string)
| Sleep (ms : Z).

Module EscrowContracts.
(** The [escrowContracts] field of [EscrowExecutor]: addresses read from
    the process environment when the object is built ([""] when unset). *)
Record t := mk {
  ethereum : string;
  sepolia : string;
  bsc : string
}.
End EscrowContracts.

(** Everything the code takes from its platform and from the outside.
    [respond] answers a request given the history so far, together with
    the time the answer took; [lateness] is how late a timer fires.
    [parseFloat], [toFixed] are the JavaScript built-ins and [parseUnits]
    is ethers' ([None] when it throws). *)
Record Env := mkEnv {
  respond : list Event -> forall T, Call T -> Outcome T * N;
  lateness : list Event -> N;
  parseFloat : string -> float;
  toFixed : float -> nat -> string;
  parseUnits : string -> nat -> option Z;
  escrowContracts : EscrowContracts.t
}.

(** Insertion-ordered map, as a JavaScript [Map] with string keys:
    [set] replaces in place or appends, iteration follows the list. *)
Module JsMap.
Section Ops.
Context {V : Type}.
Definition t := list (string * V).

Fixpoint get (m : list (string * V)) (k : string) : option V :=
  match m with
  | [] => None
  | (k', v) :: m' => if String.eqb k' k then Some v else get m' k
  end.

Fixpoint set (m : list (string * V)) (k : string) (v : V)
  : list (string * V) :=
  match m with
  | [] => [(k, v)]
  | (k', v') :: m' =>
      if String.eqb k' k then (k', v) :: m' else (k', v') :: set m' k v
  end.

Fixpoint delete (m : list (string * V)) (k : string)
  : list (string * V) :=
  match m with
  | [] => []
  | (k', v') :: m' =>
      if String.eqb k' k then delete m' k else (k', v') :: delete m' k
  end.

Definition has (m : list (string * V)) (k : string) : bool :=
  match get m k with Some _ => true | None => false end.

Definition keys (m : list (string * V)) : list string := map fst m.
Definition size (m : list (string * V)) : nat := length m.
End Ops.
End JsMap.

(** The mutable fields of the long-lived objects, the clock and the trace. *)
Record World := mkWorld {
  trace : list Event;
  clock : Z;                                    (* Date.now(), ms *)
  priceCache : gmap string (float * Z);         (* ProfitabilityAnalyzer *)
  gasCache : gmap string (GasEstimate.t * Z);
  lastCheckedTimestamp : Z;                     (* OrderMonitor *)
  processedOrders : gset string;                (* CrossChainResolver *)
  activeOrders : list (string * Order.t);
  activeSwaps : list (string * Swap.t)          (* Resolver *)
}.

Definition set_trace (f : list Event -> list Event) (w : World) : World :=
  mkWorld (f (trace w)) (clock w) (priceCache w) (gasCache w)
          (lastCheckedTimestamp w) (processedOrders w) (activeOrders w)
          (activeSwaps w).
Definition set_clock (f : Z -> Z) (w : World) : World :=
  mkWorld (trace w) (f (clock w)) (priceCache w) (gasCache w)
          (lastCheckedTimestamp w) (processedOrders w) (activeOrders w)
          (activeSwaps w).
Definition set_priceCache
  (f : gmap string (float * Z) -> gmap string (float * Z)) (w : World) : World :=
  mkWorld (trace w) (clock w) (f (priceCache w)) (gasCache w)
          (lastCheckedTimestamp w) (processedOrders w) (activeOrders w)
          (activeSwaps w).
Definition set_gasCache
  (f : gmap string (GasEstimate.t * Z) -> gmap string (GasEstimate.t * Z))
  (w : World) : World :=
  mkWorld (trace w) (clock w) (priceCache w) (f (gasCache w))
          (lastCheckedTimestamp w) (processedOrders w) (activeOrders w)
          (activeSwaps w).
Definition set_lastCheckedTimestamp (f : Z -> Z) (w : World) : World :=
  mkWorld (trace w) (clock w) (priceCache w) (gasCache w)
          (f (lastCheckedTimestamp w)) (processedOrders w) (activeOrders w)
          (activeSwaps w).
Definition set_processedOrders (f : gset string -> gset string) (w : World)
  : World :=
  mkWorld (trace w) (clock w) (priceCache w) (gasCache w)
          (lastCheckedTimestamp w) (f (processedOrders w)) (activeOrders w)
          (activeSwaps w).
Definition set_activeOrders
  (f : list (string * Order.t) -> list (string * Order.t)) (w : World) : World :=
  mkWorld (trace w) (clock w) (priceCache w) (gasCache w)
          (lastCheckedTimestamp w) (processedOrders w) (f (activeOrders w))
          (activeSwaps w).
Definition set_activeSwaps
  (f : list (string * Swap.t) -> list (string * Swap.t)) (w : World) : World :=
  mkWorld (trace w) (clock w) (priceCache w) (gasCache w)
          (lastCheckedTimestamp w) (processedOrders w) (activeOrders w)
          (f (activeSwaps w)).

Definition emptyWorld (now : Z) : World :=
  mkWorld [] now ∅ ∅ 0 ∅ [] [].

(* ===================================================================== *)
(** ** The monad of asynchronous methods *)
(* ===================================================================== *)

(** A method either resolves, rejects with a thrown value, or (in the
    model only) exhausts the fuel of a loop. *)
Inductive Res (A : Type) :=
| Ok (a : A)
| Throw (e : Js.exn)
| OutOfFuel.
Arguments Ok {A} a.
Arguments Throw {A} e.
Arguments OutOfFuel {A}.

Definition M (A : Type) : Type := World -> Res A * World.

Definition ret {A} (a : A) : M A := fun w => (Ok a, w).

Definition bind {A B} (m : M A) (k : A -> M B) : M B :=
  fun w =>
    match m w with
    | (Ok a, w') => k a w'
    | (Throw e, w') => (Throw e, w')
    | (OutOfFuel, w') => (OutOfFuel, w')
    end.

Definition throw {A} (e : Js.exn) : M A := fun w => (Throw e, w).

Definition diverge {A} : M A := fun w => (OutOfFuel, w).

(** [try { m } catch (error) { h error }]: effects of [m] up to the throw
    are kept. *)
Definition try_catch {A} (m : M A) (h : Js.exn -> M A) : M A :=
  fun w =>
    match m w with
    | (Throw e, w') => h e w'
    | r => r
    end.

Definition gets {A} (f : World -> A) : M A := fun w => (Ok (f w), w).
Definition modify (f : World -> World) : M unit := fun w => (Ok tt, f w).

Declare Scope js_scope.
Delimit Scope js_scope with js.
Notation "x <- m ;; k" := (bind m (fun x => k))
  (at level 100, m at next level, right associativity) : js_scope.
Notation "m ;;; k" := (bind m (fun _ => k))
  (at level 100, right associativity) : js_scope.
#[local] Open Scope js_scope.

(** [Date.now()] *)
Definition dateNow : M Z := gets clock.

(** [logger.info / warn / error]; interpolated values are passed as [args]
    where a statement below needs them, and left out otherwise. *)
Definition log (l : LogLevel) (msg : string) (args : list string) : M unit :=
  modify (set_trace (fun t => (t ++ [Log l msg args])%list)).

Section Effects.
Variable E : Env.

(** [await <request>] *)
Definition call {T} (c : Call T) : M T :=
  fun w =>
    let '(o, dt) := respond E (trace w) T c in
    let w' := set_clock (fun t => t + Z.of_N dt)
                (set_trace (fun t => (t ++ [Ev c o])%list) w) in
    match o with
    | Returns v => (Ok v, w')
    | Throws e => (Throw e, w')
    end.

(** A request whose promise is not awaited: it is issued, and neither its
    outcome nor the time it takes reaches the caller. *)
Definition fire {T} (c : Call T) : M unit :=
  fun w =>
    let '(o, _) := respond E (trace w) T c in
    (Ok tt, set_trace (fun t => (t ++ [Ev c o])%list) w).

(** [await new Promise(resolve => setTimeout(resolve, ms))] *)
Definition sleep (ms : Z) : M unit :=
  fun w =>
    let late := lateness E (trace w) in
    (Ok tt, set_clock (fun t => t + ms + Z.of_N late)
              (set_trace (fun t => (t ++ [Sleep ms])%list) w)).
End Effects.

(** How the results of two promises combine under [Promise.all]. *)
Definition both {A B} (ra : Res A) (rb : Res B) : Res (A * B) :=
  match ra, rb with
  | Ok x, Ok y => Ok (x, y)
  | OutOfFuel, _ | _, OutOfFuel => OutOfFuel
  | Throw e, _ => Throw e
  | _, Throw e => Throw e
  end.

(** [Promise.all([a, b])]: both computations are started, and the result
    rejects when one of them does.  The model settles [a] before it starts
    [b]; at run time the synchronous prefixes of both run first, which
    differs only when both touch the same cache entry. *)
Definition promiseAll2 {A B} (a : M A) (b : M B) : M (A * B) :=
  fun w =>
    let '(ra, w1) := a w in
    let '(rb, w2) := b w1 in
    (both ra rb, w2).

(** [Promise.all] over an array of promises, settled in array order as
    in [promiseAll2]. *)
Fixpoint promiseAll {A} (ms : list (M A)) : M (list A) :=
  match ms with
  | [] => ret []
  | m :: rest =>
      fun w =>
        let '(ra, w1) := m w in
        let '(rb, w2) := promiseAll rest w1 in
        (match both ra rb with
         | Ok (x, xs) => Ok (x :: xs)
         | Throw e => Throw e
         | OutOfFuel => OutOfFuel
         end, w2)
  end.

(* ===================================================================== *)
(** ** [ProfitabilityAnalyzer] *)
(* ===================================================================== *)

Module ProfitabilityAnalyzer.

Definition CACHE_TTL : Z := 30000.
Definition MIN_PROFIT_USD : float := 5%float.
Definition MIN_PROFIT_MARGIN : float := 0.5%float.

(** The own properties of the [coinGeckoIds] literal of
    [fetchTokenPrice]. *)
Definition coinGeckoIds (tokenAddress : string) : option string :=
  if String.eqb tokenAddress "0xC02aaA39b223FE8D0A0e5C4F27eAD9083C756Cc2"
  then Some "ethereum"
  else if String.eqb tokenAddress "0xA0b86a33E6C30ff8f73C4F65F5642D8AE4b3cB9D"
  then Some "ethereum"
  else if String.eqb tokenAddress "0x7b79995e5f793a07bc00c21412e50ecae098e7f9"
  then Some "ethereum"
  else if String.eqb tokenAddress "0x8AC76a51cc950d9822D68b83fE1Ad97B32Cd580d"
  then Some "usd-coin"
  else None.

(** The own properties of the [cosmosTokens] literal of
    [fetchCosmosTokenPrice]. *)
Definition cosmosTokens (denom : string) : option string :=
  if String.eqb denom "uatom" then Some "cosmos"
  else if String.eqb denom "uosmo" then Some "osmosis"
  else if String.eqb denom "ujuno" then Some "juno-network"
  else None.

Inductive GasOperation := escrow_lock | escrow_claim.

(** [estimateChainGasCost]: fixed estimates, no request is made. *)
Definition estimateChainGasCost (chainId : ChainId) (operation : GasOperation)
  : ChainGas.t :=
  match chainId with
  | ChainStr _ => ChainGas.mk 100000 "0.025uatom" 0.5%float
  | ChainNum _ =>
      ChainGas.mk
        (match operation with escrow_claim => 150000 | escrow_lock => 200000 end)
        "20000000000"
        (match operation with escrow_claim => 2%float | escrow_lock => 3%float end)
  end.

(** The fallback of [estimateGasCosts]'s catch branch. *)
Definition fallbackGasEstimate : GasEstimate.t :=
  GasEstimate.mk 200000 "20000000000" 3%float
                 100000 "0.025" 0.5%float
                 150000 2%float 5.5%float.

Definition shouldFillOrder (netProfitUsd profitMarginPercent : float)
           (liquidityCheck : LiquidityStatus.t) : bool :=
  if PrimFloat.ltb netProfitUsd MIN_PROFIT_USD then false
  else if PrimFloat.ltb profitMarginPercent MIN_PROFIT_MARGIN then false
  else if negb (LiquidityStatus.hasSourceLiquidity liquidityCheck)
          || negb (LiquidityStatus.hasDestinationLiquidity liquidityCheck)
  then false
  else true.

Definition selectOptimalRoute (order : Order.t) : string :=
  if bool_decide (Order.srcChainId order = ChainNum 1)
     && bool_decide (Order.dstChainId order = ChainStr "cosmoshub-4")
  then "gravity" else "axelar".

Section WithEnv.
Variable E : Env.

Definition fetchCosmosTokenPrice (denom : string) : M float :=
  match Js.lookup cosmosTokens denom with
  | None =>
      log LWarn "Unknown Cosmos token" [denom] ;;;
      ret 1%float
  | Some coinId =>
      usd <- call E (AxiosGetPrice coinId) ;;
      ret (Js.orNumber usd 1%float)
  end.

Definition fetchTokenPrice (tokenAddress : string) (chainId : ChainId)
  : M float :=
  match chainId with
  | ChainStr _ => fetchCosmosTokenPrice tokenAddress
  | ChainNum _ =>
      match Js.lookup coinGeckoIds tokenAddress with
      | None => throw (Js.Error ("Unknown token: " ++ tokenAddress))
      | Some coinId =>
          usd <- call E (AxiosGetPrice coinId) ;;
          ret (Js.orNumber usd 1%float)
      end
  end.

Definition priceCacheKey (tokenAddress : string) (chainId : ChainId)
  : string :=
  chainIdToString chainId ++ "-" ++ tokenAddress.

Definition getTokenPrice (tokenAddress : string) (chainId : ChainId)
  : M TokenPrice.t :=
  let cacheKey := priceCacheKey tokenAddress chainId in
  cached <- gets (fun w => priceCache w !! cacheKey) ;;
  now <- dateNow ;;
  let fresh : M TokenPrice.t :=
    try_catch
      (price <- fetchTokenPrice tokenAddress chainId ;;
       now <- dateNow ;;
       modify (set_priceCache (insert cacheKey (price, now))) ;;;
       ret (TokenPrice.mk price FromApi))
      (fun _ =>
         log LWarn "Failed to fetch price, using fallback" [tokenAddress] ;;;
         ret (TokenPrice.mk 1%float FromFallback)) in
  match cached with
  | Some (price, timestamp) =>
      if Z.ltb (now - timestamp) CACHE_TTL
      then ret (TokenPrice.mk price FromCache)
      else fresh
  | None => fresh
  end.

Definition gasCacheKey (order : Order.t) : string :=
  "gas-" ++ chainIdToString (Order.srcChainId order) ++ "-"
         ++ chainIdToString (Order.dstChainId order).

Definition estimateGasCosts (order : Order.t) : M GasEstimate.t :=
  let cacheKey := gasCacheKey order in
  cached <- gets (fun w => gasCache w !! cacheKey) ;;
  now <- dateNow ;;
  let fresh : M GasEstimate.t :=
    try_catch
      (let sourceGas := estimateChainGasCost (Order.srcChainId order) escrow_lock in
       let destGas := estimateChainGasCost (Order.dstChainId order) escrow_lock in
       let claimGas := estimateChainGasCost (Order.srcChainId order) escrow_claim in
       let estimate :=
         GasEstimate.mk
           (ChainGas.gasUnits sourceGas) (ChainGas.gasPrice sourceGas)
           (ChainGas.gasCostUsd sourceGas)
           (ChainGas.gasUnits destGas) (ChainGas.gasPrice destGas)
           (ChainGas.gasCostUsd destGas)
           (ChainGas.gasUnits claimGas) (ChainGas.gasCostUsd claimGas)
           (ChainGas.gasCostUsd sourceGas + ChainGas.gasCostUsd destGas
            + ChainGas.gasCostUsd claimGas)%float in
       now <- dateNow ;;
       modify (set_gasCache (insert cacheKey (estimate, now))) ;;;
       ret estimate)
      (fun _ =>
         log LWarn "Gas estimation failed, using defaults" [] ;;;
         ret fallbackGasEstimate) in
  match cached with
  | Some (estimate, timestamp) =>
      if Z.ltb (now - timestamp) CACHE_TTL then ret estimate else fresh
  | None => fresh
  end.

Definition checkLiquidityAvailability (order : Order.t)
  : M LiquidityStatus.t :=
  ret (LiquidityStatus.mk true true 1.2%float 0.1%float).

Definition getRejectReason (netProfitUsd profitMarginPercent : float)
           (liquidityCheck : LiquidityStatus.t) : string :=
  if PrimFloat.ltb netProfitUsd MIN_PROFIT_USD
  then "Insufficient profit: $" ++ toFixed E netProfitUsd 2 ++ " < $5"
  else if PrimFloat.ltb profitMarginPercent MIN_PROFIT_MARGIN
  then "Low margin: " ++ toFixed E profitMarginPercent 2 ++ "% < 0.5%"
  else if negb (LiquidityStatus.hasDestinationLiquidity liquidityCheck)
  then "Insufficient destination liquidity"
  else "Unknown rejection reason".

(** The methods [analyzeOrder] awaits through [this]. *)
Record Methods := mkMethods {
  this_getTokenPrice : string -> ChainId -> M TokenPrice.t;
  this_estimateGasCosts : Order.t -> M GasEstimate.t;
  this_checkLiquidityAvailability : Order.t -> M LiquidityStatus.t
}.

(** The body of [analyzeOrder]'s [try] block. *)
Definition analyzeOrder_try (this : Methods) (order : Order.t) (startTime : Z)
  : M Decision.t :=
  log LInfo "Analyzing order" [Js.slice10 (Order.orderHash order)] ;;;
  (* Step 1: token prices *)
  prices <- promiseAll2
              (this_getTokenPrice this (Order.srcToken order) (Order.srcChainId order))
              (this_getTokenPrice this (Order.dstToken order) (Order.dstChainId order)) ;;
  let srcPrice := fst prices in
  let dstPrice := snd prices in
  (* Step 2: USD values *)
  let srcAmountUsd :=
    (parseFloat E (Order.srcAmount order) * TokenPrice.priceUsd srcPrice)%float in
  let dstAmountUsd :=
    (parseFloat E (Order.dstAmount order) * TokenPrice.priceUsd dstPrice)%float in
  (* Step 3: gas costs *)
  gasEstimate <- this_estimateGasCosts this order ;;
  let totalGasCostUsd :=
    (GasEstimate.sourceGasUsd gasEstimate
     + GasEstimate.destinationGasUsd gasEstimate)%float in
  (* Step 4: profit *)
  let grossProfitUsd := (srcAmountUsd - dstAmountUsd)%float in
  let netProfitUsd := (grossProfitUsd - totalGasCostUsd)%float in
  let profitMarginPercent := ((netProfitUsd / srcAmountUsd) * 100)%float in
  (* Step 5: liquidity *)
  liquidityCheck <- this_checkLiquidityAvailability this order ;;
  (* Step 6: decision *)
  let shouldFill := shouldFillOrder netProfitUsd profitMarginPercent liquidityCheck in
  now1 <- dateNow ;;
  let analysisTime := now1 - startTime in
  let reason :=
    if shouldFill then "Profitable order"
    else getRejectReason netProfitUsd profitMarginPercent liquidityCheck in
  now2 <- dateNow ;;
  let decision :=
    Decision.mk (Order.orderHash order) shouldFill reason
                netProfitUsd profitMarginPercent totalGasCostUsd
                (Some srcPrice) (Some dstPrice) (Some liquidityCheck)
                (Some (selectOptimalRoute order)) analysisTime now2 in
  log LInfo "Analysis complete"
      [Js.slice10 (Order.orderHash order);
       toFixed E netProfitUsd 2; toFixed E profitMarginPercent 2;
       toFixed E totalGasCostUsd 2] ;;;
  ret decision.

(** The [catch (error)] block. *)
Definition analyzeOrder_catch (order : Order.t) (startTime : Z) (error : Js.exn)
  : M Decision.t :=
  log LError "Analysis failed" [Js.slice10 (Order.orderHash order)] ;;;
  now1 <- dateNow ;;
  now2 <- dateNow ;;
  ret (Decision.mk (Order.orderHash order) false
                   ("Analysis error: " ++ Js.messageOr error "Unknown error")
                   0%float 0%float 0%float None None None None
                   (now1 - startTime) now2).

(** [analyzeOrder], with [this] explicit. *)
Definition analyzeOrderWith (this : Methods) (order : Order.t) : M Decision.t :=
  startTime <- dateNow ;;
  try_catch (analyzeOrder_try this order startTime)
            (analyzeOrder_catch order startTime).

(** The class's own methods. *)
Definition self : Methods :=
  mkMethods getTokenPrice estimateGasCosts checkLiquidityAvailability.

Definition analyzeOrder (order : Order.t) : M Decision.t :=
  analyzeOrderWith self order.


(** The [commonTokens] of [warmupPriceCache]. *)
Definition commonTokens : list (string * ChainId) :=
  [("0xC02aaA39b223FE8D0A0e5C4F27eAD9083C756Cc2", ChainNum 1);
   ("uatom", ChainStr "cosmoshub-4");
   ("uosmo", ChainStr "osmosis-1")].

(** [this.getTokenPrice(token.address, token.chainId).catch(() => { })] *)
Definition warmupOne (token : string * ChainId) : M unit :=
  try_catch (getTokenPrice (fst token) (snd token) ;;; ret tt)
            (fun _ => ret tt).

Definition warmupPriceCache : M unit :=
  promiseAll (map warmupOne commonTokens) ;;; ret tt.

Definition initialize : M unit :=
  log LInfo "Initializing profitability analyzer" [] ;;;
  warmupPriceCache ;;;
  log LInfo "Profitability analyzer ready" [].

End WithEnv.
End ProfitabilityAnalyzer.

(* ===================================================================== *)
(** ** A reference platform for concrete runs *)
(* ===================================================================== *)

(** The statements below hold for every [Env].  Concrete runs need one:
    this module gives executable readings of the three library functions
    on plain decimal input.  [parseFloat] reads the longest numeric prefix
    and is exact whenever the decimal mantissa and the power of ten are
    both representable (at most 15 significant digits, exponent within
    22); [toFixed] is exact below 1e21; [parseUnits] is ethers' decimal
    reader. *)
Module Platform.

Definition digit (c : ascii) : option Z :=
  let n := Z.of_N (N_of_ascii c) in
  if (48 <=? n)%Z && (n <=? 57)%Z then Some (n - 48) else None.

(** Reads a maximal run of digits: value so far, how many, the rest. *)
Fixpoint digits (s : string) (acc : Z) (cnt : nat) : Z * nat * string :=
  match s with
  | String c s' =>
      match digit c with
      | Some d => digits s' (10 * acc + d) (S cnt)
      | None => (acc, cnt, s)
      end
  | EmptyString => (acc, cnt, s)
  end.

Definition isWhite (c : ascii) : bool :=
  let n := N_of_ascii c in
  (N.eqb n 32 || (N.leb 9 n && N.leb n 13))%N.

Fixpoint skipWhite (s : string) : string :=
  match s with
  | String c s' => if isWhite c then skipWhite s' else s
  | EmptyString => s
  end.

(** An optional sign: [true] when negative. *)
Definition sign (s : string) : bool * string :=
  match s with
  | String "-" s' => (true, s')
  | String "+" s' => (false, s')
  | _ => (false, s)
  end.

Definition Z2float (z : Z) : float :=
  SF2Prim (binary_normalize prec emax z 0 false).

Definition scale10 (m e10 : Z) : float :=
  if (0 <=? e10)%Z then Z2float (m * 10 ^ e10)
  else (Z2float m / Z2float (10 ^ (- e10)))%float.

(** The exponent part [e[+-]digits], when well formed. *)
Definition exponent (s : string) : Z :=
  match s with
  | String c s' =>
      if Ascii.eqb c "e" || Ascii.eqb c "E" then
        let '(neg, s'') := sign s' in
        let '(v, cnt, _) := digits s'' 0 0 in
        match cnt with
        | O => 0
        | S _ => if neg then - v else v
        end
      else 0
  | EmptyString => 0
  end.

Definition parseFloat (input : string) : float :=
  let '(neg, s) := sign (skipWhite input) in
  let signed (x : float) := if neg then PrimFloat.opp x else x in
  if String.prefix "Infinity" s then signed infinity
  else
    let '(ip, icnt, s1) := digits s 0 0 in
    let '(m, fcnt, s2) :=
      match s1 with
      | String "." s1' =>
          let '(m, cnt, s2) := digits s1' ip 0 in
          (* a lone "." after no digits is not a number *)
          (m, cnt, s2)
      | _ => (ip, O, s1)
      end in
    match (icnt + fcnt)%nat with
    | O => nan
    | S _ => signed (scale10 m (exponent s2 - Z.of_nat fcnt))
    end.

Fixpoint zeros (n : nat) : string :=
  match n with O => "" | S n' => String "0" (zeros n') end.

(** [x.toFixed(d)] *)
Definition toFixed (x : float) (d : nat) : string :=
  match Prim2SF x with
  | S754_nan => "NaN"
  | S754_infinity s => if s then "-Infinity" else "Infinity"
  | S754_zero _ =>
      match d with O => "0" | S _ => "0." ++ zeros d end
  | S754_finite s m e =>
      let num := Z.pos m * 10 ^ Z.of_nat d in
      let n :=
        if (0 <=? e)%Z then num * 2 ^ e
        else (2 * num + 2 ^ (- e)) / (2 * 2 ^ (- e)) in
      let ds := pretty n in
      let ds := zeros (S d - String.length ds) ++ ds in
      let k := (String.length ds - d)%nat in
      let body :=
        match d with
        | O => ds
        | S _ => String.substring 0 k ds ++ "." ++ String.substring k d ds
        end in
      if s then "-" ++ body else body
  end.

(** [ethers.parseUnits(s, decimals)]; [None] when it throws. *)
Definition parseUnits (input : string) (decimals : nat) : option Z :=
  let '(neg, s) :=
    match input with String "-" s' => (true, s') | _ => (false, input) end in
  let '(ip, icnt, s1) := digits s 0 0 in
  let '(fp, fcnt, s2) :=
    match s1 with
    | String "." s1' => digits s1' 0 0
    | _ => (0, O, s1)
    end in
  match s2, (icnt + fcnt)%nat with
  | EmptyString, S _ =>
      if (fcnt <=? decimals)%nat then
        let v := ip * 10 ^ Z.of_nat decimals
                 + fp * 10 ^ Z.of_nat (decimals - fcnt) in
        Some (if neg then - v else v)
      else None
  | _, _ => None
  end.

(** An environment in which every request succeeds with a bland answer
    after [dt] milliseconds and timers fire on time. *)
Definition calm (dt : N) : list Event -> forall T, Call T -> Outcome T * N :=
  fun _ T c =>
    match c in Call T return Outcome T * N with
    | AxiosGetPrice _ => (Returns None, dt)
    | AxiosGetOrders _ => (Returns [], dt)
    | GetSignerAddress => (Returns "0xResolver", dt)
    | Allowance _ _ _ => (Returns 0, dt)
    | Approve _ _ _ => (Returns "0xapprove", dt)
    | TxWait _ => (Returns tt, dt)
    | LockFunds _ _ _ _ _ _ _ _ => (Returns "0xlock", dt)
    | ClaimFunds _ _ _ => (Returns "0xclaim", dt)
    | Refund _ _ _ => (Returns "0xrefund", dt)
    | GetTransactionReceipt _ => (Returns (Some 1), dt)
    | RandomBytes32 => (Returns "0xsecret", dt)
    | CosmosGetAccounts => (Returns ["cosmos1resolver"], dt)
    | SignAndBroadcast _ _ _ _ _ =>
        (Returns (Broadcast.mk 0 "" "COSMOSTX" 100 90000), dt)
    | DeploySrc _ => (Returns "0xdeploy", dt)
    | TxWaitReceipt _ => (Returns tt, dt)
    | FactoryOn _ => (Returns tt, dt)
    end.

(** The executor's default address table: only Sepolia is configured. *)
Definition env (r : list Event -> forall T, Call T -> Outcome T * N) : Env :=
  mkEnv r (fun _ => 0%N) parseFloat toFixed parseUnits
        (EscrowContracts.mk "" "0x718B8f5c8C1A9bd20b8f3cB347b7CD661A7694B1" "").

End Platform.

(* ===================================================================== *)
(** ** [OrderMonitor] *)
(* ===================================================================== *)

Module Submission.
(** What reaches [submitOrder] is a request body typed as
    [CrossChainOrder]: any field may be absent ([None] stands for
    [undefined]). *)
Record t := mk {
  orderHash : option string;
  maker : option string;
  srcChainId : option ChainId;
  dstChainId : option ChainId;
  srcToken : option string;
  dstToken : option string;
  srcAmount : option string;
  dstAmount : option string;
  deadline : option Z;
  secretHash : option string;
  signature : option string;
  timeLocks : option TimeLocks.t
}.

Definition with_timeLocks (o : t) (tl : option TimeLocks.t) : t :=
  mk (orderHash o) (maker o) (srcChainId o) (dstChainId o) (srcToken o)
     (dstToken o) (srcAmount o) (dstAmount o) (deadline o) (secretHash o)
     (signature o) tl.
End Submission.

Module SubmitResult.
Record t := mk { success : bool; message : string }.
End SubmitResult.

Module OrderMonitor.

(** Truthiness of [order[field]] for the fields [validateOrder] tests. *)
Definition truthy_opt_string (v : option string) : bool :=
  match v with Some s => Js.truthy_string s | None => false end.

Definition truthy_opt_chain (v : option ChainId) : bool :=
  match v with
  | Some (ChainNum n) => Js.truthy_int n
  | Some (ChainStr s) => Js.truthy_string s
  | None => false
  end.

Definition truthy_opt_int (v : option Z) : bool :=
  match v with Some n => Js.truthy_int n | None => false end.

Definition truthyField (order : Submission.t) (field : string) : bool :=
  if String.eqb field "orderHash" then truthy_opt_string (Submission.orderHash order)
  else if String.eqb field "maker" then truthy_opt_string (Submission.maker order)
  else if String.eqb field "srcChainId" then truthy_opt_chain (Submission.srcChainId order)
  else if String.eqb field "dstChainId" then truthy_opt_chain (Submission.dstChainId order)
  else if String.eqb field "srcToken" then truthy_opt_string (Submission.srcToken order)
  else if String.eqb field "dstToken" then truthy_opt_string (Submission.dstToken order)
  else if String.eqb field "srcAmount" then truthy_opt_string (Submission.srcAmount order)
  else if String.eqb field "dstAmount" then truthy_opt_string (Submission.dstAmount order)
  else if String.eqb field "deadline" then truthy_opt_int (Submission.deadline order)
  else if String.eqb field "secretHash" then truthy_opt_string (Submission.secretHash order)
  else if String.eqb field "signature" then truthy_opt_string (Submission.signature order)
  else false.

Definition required : list string :=
  ["orderHash"; "maker"; "srcChainId"; "dstChainId";
   "srcToken"; "dstToken"; "srcAmount"; "dstAmount";
   "deadline"; "secretHash"; "signature"].

Definition supportedChains : list ChainId :=
  [ChainNum 1; ChainNum 11155111; ChainNum 56; ChainNum 137;
   ChainStr "cosmoshub-4"; ChainStr "osmosis-1"].

(** [supportedChains.includes(c)] *)
Definition includes (c : option ChainId) : bool :=
  match c with
  | Some c => bool_decide (c ∈ supportedChains)
  | None => false
  end.

(** [order.deadline <= now] *)
Definition deadlinePassed (d : option Z) (now : Z) : bool :=
  match d with Some d => Z.leb d now | None => false end.

Definition transformOrder (rawOrder : Order.t) : Order.t :=
  Order.mk (Order.orderHash rawOrder) (Order.maker rawOrder)
           (Order.srcChainId rawOrder) (Order.dstChainId rawOrder)
           (Order.srcToken rawOrder) (Order.dstToken rawOrder)
           (Order.srcAmount rawOrder) (Order.dstAmount rawOrder)
           (Order.deadline rawOrder) (Order.secretHash rawOrder)
           (Order.signature rawOrder) (Order.escrowFactory rawOrder)
           (Order.timeLocks rawOrder) (Order.createdAt rawOrder)
           (Order.nonce rawOrder)
           StPending "0" None.

Section WithEnv.
Variable E : Env.

(** [parseFloat(order.srcAmount)]; [parseFloat(undefined)] is [NaN]. *)
Definition parseAmount (a : option string) : float :=
  match a with Some s => parseFloat E s | None => nan end.

Definition validateOrder (order : Submission.t) : M unit :=
  match List.find (fun field => negb (truthyField order field)) required with
  | Some field => throw (Js.Error ("Missing required field: " ++ field))
  | None =>
      now <- dateNow ;;
      if deadlinePassed (Submission.deadline order) now
      then throw (Js.Error "Order deadline has already passed")
      else if PrimFloat.leb (parseAmount (Submission.srcAmount order)) 0
              || PrimFloat.leb (parseAmount (Submission.dstAmount order)) 0
      then throw (Js.Error "Invalid order amounts")
      else if negb (includes (Submission.srcChainId order))
              || negb (includes (Submission.dstChainId order))
      then throw (Js.Error "Unsupported chain ID")
      else ret tt
  end.

Definition submitOrder (order : Submission.t) : M SubmitResult.t :=
  try_catch
    (validateOrder order ;;;
     match Submission.orderHash order with
     | Some orderHash =>
         log LInfo "New order submitted" [Js.slice10 orderHash] ;;;
         log LInfo "Route" [] ;;;
         log LInfo "Amount" [] ;;;
         ret (SubmitResult.mk true
                ("Order " ++ Js.slice10 orderHash ++ " queued for processing"))
     | None =>
         throw (Js.Error "Cannot read properties of undefined (reading 'slice')")
     end)
    (fun error =>
       log LError "Invalid order submission" [] ;;;
       ret (SubmitResult.mk false (Js.messageOr error "Invalid order format"))).

Definition fetchPendingOrders : M (list Order.t) :=
  try_catch
    (since <- gets lastCheckedTimestamp ;;
     orders <- call E (AxiosGetOrders since) ;;
     match orders with
     | [] => ret []
     | _ :: _ =>
         log LInfo "Fetched pending orders" [] ;;;
         now <- dateNow ;;
         modify (set_lastCheckedTimestamp (fun _ => now)) ;;;
         ret (map transformOrder orders)
     end)
    (fun _ =>
       log LError "Failed to fetch orders" [] ;;;
       ret []).

End WithEnv.
End OrderMonitor.

(* ===================================================================== *)
(** ** [EscrowExecutor] *)
(* ===================================================================== *)

Module EscrowExecutor.

Definition ZeroAddress : string := "0x0000000000000000000000000000000000000000".

Definition sideName (type : Side) : string :=
  match type with Source => "source" | Destination => "destination" end.

Section WithEnv.
Variable E : Env.

Definition parseUnitsM (amount : string) (decimals : nat) : M Z :=
  match parseUnits E amount decimals with
  | Some v => ret v
  | None => throw (Js.Error "invalid FixedNumber string value")
  end.

(** The [addresses] table of [getEscrowAddress]; [addresses[chainId]]
    looks the chain id up by its string key ([""] for [undefined]). *)
Definition addresses (chainId : ChainId) : string :=
  let key := chainIdToString chainId in
  if String.eqb key "1" then EscrowContracts.ethereum (escrowContracts E)
  else if String.eqb key "11155111" then EscrowContracts.sepolia (escrowContracts E)
  else if String.eqb key "56" then EscrowContracts.bsc (escrowContracts E)
  else "".

Definition getEscrowAddress (chainId : ChainId) : M string :=
  let address := addresses chainId in
  if Js.truthy_string address then ret address
  else throw (Js.Error ("No escrow contract for chain " ++ chainIdToString chainId)).

Definition approveToken (tokenAddress spender amount : string) : M unit :=
  owner <- call E GetSignerAddress ;;
  currentAllowance <- call E (Allowance tokenAddress owner spender) ;;
  requiredAmount <- parseUnitsM amount 18 ;;
  if Z.ltb currentAllowance requiredAmount then
    log LInfo "Approving token for escrow contract" [tokenAddress] ;;;
    approveTx <- call E (Approve tokenAddress spender requiredAmount) ;;
    call E (TxWait approveTx) ;;;
    log LInfo "Token approval confirmed" [approveTx]
  else ret tt.

Definition lockEvmEscrow (order : Order.t) (type : Side)
  : M TransactionResult.t :=
  let chainId :=
    match type with Source => Order.srcChainId order | Destination => Order.dstChainId order end in
  let amount :=
    match type with Source => Order.srcAmount order | Destination => Order.dstAmount order end in
  let token :=
    match type with Source => Order.srcToken order | Destination => Order.dstToken order end in
  log LInfo "Locking in EVM escrow" [amount; token; chainIdToString chainId] ;;;
  escrowAddress <- getEscrowAddress chainId ;;
  now <- dateNow ;;
  let timelock := now / 1000 + 7200 in
  (if String.eqb token ZeroAddress then ret tt
   else approveToken token escrowAddress amount) ;;;
  units <- parseUnitsM amount 18 ;;
  recipient <- match type with
               | Source => call E GetSignerAddress
               | Destination => ret (Order.maker order)
               end ;;
  value <- (if String.eqb token ZeroAddress then parseUnitsM amount 18 else ret 0) ;;
  tx <- call E (LockFunds type escrowAddress (Order.secretHash order) token
                          units timelock recipient value) ;;
  log LInfo "EVM escrow transaction submitted" [tx] ;;;
  ret (TransactionResult.mk tx (chainIdToString chainId) 0 "300000" TxPending).

Definition lockCosmosEscrow (order : Order.t) (type : Side)
  : M TransactionResult.t :=
  let amount :=
    match type with Source => Order.srcAmount order | Destination => Order.dstAmount order end in
  let denom :=
    match type with Source => Order.srcToken order | Destination => Order.dstToken order end in
  log LInfo "Locking in Cosmos escrow" [amount; denom] ;;;
  accounts <- call E CosmosGetAccounts ;;
  resolverAddress <-
    match accounts with
    | a :: _ => ret a
    | [] => throw (Js.Error "Cannot read properties of undefined (reading 'address')")
    end ;;
  units <- parseUnitsM amount 6 ;;
  result <- call E (SignAndBroadcast type resolverAddress denom (pretty units)
                      ("Escrow lock for order " ++ Js.slice10 (Order.orderHash order))) ;;
  if negb (Z.eqb (Broadcast.code result) 0)
  then throw (Js.Error ("Cosmos transaction failed: " ++ Broadcast.rawLog result))
  else
    log LInfo "Cosmos escrow transaction" [Broadcast.transactionHash result] ;;;
    ret (TransactionResult.mk (Broadcast.transactionHash result) "cosmoshub-4"
           (Broadcast.height result) (pretty (Broadcast.gasUsed result))
           TxConfirmed).

Definition lockSourceEscrow (order : Order.t) (decision : Decision.t)
  : M TransactionResult.t :=
  try_catch
    (if isString (Order.srcChainId order)
     then lockCosmosEscrow order Source
     else lockEvmEscrow order Source)
    (fun error =>
       log LError "Failed to lock source escrow" [] ;;;
       throw error).

Definition lockDestinationEscrow (order : Order.t) (decision : Decision.t)
  : M TransactionResult.t :=
  try_catch
    (if isString (Order.dstChainId order)
     then lockCosmosEscrow order Destination
     else lockEvmEscrow order Destination)
    (fun error =>
       log LError "Failed to lock destination escrow" [] ;;;
       throw error).

Definition claimFromEvmEscrow (order : Order.t) (secret : string) (type : Side)
  : M unit :=
  let chainId :=
    match type with Source => Order.srcChainId order | Destination => Order.dstChainId order end in
  escrowAddress <- getEscrowAddress chainId ;;
  tx <- call E (ClaimFunds type escrowAddress secret) ;;
  call E (TxWait tx) ;;;
  log LInfo "Claimed from EVM escrow" [tx].

(** Only logs; the entry records the [type] it was called with. *)
Definition claimFromCosmosEscrow (order : Order.t) (secret : string) (type : Side)
  : M unit :=
  log LInfo "Claimed from Cosmos escrow (simulated)" [sideName type].

Definition claimFromEscrow (order : Order.t) (secret : string) (type : Side)
  : M unit :=
  let chainId :=
    match type with Source => Order.srcChainId order | Destination => Order.dstChainId order end in
  if isString chainId
  then claimFromCosmosEscrow order secret type
  else claimFromEvmEscrow order secret type.

Definition revealSecretAndClaim (order : Order.t) (decision : Decision.t)
  : M unit :=
  log LInfo "Revealing secret and claiming funds" [Js.slice10 (Order.orderHash order)] ;;;
  secret <- call E RandomBytes32 ;;
  try_catch
    (claimFromEscrow order secret Source ;;;
     log LInfo "Secret revealed, atomic swap completed" [])
    (fun error =>
       log LError "Failed to reveal secret and claim" [] ;;;
       throw error).

Definition isTransactionConfirmed (txHash : string) (chain : Side) : M bool :=
  try_catch
    (if bool_decide (chain = Source) && Js.startsWith txHash "0x" then
       receipt <- call E (GetTransactionReceipt txHash) ;;
       ret (match receipt with
            | Some status => Z.eqb status 1
            | None => false
            end)
     else ret true)
    (fun _ =>
       log LWarn "Could not check transaction status" [txHash] ;;;
       ret false).

Definition cancelEvmEscrow (order : Order.t) (type : Side) : M unit :=
  let chainId :=
    match type with Source => Order.srcChainId order | Destination => Order.dstChainId order end in
  escrowAddress <- getEscrowAddress chainId ;;
  try_catch
    (tx <- call E (Refund type escrowAddress (Order.secretHash order)) ;;
     call E (TxWait tx) ;;;
     log LInfo "Cancelled escrow" [sideName type; tx])
    (fun _ => log LWarn "Could not cancel escrow" [sideName type]).

Definition cancelEscrows (order : Order.t) : M unit :=
  log LWarn "Cancelling escrows for order" [Js.slice10 (Order.orderHash order)] ;;;
  try_catch
    ((if isString (Order.srcChainId order) then ret tt
      else cancelEvmEscrow order Source) ;;;
     (if isString (Order.dstChainId order) then ret tt
      else cancelEvmEscrow order Destination) ;;;
     log LInfo "Escrows cancelled" [])
    (fun _ => log LError "Failed to cancel escrows" []).

End WithEnv.
End EscrowExecutor.

(* ===================================================================== *)
(** ** [CrossChainResolver] *)
(* ===================================================================== *)

Module CrossChainResolver.

(** [waitForEscrowConfirmations] polls for at most five minutes and
    sleeps five seconds between polls. *)
Definition timeout : Z := 300000.
Definition pollDelay : Z := 5000.

(** Enough fuel for every run of the polling loop (proved with
    the rest of the swap's properties). *)
Definition pollFuel : nat := 60.

Section WithEnv.
Variable E : Env.

(** The [while] loop: the guard is read first, one unit of fuel pays
    for one turn of the body. *)
Fixpoint waitLoop (fuel : nat) (sourceTxHash destTxHash : string)
         (startTime : Z) : M unit :=
  now <- dateNow ;;
  if Z.ltb (now - startTime) timeout then
    match fuel with
    | O => diverge
    | S fuel' =>
        sourceConfirmed <-
          EscrowExecutor.isTransactionConfirmed E sourceTxHash Source ;;
        destConfirmed <-
          EscrowExecutor.isTransactionConfirmed E destTxHash Destination ;;
        if sourceConfirmed && destConfirmed then
          log LInfo "Both escrows confirmed" []
        else
          sleep E pollDelay ;;;
          waitLoop fuel' sourceTxHash destTxHash startTime
    end
  else throw (Js.Error "Escrow confirmations timed out").

Definition waitForEscrowConfirmations (sourceTxHash destTxHash : string)
  : M unit :=
  startTime <- dateNow ;;
  waitLoop pollFuel sourceTxHash destTxHash startTime.

Definition handleFailedSwap (order : Order.t) (error : Js.exn) : M unit :=
  log LWarn "Handling failed swap" [Js.slice10 (Order.orderHash order)] ;;;
  try_catch
    (EscrowExecutor.cancelEscrows E order ;;;
     log LInfo "Swap failure logged for order" [Js.slice10 (Order.orderHash order)])
    (fun _ => log LError "Error during swap cleanup" []).

Definition executeAtomicSwap (order : Order.t) (decision : Decision.t)
  : M unit :=
  let orderKey := Js.slice10 (Order.orderHash order) in
  try_catch
    (log LInfo "Starting atomic swap for order" [orderKey] ;;;
     (* Step 1: lock the user's tokens in the source escrow *)
     log LInfo "Locking in source escrow" [] ;;;
     sourceEscrowTx <- EscrowExecutor.lockSourceEscrow E order decision ;;
     log LInfo "Source escrow transaction" [TransactionResult.hash sourceEscrowTx] ;;;
     (* Step 2: lock the resolver's tokens in the destination escrow *)
     log LInfo "Locking in destination escrow" [] ;;;
     destEscrowTx <- EscrowExecutor.lockDestinationEscrow E order decision ;;
     log LInfo "Destination escrow transaction" [TransactionResult.hash destEscrowTx] ;;;
     (* Step 3: wait for confirmations *)
     log LInfo "Waiting for escrow confirmations" [] ;;;
     waitForEscrowConfirmations (TransactionResult.hash sourceEscrowTx)
                                (TransactionResult.hash destEscrowTx) ;;;
     (* Step 4: reveal the secret and claim *)
     log LInfo "Revealing secret and claiming funds" [] ;;;
     EscrowExecutor.revealSecretAndClaim E order decision ;;;
     log LInfo "Atomic swap completed successfully for order" [orderKey] ;;;
     modify (set_activeOrders (fun m => JsMap.delete m (Order.orderHash order))))
    (fun error =>
       log LError "Atomic swap failed for order" [orderKey] ;;;
       handleFailedSwap order error ;;;
       modify (set_activeOrders (fun m => JsMap.delete m (Order.orderHash order)))).

Definition analyzeAndExecuteOrder (order : Order.t) : M unit :=
  try_catch
    (log LInfo "Analyzing order" [Js.slice10 (Order.orderHash order)] ;;;
     decision <- ProfitabilityAnalyzer.analyzeOrder E order ;;
     if negb (Decision.shouldFill decision) then
       log LInfo "Order not profitable"
           [Js.slice10 (Order.orderHash order); Decision.reason decision]
     else
       log LInfo "Order is profitable" [Js.slice10 (Order.orderHash order)] ;;;
       modify (set_activeOrders (fun m => JsMap.set m (Order.orderHash order) order)) ;;;
       executeAtomicSwap order decision)
    (fun _ => log LError "Failed to process order" [Js.slice10 (Order.orderHash order)]).

(** The [for (const order of orders)] loop of [processNewOrders]. *)
Fixpoint processEach (orders : list Order.t) : M unit :=
  match orders with
  | [] => ret tt
  | order :: rest =>
      seen <- gets (fun w => bool_decide (Order.orderHash order ∈ processedOrders w)) ;;
      if (seen : bool) then processEach rest
      else
        log LInfo "New order detected" [Js.slice10 (Order.orderHash order)] ;;;
        analyzeAndExecuteOrder order ;;;
        modify (set_processedOrders (fun s => {[ Order.orderHash order ]} ∪ s)) ;;;
        processEach rest
  end.

Definition processNewOrders : M unit :=
  orders <- OrderMonitor.fetchPendingOrders E ;;
  processEach orders.

(** The loop of [checkActiveOrders], over the entries present when it
    starts (an entry is only ever deleted while it is being visited). *)
Fixpoint checkEach (currentTime : Z) (entries : list (string * Order.t))
  : M unit :=
  match entries with
  | [] => ret tt
  | (orderHash, order) :: rest =>
      (if Z.ltb (Order.deadline order) currentTime then
         log LWarn "Order expired, cleaning up" [Js.slice10 orderHash] ;;;
         handleFailedSwap order (Js.Error "Order expired") ;;;
         modify (set_activeOrders (fun m => JsMap.delete m orderHash))
       else ret tt) ;;;
      checkEach currentTime rest
  end.

Definition checkActiveOrders : M unit :=
  currentTime <- dateNow ;;
  entries <- gets activeOrders ;;
  checkEach currentTime entries.

End WithEnv.

(** What [getStatus] returns. *)
Module Status.
Record t := mk {
  isRunning : bool;
  processedOrdersCount : nat;
  activeOrdersCount : nat;
  activeOrders : list string
}.
End Status.

(** The field of the resolver object that [World] does not hold. *)
Record t := mk { isRunning : bool }.

Definition getStatus (this : t) : M Status.t :=
  gets (fun w =>
          Status.mk (isRunning this)
                    (size (processedOrders w))
                    (JsMap.size (activeOrders w))
                    (map Js.slice10 (JsMap.keys (activeOrders w)))).

(** [shutdown] waits for at most thirty seconds, one second at a time. *)
Definition shutdownTimeout : Z := 30000.
Definition shutdownDelay : Z := 1000.
Definition shutdownFuel : nat := 30.

Section Lifecycle.
Variable E : Env.

(** [startMonitoring]; the callbacks it hands to [setInterval] are
    [processTick] (every 2000 ms) and [checkTick] (every 5000 ms). *)
Definition startMonitoring (this : t) : M t :=
  if isRunning this then
    log LWarn "Resolver already running" [] ;;;
    ret this
  else
    log LInfo "Starting order monitoring" [] ;;;
    ret (mk true).

Definition processTick (this : t) : M unit :=
  if negb (isRunning this) then ret tt
  else try_catch (processNewOrders E)
                 (fun _ => log LError "Error processing orders" []).

Definition checkTick (this : t) : M unit :=
  if negb (isRunning this) then ret tt
  else try_catch (checkActiveOrders E)
                 (fun _ => log LError "Error checking active orders" []).

(** The [while] loop of [shutdown]: the guard is read first, one unit
    of fuel pays for one turn of the body. *)
Fixpoint waitActive (fuel : nat) (startTime : Z) : M unit :=
  size <- gets (fun w => JsMap.size (activeOrders w)) ;;
  now <- dateNow ;;
  if Nat.ltb 0 size && Z.ltb (now - startTime) shutdownTimeout then
    match fuel with
    | O => diverge
    | S fuel' =>
        log LInfo "Waiting for active orders to complete" [] ;;;
        sleep E shutdownDelay ;;;
        waitActive fuel' startTime
    end
  else ret tt.

(** The [for (const [orderHash, order] of this.activeOrders)] loop of
    [shutdown]; nothing in it changes the map. *)
Fixpoint cleanEach (entries : list (string * Order.t)) : M unit :=
  match entries with
  | [] => ret tt
  | (orderHash, order) :: rest =>
      log LWarn "Force cleaning up order" [Js.slice10 orderHash] ;;;
      handleFailedSwap E order (Js.Error "Resolver shutdown") ;;;
      cleanEach rest
  end.

Definition shutdown (this : t) : M t :=
  log LInfo "Shutting down resolver" [] ;;;
  let this := mk false in
  startTime <- dateNow ;;
  waitActive shutdownFuel startTime ;;;
  entries <- gets activeOrders ;;
  cleanEach entries ;;;
  log LInfo "Resolver shutdown complete" [] ;;;
  ret this.

End Lifecycle.
End CrossChainResolver.

(* ===================================================================== *)
(** ** The relayer-side [Resolver] and its [OrderMonitorService] *)
(* ===================================================================== *)

(** An [ethers.Contract] as the sources build and call it: the
    functions and events of its ABI, and whether it was given a runner
    (a signer or a provider) when it was built. *)
Module Contract.

Record t := mk {
  functions : list (string * nat);   (* name, number of inputs *)
  events : list string;
  runner : bool
}.

(** [await contract.name(...args)] for a state-changing function, the
    last argument not being an overrides object.  ethers looks for the
    fragment of that name that takes as many inputs as there are
    arguments, and then needs a runner that can send: the call rejects
    before anything is sent when either is missing. *)
Definition send {A} (c : t) (name : string) (nargs : nat) (request : M A)
  : M A :=
  if existsb (fun f => String.eqb (fst f) name && Nat.eqb (snd f) nargs)
             (functions c)
  then if runner c then request
       else throw (Js.Error "contract runner does not support sending transactions")
  else throw (Js.Error "no matching fragment").

(** [contract.on(event, listener)], not awaited: the subscription is
    made when the ABI has the event and the runner can subscribe; the
    promise rejects otherwise, and nobody sees it. *)
Definition on (c : t) (eventName : string) (subscribe : M unit) : M unit :=
  if existsb (String.eqb eventName) (events c) && runner c
  then subscribe else ret tt.

End Contract.

Module Resolver.

(** [RESOLVER_ABI] *)
Definition RESOLVER_ABI : list (string * nat) :=
  [("deploySrc", 7%nat); ("deployDst", 2%nat); ("withdraw", 3%nat);
   ("cancel", 2%nat); ("arbitraryCalls", 2%nat)].

(** [new ethers.Contract(process.env.RESOLVER_CONTRACT_ADDRESS!,
    RESOLVER_ABI)]: no runner is passed. *)
Definition evmResolverContract : Contract.t :=
  Contract.mk RESOLVER_ABI [] false.

(** [ESCROW_FACTORY_ABI]: functions only, no event. *)
Definition ESCROW_FACTORY_ABI : list (string * nat) :=
  [("ESCROW_DST_IMPLEMENTATION", 0%nat); ("ESCROW_SRC_IMPLEMENTATION", 0%nat);
   ("FEE_BANK", 0%nat); ("addressOfEscrowDst", 1%nat);
   ("addressOfEscrowSrc", 1%nat); ("availableCredit", 1%nat);
   ("createDstEscrow", 2%nat); ("decreaseAvailableCredit", 2%nat);
   ("getMakingAmount", 7%nat); ("getTakingAmount", 7%nat);
   ("increaseAvailableCredit", 2%nat); ("lastValidated", 1%nat);
   ("postInteraction", 8%nat); ("preInteraction", 8%nat);
   ("takerInteraction", 8%nat)].

(** [new ethers.Contract(process.env.FACTORY_CONTRACT_ADDRESS!,
    ESCROW_FACTORY_ABI)]: no runner either. *)
Definition evmFactoryContract : Contract.t :=
  Contract.mk ESCROW_FACTORY_ABI [] false.

(** [cancelSwapOnSource] and [cancelSwapOnDestination] have empty
    bodies: calling them has no effect and cannot throw. *)
Definition cancelSwapOnSource : M unit := ret tt.
Definition cancelSwapOnDestination : M unit := ret tt.

Definition addSwapOrder (swap : Swap.t) : M unit :=
  let hashlock := Immutables.hashlock (Swap.immutables swap) in
  modify (set_activeSwaps (fun m => JsMap.set m hashlock swap)) ;;;
  log LInfo "Added swap to tracking" [hashlock].

Definition removeSwapFromTracking (hashlock : string) : M unit :=
  modify (set_activeSwaps (fun m => JsMap.delete m hashlock)) ;;;
  log LInfo "Removed swap from tracking" [hashlock].

(** One turn of the loop of [checkAndHandleTimeout]. *)
Definition checkSwap (now : Z) (hashlock : string) (swap : Swap.t) : M unit :=
  let timelocks := Immutables.timelocks (Swap.immutables swap) in
  (if Z.ltb (TimeLocks.srcCancellation timelocks) now then
     try_catch
       (cancelSwapOnSource ;;;
        removeSwapFromTracking hashlock ;;;
        log LInfo "Cancelled source chain swap" [hashlock])
       (fun _ => log LError "Failed to cancel source chain swap" [])
   else ret tt) ;;;
  (if Z.ltb (TimeLocks.dstCancellation timelocks) now then
     try_catch
       (cancelSwapOnDestination ;;;
        removeSwapFromTracking hashlock ;;;
        log LInfo "Cancelled destination chain swap" [hashlock])
       (fun _ => log LError "Failed to cancel destination chain swap" [])
   else ret tt).

(** The [for (const [hashlock, swap] of this.activeSwaps)] loop, over
    the entries present when it starts: a turn deletes at most the entry
    it is visiting, so no later entry is skipped. *)
Fixpoint checkEach (now : Z) (entries : list (string * Swap.t)) : M unit :=
  match entries with
  | [] => ret tt
  | (hashlock, swap) :: rest =>
      checkSwap now hashlock swap ;;;
      checkEach now rest
  end.

Definition checkAndHandleTimeout : M unit :=
  ms <- dateNow ;;
  let now := ms / 1000 in
  log LInfo "Checking active swaps for timeouts" [] ;;;
  entries <- gets activeSwaps ;;
  checkEach now entries.

Section WithEnv.
Variable E : Env.

(** [deploySrc] is called with six values: [orderArgs.takerTraits] is
    not among them. *)
Definition createSrcEscrow (orderArgs : FillOrderArgs.t) : M unit :=
  tx <- Contract.send evmResolverContract "deploySrc" 6
          (call E (DeploySrc orderArgs)) ;;
  log LInfo "Sepolia transaction sent" [tx] ;;;
  call E (TxWaitReceipt tx) ;;;
  log LInfo "Order executed successfully on Sepolia" [tx].

Definition processOrders (orderArgs : FillOrderArgs.t) (chainId : ChainId)
  : M unit :=
  createSrcEscrow orderArgs ;;;
  (* the listener registration is not awaited *)
  Contract.on evmFactoryContract "SrcEscrowCreated"
              (fire E (FactoryOn "SrcEscrowCreated")) ;;;
  createdAt <- dateNow ;;
  let swap :=
    Swap.mk (FillOrderArgs.immutables orderArgs) "" "" chainId SwActive
            createdAt None in
  addSwapOrder swap.

End WithEnv.
End Resolver.

Module OrderMonitorService.

Definition DEFAULT_POLL_INTERVAL : Z := 60 * 1000.

(** [resolver] tells whether the constructor was given a resolver
    instance ([false] for [undefined]; the instance's own fields live in
    [World]).  [pollInterval] holds the time at which the running
    interval timer was registered, [None] for [null]. *)
Record t := mk {
  resolver : bool;
  pollInterval : option Z;
  pollIntervalMs : Z
}.

Definition constructor (resolverInstance : bool) (pollIntervalMs : option Z) : t :=
  mk resolverInstance None (default DEFAULT_POLL_INTERVAL pollIntervalMs).

Definition start (service : t) : M t :=
  match pollInterval service with
  | Some _ =>
      log LWarn "Order monitor is already running." [] ;;;
      ret service
  | None =>
      now <- dateNow ;;
      ret (mk (resolver service) (Some now) (pollIntervalMs service))
  end.

(** The callback handed to [setInterval]:
    [await this.resolver.checkAndHandleTimeout()]. *)
Definition tick (service : t) : M unit :=
  if resolver service then Resolver.checkAndHandleTimeout
  else throw (Js.Error
    "Cannot read properties of undefined (reading 'checkAndHandleTimeout')").

(** [setInterval(f, ms)] registered at time [t0] runs [f] for the
    [k]-th time (counting from 0) [(k + 1) * ms] after [t0]. *)
Definition tickTime (service : t) (k : nat) : option Z :=
  match pollInterval service with
  | Some t0 => Some (t0 + (Z.of_nat k + 1) * pollIntervalMs service)
  | None => None
  end.


Definition stop (service : t) : M t :=
  match pollInterval service with
  | Some _ =>
      log LInfo "Order monitor service stopped." [] ;;;
      ret (mk (resolver service) None (pollIntervalMs service))
  | None => ret service
  end.
End OrderMonitorService.

(** The relayer's [Service], which owns the resolver and the monitor. *)
Module Service.

Record t := mk { orderMonitor : OrderMonitorService.t }.

(** The constructor builds the monitor with [new OrderMonitorService()]:
    no resolver instance is passed, and nothing in the class calls
    [start] on it. *)
Definition constructor : t :=
  mk (OrderMonitorService.constructor false None).

End Service.

(* ===================================================================== *)
(** ** The HTTP routes ([routes/index.ts]) *)
(* ===================================================================== *)

Module Routes.

(** The answer of [POST /api/orders]: the status code (200 unless
    [res.status] sets it) and the JSON body. *)
Module SubmissionResponse.
Record t := mk {
  code : Z;
  success : bool;
  message : string;
  orderHash : option string;
  estimatedFillTime : option string
}.
End SubmissionResponse.

Module Progress.
Record t := mk { step : string; completed : bool; timestamp : Z }.
End Progress.

Module TransactionHashes.
Record t := mk {
  sourceEscrow : string;
  destinationEscrow : string;
  claim : string
}.
End TransactionHashes.

(** The answer of [GET /api/orders/:orderHash]. *)
Module OrderStatusResponse.
Record t := mk {
  code : Z;
  orderHash : string;
  status : string;
  progress : list Progress.t;
  estimatedCompletion : option Z;
  transactionHashes : option TransactionHashes.t;
  message : option string
}.
End OrderStatusResponse.

(** [order.orderHash?.slice(0, 10) || 'unknown'] *)
Definition shownHash (orderHash : option string) : string :=
  match orderHash with
  | Some h => if Js.truthy_string (Js.slice10 h) then Js.slice10 h else "unknown"
  | None => "unknown"
  end.

Definition getOrder (resolver : CrossChainResolver.t) (orderHash : string)
  : M OrderStatusResponse.t :=
  try_catch
    (log LInfo "Status request for order" [Js.slice10 orderHash] ;;;
     resolverStatus <- CrossChainResolver.getStatus resolver ;;
     let isActive :=
       existsb (fun hash => String.eqb hash (Js.slice10 orderHash))
               (CrossChainResolver.Status.activeOrders resolverStatus) in
     now <- dateNow ;;
     if isActive then
       ret (OrderStatusResponse.mk 200 orderHash "executing"
              [Progress.mk "Order received" true (now - 60000);
               Progress.mk "Profitability analysis" true (now - 45000);
               Progress.mk "Source escrow lock" true (now - 30000);
               Progress.mk "Destination escrow lock" false 0;
               Progress.mk "Secret reveal and claim" false 0]
              (Some (now + 120000)) None None)
     else
       ret (OrderStatusResponse.mk 200 orderHash "completed"
              [Progress.mk "Order received" true (now - 300000);
               Progress.mk "Profitability analysis" true (now - 280000);
               Progress.mk "Source escrow lock" true (now - 240000);
               Progress.mk "Destination escrow lock" true (now - 180000);
               Progress.mk "Secret reveal and claim" true (now - 120000)]
              None
              (Some (TransactionHashes.mk "0x1234...5678" "cosmos123...789"
                                          "0xabcd...efgh"))
              None))
    (fun _ =>
       log LError "Status request error" [] ;;;
       ret (OrderStatusResponse.mk 500 orderHash "error" [] None None
              (Some "Could not retrieve order status"))).

Section WithEnv.
Variable E : Env.

Definition postOrders (order : Submission.t) : M SubmissionResponse.t :=
  try_catch
    (log LInfo "Order submission request"
         [shownHash (Submission.orderHash order)] ;;;
     if negb (OrderMonitor.truthy_opt_string (Submission.orderHash order))
        || negb (OrderMonitor.truthy_opt_string (Submission.maker order))
        || negb (OrderMonitor.truthy_opt_string (Submission.srcAmount order))
        || negb (OrderMonitor.truthy_opt_string (Submission.dstAmount order))
     then
       ret (SubmissionResponse.mk 400 false "Missing required order fields"
                                  None None)
     else
       result <- OrderMonitor.submitOrder E order ;;
       if SubmitResult.success result then
         match Submission.orderHash order with
         | Some orderHash =>
             log LInfo "Order accepted" [Js.slice10 orderHash] ;;;
             ret (SubmissionResponse.mk 200 true (SubmitResult.message result)
                                        (Some orderHash) (Some "2-5 minutes"))
         | None =>
             throw (Js.Error "Cannot read properties of undefined (reading 'slice')")
         end
       else
         log LWarn "Order rejected" [SubmitResult.message result] ;;;
         ret (SubmissionResponse.mk 400 (SubmitResult.success result)
                                    (SubmitResult.message result) None None))
    (fun _ =>
       log LError "Order submission error" [] ;;;
       ret (SubmissionResponse.mk 500 false "Internal resolver error"
                                  None None)).

End WithEnv.
End Routes.


(* ===================================================================== *)
(** ** Reading a trace *)
(* ===================================================================== *)

(** What an entry of the trace means for the life of a swap. *)
Inductive Kind :=
| KNeutral
| KLockSubmitted (type : Side)   (* an escrow lock was submitted *)
| KDstLockFailed                 (* [lockDestinationEscrow] rethrew *)
| KBothConfirmed                 (* the confirmation poll saw both *)
| KClaim (type : Side)           (* a claim was issued *)
| KCancelling                    (* [cancelEscrows] was entered *)
| KRefund (type : Side)          (* a refund was issued *)
| KCompleted.                    (* "Atomic swap completed successfully" *)

#[global] Instance Kind_eq_dec : EqDecision Kind.
Proof. solve_decision. Defined.

Definition kindOfCall {T} (c : Call T) : Outcome T -> Kind :=
  match c in Call T return Outcome T -> Kind with
  | LockFunds type _ _ _ _ _ _ _ =>
      fun o => match o with Returns _ => KLockSubmitted type | Throws _ => KNeutral end
  | SignAndBroadcast type _ _ _ _ =>
      fun o =>
        match o with
        | Returns b => if Z.eqb (Broadcast.code b) 0 then KLockSubmitted type else KNeutral
        | Throws _ => KNeutral
        end
  | ClaimFunds type _ _ => fun _ => KClaim type
  | Refund type _ _ => fun _ => KRefund type
  | _ => fun _ => KNeutral
  end.

Definition kindOfLog (l : LogLevel) (msg : string) (args : list string) : Kind :=
  match l with
  | LInfo =>
      if String.eqb msg "Both escrows confirmed" then KBothConfirmed
      else if String.eqb msg "Atomic swap completed successfully for order" then KCompleted
      else if String.eqb msg "Claimed from Cosmos escrow (simulated)" then
        match args with
        | [s] => if String.eqb s "source" then KClaim Source
                 else if String.eqb s "destination" then KClaim Destination
                 else KNeutral
        | _ => KNeutral
        end
      else KNeutral
  | LWarn =>
      if String.eqb msg "Cancelling escrows for order" then KCancelling else KNeutral
  | LError =>
      if String.eqb msg "Failed to lock destination escrow" then KDstLockFailed
      else KNeutral
  end.

Definition kind (e : Event) : Kind :=
  match e with
  | Ev c o => kindOfCall c o
  | Log l msg args => kindOfLog l msg args
  | Sleep _ => KNeutral
  end.

(** The meaningful entries of a trace, in order. *)
Fixpoint marks (tr : list Event) : list Kind :=
  match tr with
  | [] => []
  | e :: tr' =>
      match kind e with
      | KNeutral => marks tr'
      | k => k :: marks tr'
      end
  end.

(** What [cancelEscrows] leaves in the trace: refunds are issued on EVM
    chains only, and only where an escrow address is configured; a
    missing source address ends the attempt. *)
Definition cancelMarks (E : Env) (order : Order.t) : list Kind :=
  let dstPart :=
    if isString (Order.dstChainId order) then []
    else if Js.truthy_string (EscrowExecutor.addresses E (Order.dstChainId order))
         then [KRefund Destination] else [] in
  KCancelling ::
    (if isString (Order.srcChainId order) then dstPart
     else if Js.truthy_string (EscrowExecutor.addresses E (Order.srcChainId order))
          then KRefund Source :: dstPart else []).

(** The marks a lock attempt leaves, by its result. *)
Definition lockMarks {A} (r : Res A) (type : Side) : list Kind :=
  match r with Ok _ => [KLockSubmitted type] | _ => [] end.

Definition chainOf (order : Order.t) (type : Side) : ChainId :=
  match type with
  | Source => Order.srcChainId order
  | Destination => Order.dstChainId order
  end.

(** What a destination lock attempt leaves: the lock, or the failure. *)
Definition dstLockMarks {A} (r : Res A) : list Kind :=
  match r with
  | Ok _ => [KLockSubmitted Destination]
  | Throw _ => [KDstLockFailed]
  | OutOfFuel => []
  end.

(** What the confirmation poll leaves. *)
Definition confirmMarks {A} (r : Res A) : list Kind :=
  match r with Ok _ => [KBothConfirmed] | _ => [] end.

(** A swap whose source chain is an EVM chain has an escrow address
    configured for it. *)
Definition sourceEscrowKnown (E : Env) (order : Order.t) : Prop :=
  isString (Order.srcChainId order) = false ->
  Js.truthy_string (EscrowExecutor.addresses E (Order.srcChainId order)) = true.

(** The shapes the meaningful part of a swap's trace can take. *)
Inductive swapShape (E : Env) (order : Order.t) : list Kind -> Prop :=
| SourceLockFailed :
    swapShape E order (cancelMarks E order)
| DestinationLockFailed :
    sourceEscrowKnown E order ->
    swapShape E order
      ([KLockSubmitted Source; KDstLockFailed] ++ cancelMarks E order)
| ConfirmationTimedOut :
    sourceEscrowKnown E order ->
    swapShape E order
      ([KLockSubmitted Source; KLockSubmitted Destination] ++ cancelMarks E order)
| ClaimNotIssued :
    sourceEscrowKnown E order ->
    swapShape E order
      ([KLockSubmitted Source; KLockSubmitted Destination; KBothConfirmed]
         ++ cancelMarks E order)
| ClaimFailed :
    sourceEscrowKnown E order ->
    swapShape E order
      ([KLockSubmitted Source; KLockSubmitted Destination; KBothConfirmed;
        KClaim Source] ++ cancelMarks E order)
| SwapCompleted :
    sourceEscrowKnown E order ->
    swapShape E order
      [KLockSubmitted Source; KLockSubmitted Destination; KBothConfirmed;
       KClaim Source; KCompleted].

Definition isClaim (k : Kind) : Prop :=
  match k with KClaim _ => True | _ => False end.

(** A look at a chain's state: the receipt lookup of the provider. *)
Definition queriesReceipt (e : Event) : bool :=
  match e with
  | Ev (GetTransactionReceipt _) _ => true
  | _ => false
  end.

(** The answer of a broadcast, when the entry is one. *)
Definition broadcastOf (e : Event) : option Broadcast.t :=
  match e with
  | Ev c o =>
      match c in Call T return Outcome T -> option Broadcast.t with
      | SignAndBroadcast _ _ _ _ _ =>
          fun o => match o with Returns b => Some b | Throws _ => None end
      | _ => fun _ => None
      end o
  | _ => None
  end.

(** The transaction hash under which an escrow lock of side [type]
    was submitted, when the entry is one: the answer of [lockFunds], or
    the hash of a broadcast accepted with code 0. *)
Definition lockHashOf (type : Side) (e : Event) : option string :=
  match e with
  | Ev c o =>
      match c in Call T return Outcome T -> option string with
      | LockFunds t _ _ _ _ _ _ _ =>
          fun o =>
            match o with
            | Returns h => if bool_decide (t = type) then Some h else None
            | Throws _ => None
            end
      | SignAndBroadcast t _ _ _ _ =>
          fun o =>
            match o with
            | Returns b =>
                if bool_decide (t = type) && Z.eqb (Broadcast.code b) 0
                then Some (Broadcast.transactionHash b) else None
            | Throws _ => None
            end
      | _ => fun _ => None
      end o
  | _ => None
  end.

(** What a source-side check that answers [true] leaves in the trace:
    for an EVM hash the receipt of that very transaction, with status
    1; nothing for any other hash. *)
Definition sourceConfirmation (txHash : string) : list Event :=
  if Js.startsWith txHash "0x"
  then [Ev (GetTransactionReceipt txHash) (Returns (Some 1))]
  else [].

(** The transaction whose receipt an entry asks for. *)
Definition receiptOf (e : Event) : option string :=
  match e with
  | Ev c _ =>
      match c with
      | GetTransactionReceipt txHash => Some txHash
      | _ => None
      end
  | _ => None
  end.

Definition receipts (tr : list Event) : list string := omap receiptOf tr.

(** What a run of [executeAtomicSwap] tells about its two locks. *)
Definition told (tr : list Event) : Prop :=
  (forall txHash,
      txHash ∈ receipts tr ->
      exists lockS, lockS ∈ tr /\ lockHashOf Source lockS = Some txHash) /\
  (KBothConfirmed ∈ marks tr ->
   exists sourceTxHash destTxHash a lockS b lockD c d,
     tr = (a ++ lockS :: b ++ lockD :: c
           ++ sourceConfirmation sourceTxHash
           ++ Log LInfo "Both escrows confirmed" [] :: d)%list /\
     lockHashOf Source lockS = Some sourceTxHash /\
     lockHashOf Destination lockD = Some destTxHash /\
     marks (a ++ lockS :: b ++ lockD :: c
            ++ sourceConfirmation sourceTxHash)
     = [KLockSubmitted Source; KLockSubmitted Destination]).

(* ===================================================================== *)
(** ** Vocabulary of the statements *)
(* ===================================================================== *)

(** [emits m w Q]: running [m] from [w] appends some events [tr] to the
    trace, and the result, [tr] and the final world satisfy [Q]. *)
Definition emits {A} (m : M A) (w : World)
           (Q : Res A -> list Event -> World -> Prop) : Prop :=
  exists tr, trace (m w).2 = (trace w ++ tr)%list /\ Q (m w).1 tr (m w).2.

(** The result a settled request turns into. *)
Definition resOf {T} (o : Outcome T) : Res T :=
  match o with Returns v => Ok v | Throws e => Throw e end.

Module ProfitabilitySpec.
Import ProfitabilityAnalyzer.

(** What the decision of the class's own [analyzeOrder] looks like. *)
Definition decided (E : Env) (order : Order.t) (d : Decision.t) : Prop :=
  exists srcPrice dstPrice,
    let srcAmountUsd :=
      (parseFloat E (Order.srcAmount order) * TokenPrice.priceUsd srcPrice)%float in
    let dstAmountUsd :=
      (parseFloat E (Order.dstAmount order) * TokenPrice.priceUsd dstPrice)%float in
    let liquidity := LiquidityStatus.mk true true 1.2%float 0.1%float in
    Decision.orderHash d = Order.orderHash order /\
    Decision.srcTokenPrice d = Some srcPrice /\
    Decision.dstTokenPrice d = Some dstPrice /\
    Decision.liquidityStatus d = Some liquidity /\
    Decision.expectedProfitUsd d
      = (srcAmountUsd - dstAmountUsd - Decision.estimatedGasCost d)%float /\
    Decision.profitMarginPercent d
      = (Decision.expectedProfitUsd d / srcAmountUsd * 100)%float /\
    Decision.shouldFill d
      = shouldFillOrder (Decision.expectedProfitUsd d)
                        (Decision.profitMarginPercent d) liquidity /\
    Decision.reason d
      = (if Decision.shouldFill d then "Profitable order"
         else getRejectReason E (Decision.expectedProfitUsd d)
                              (Decision.profitMarginPercent d) liquidity).
End ProfitabilitySpec.

Module OrderMonitorSpec.
Import OrderMonitor.

(** "Missing", as [!order[field]] reads it: absent, or present with the
    empty value of its type. *)
Definition noString (v : option string) : Prop := v = None \/ v = Some "".
Definition noInt (v : option Z) : Prop := v = None \/ v = Some 0.
Definition noChain (v : option ChainId) : Prop :=
  v = None \/ v = Some (ChainNum 0) \/ v = Some (ChainStr "").

Definition missingField (o : Submission.t) : Prop :=
  noString (Submission.orderHash o) \/ noString (Submission.maker o) \/
  noChain (Submission.srcChainId o) \/ noChain (Submission.dstChainId o) \/
  noString (Submission.srcToken o) \/ noString (Submission.dstToken o) \/
  noString (Submission.srcAmount o) \/ noString (Submission.dstAmount o) \/
  noInt (Submission.deadline o) \/
  noString (Submission.secretHash o) \/ noString (Submission.signature o).

(** The deadline is not strictly in the future. *)
Definition deadlineNotAhead (o : Submission.t) (now : Z) : Prop :=
  exists d, Submission.deadline o = Some d /\ d <= now.

(** An amount parses to a value [<= 0]. *)
Definition notPositive (E : Env) (a : option string) : Prop :=
  exists s, a = Some s /\ PrimFloat.leb (parseFloat E s) 0 = true.

(** A chain id outside the supported set. *)
Definition unsupported (c : option ChainId) : Prop :=
  ~ exists c', c = Some c' /\ c' ∈ supportedChains.

Definition isLog (e : Event) : Prop := exists l msg args, e = Log l msg args.

(** The verdict of [validateOrder] at time [now], as a boolean. *)
Definition rejected (E : Env) (o : Submission.t) (now : Z) : bool :=
  match List.find (fun field => negb (truthyField o field)) required with
  | Some _ => true
  | None =>
      deadlinePassed (Submission.deadline o) now
      || (PrimFloat.leb (parseAmount E (Submission.srcAmount o)) 0
          || PrimFloat.leb (parseAmount E (Submission.dstAmount o)) 0)
      || (negb (includes (Submission.srcChainId o))
          || negb (includes (Submission.dstChainId o)))
  end.
End OrderMonitorSpec.

Module RegistrySpec.

(** What one turn of the timeout loop guarantees. *)
Definition turned (now : Z) (w : World) (r : Res unit) (tr : list Event)
           (w' : World) : Prop :=
  r = Ok tt /\
  (forall k, JsMap.get (activeSwaps w) k = None ->
             JsMap.get (activeSwaps w') k = None) /\
  (NoDup (JsMap.keys (activeSwaps w)) -> NoDup (JsMap.keys (activeSwaps w'))).

Definition dstTimedOut (now : Z) (swap : Swap.t) : Prop :=
  TimeLocks.dstCancellation (Immutables.timelocks (Swap.immutables swap)) < now.

Definition dstCancelled (hashlock : string) (tr : list Event) (w' : World) : Prop :=
  Log LInfo "Cancelled destination chain swap" [hashlock] ∈ tr /\
  JsMap.get (activeSwaps w') hashlock = None.
End RegistrySpec.

Module TraceSpec.

(** What was asked of the network or of a chain. *)
Definition isRequest (e : Event) : bool :=
  match e with
  | Ev _ _ => true
  | _ => false
  end.

Definition requests (tr : list Event) : list Event := List.filter isRequest tr.

(** What a [lockFunds] request carries. *)
Module LockRequest.
Record t := mk {
  type : Side;
  escrow : string;
  secretHash : string;
  token : string;
  amount : Z;
  timelock : Z;
  recipient : string;
  value : Z
}.
End LockRequest.

Definition lockOf (e : Event) : option LockRequest.t :=
  match e with
  | Ev c _ =>
      match c with
      | LockFunds type escrow secretHash token amount timelock recipient value =>
          Some (LockRequest.mk type escrow secretHash token amount timelock
                               recipient value)
      | _ => None
      end
  | _ => None
  end.

(** [approve] requests: token, spender, amount. *)
Definition approvalOf (e : Event) : option (string * string * Z) :=
  match e with
  | Ev c _ =>
      match c with
      | Approve token spender amount => Some (token, spender, amount)
      | _ => None
      end
  | _ => None
  end.

(** The allowances the token contract answered. *)
Definition allowanceOf (e : Event) : option Z :=
  match e with
  | Ev c o =>
      match c in Call T return Outcome T -> option Z with
      | Allowance _ _ _ =>
          fun o => match o with Returns a => Some a | Throws _ => None end
      | _ => fun _ => None
      end o
  | _ => None
  end.

(** The addresses the signer answered. *)
Definition signerOf (e : Event) : option string :=
  match e with
  | Ev c o =>
      match c in Call T return Outcome T -> option string with
      | GetSignerAddress =>
          fun o => match o with Returns a => Some a | Throws _ => None end
      | _ => fun _ => None
      end o
  | _ => None
  end.

(** [refund] requests: side, escrow address, secret hash. *)
Definition refundOf (e : Event) : option (Side * string * string) :=
  match e with
  | Ev c _ =>
      match c with
      | Refund type escrow secretHash => Some (type, escrow, secretHash)
      | _ => None
      end
  | _ => None
  end.

(** [claimFunds] requests: side, escrow address, secret. *)
Definition claimOf (e : Event) : option (Side * string * string) :=
  match e with
  | Ev c _ =>
      match c with
      | ClaimFunds type escrow secret => Some (type, escrow, secret)
      | _ => None
      end
  | _ => None
  end.

(** Broadcasts to the Cosmos chain: side, sender, denom, amount, memo. *)
Definition cosmosSendOf (e : Event)
  : option (Side * string * string * string * string) :=
  match e with
  | Ev c _ =>
      match c with
      | SignAndBroadcast type from denom amount memo =>
          Some (type, from, denom, amount, memo)
      | _ => None
      end
  | _ => None
  end.

Definition locks (tr : list Event) := omap lockOf tr.
Definition approvals (tr : list Event) := omap approvalOf tr.
Definition allowances (tr : list Event) := omap allowanceOf tr.
Definition signers (tr : list Event) := omap signerOf tr.
Definition refunds (tr : list Event) := omap refundOf tr.
Definition claims (tr : list Event) := omap claimOf tr.
Definition cosmosSends (tr : list Event) := omap cosmosSendOf tr.

(** [deploySrc] requests: the arguments of the fill. *)
Definition deployOf (e : Event) : option FillOrderArgs.t :=
  match e with
  | Ev c _ =>
      match c with
      | DeploySrc orderArgs => Some orderArgs
      | _ => None
      end
  | _ => None
  end.

(** Listeners registered on the escrow factory: the event name. *)
Definition listenerOf (e : Event) : option string :=
  match e with
  | Ev c _ =>
      match c with
      | FactoryOn eventName => Some eventName
      | _ => None
      end
  | _ => None
  end.

Definition deploys (tr : list Event) : list FillOrderArgs.t := omap deployOf tr.
Definition listeners (tr : list Event) : list string := omap listenerOf tr.

(** The refunds [cancelEscrows] asks for: one per EVM leg with a
    configured escrow address, source first; a source leg without an
    address ends the attempt. *)
Definition expectedRefunds (E : Env) (order : Order.t)
  : list (Side * string * string) :=
  let dstPart :=
    if isString (Order.dstChainId order) then []
    else if Js.truthy_string (EscrowExecutor.addresses E (Order.dstChainId order))
         then [(Destination, EscrowExecutor.addresses E (Order.dstChainId order),
                Order.secretHash order)]
         else [] in
  if isString (Order.srcChainId order) then dstPart
  else if Js.truthy_string (EscrowExecutor.addresses E (Order.srcChainId order))
       then (Source, EscrowExecutor.addresses E (Order.srcChainId order),
             Order.secretHash order) :: dstPart
       else [].


(** A request that sends a transaction moving or releasing funds. *)
Definition sendsTransaction (e : Event) : bool :=
  match e with
  | Ev c _ =>
      match c with
      | Approve _ _ _ | LockFunds _ _ _ _ _ _ _ _ | ClaimFunds _ _ _
      | Refund _ _ _ | SignAndBroadcast _ _ _ _ _ | DeploySrc _ => true
      | _ => false
      end
  | _ => false
  end.

Definition transactions (tr : list Event) : list Event :=
  List.filter sendsTransaction tr.

Definition isSleep (e : Event) : bool :=
  match e with
  | Sleep _ => true
  | _ => false
  end.

End TraceSpec.

Module FrameSpec.

(** [keeps f m]: running [m] leaves the part [f] of the world as it
    found it. *)
Definition keeps {X A} (f : World -> X) (m : M A) : Prop :=
  forall w, f (m w).2 = f w.

(** A part of the world that is neither the trace nor the clock. *)
Definition quiet {X} (f : World -> X) : Prop :=
  (forall g w, f (set_trace g w) = f w) /\
  (forall g w, f (set_clock g w) = f w).


(** The state of the long-lived objects: everything in the world but
    the trace and the clock. *)
Definition resolverState (w : World) :=
  (priceCache w, gasCache w, lastCheckedTimestamp w, processedOrders w,
   activeOrders w, activeSwaps w).

(** The same, without the two caches of the analyzer. *)
Definition bookkeeping (w : World) :=
  (lastCheckedTimestamp w, processedOrders w, activeOrders w, activeSwaps w).

End FrameSpec.

Module ExpirySpec.

(** A map without the entries under the given keys. *)
Definition without {V} (ks : list string) (m : list (string * V))
  : list (string * V) :=
  List.filter (fun e => negb (existsb (String.eqb (fst e)) ks)) m.

(** An active order whose deadline is before [now] (milliseconds). *)
Definition expired (now : Z) (e : string * Order.t) : bool :=
  Z.ltb (Order.deadline (snd e)) now.

(** A tracked swap one of whose cancellation times is before [now]
    (seconds). *)
Definition timedOut (now : Z) (e : string * Swap.t) : bool :=
  let timelocks := Immutables.timelocks (Swap.immutables (snd e)) in
  Z.ltb (TimeLocks.srcCancellation timelocks) now
  || Z.ltb (TimeLocks.dstCancellation timelocks) now.

End ExpirySpec.

Module ConfirmationSpec.
Import TraceSpec.

(** What [lockCosmosEscrow] asks, and what it makes of the answers. *)
Definition cosmosLockOutcome (E : Env) (order : Order.t) (type : Side)
           (r : Res TransactionResult.t) (tr : list Event) : Prop :=
  let amount :=
    match type with Source => Order.srcAmount order | Destination => Order.dstAmount order end in
  let denom :=
    match type with Source => Order.srcToken order | Destination => Order.dstToken order end in
  let memo := "Escrow lock for order " ++ Js.slice10 (Order.orderHash order) in
  exists accounts rest,
    requests tr = Ev CosmosGetAccounts accounts :: rest /\
    match accounts with
    | Returns (resolverAddress :: _) =>
        match parseUnits E amount 6 with
        | Some units =>
            exists answer,
              rest = [Ev (SignAndBroadcast type resolverAddress denom
                                           (pretty units) memo) answer] /\
              match answer with
              | Returns b =>
                  if Z.eqb (Broadcast.code b) 0
                  then r = Ok (TransactionResult.mk
                                 (Broadcast.transactionHash b) "cosmoshub-4"
                                 (Broadcast.height b)
                                 (pretty (Broadcast.gasUsed b)) TxConfirmed)
                  else r = Throw (Js.Error ("Cosmos transaction failed: "
                                              ++ Broadcast.rawLog b))
              | Throws e => r = Throw e
              end
        | None => rest = [] /\ exists e, r = Throw e
        end
    | Returns [] => rest = [] /\ exists e, r = Throw e
    | Throws e => rest = [] /\ r = Throw e
    end.

End ConfirmationSpec.

(* ===================================================================== *)
(** ** Concrete orders and environments *)
(* ===================================================================== *)

Module Scenario.

Definition WETH : string := "0xC02aaA39b223FE8D0A0e5C4F27eAD9083C756Cc2".

(** An order of 1.0 WETH on chain 1 for 25.5 ATOM on cosmoshub-4. *)
Definition order (deadline : Z) : Order.t :=
  Order.mk "0xabcdef0123456789" "0xMaker" (ChainNum 1) (ChainStr "cosmoshub-4")
           WETH "uatom" "1.0" "25.5" deadline "0xhash" "0xsig"
           None None None None StPending "0" None.

(** Price feed: WETH at [srcUsd], ATOM at [dstUsd / 25.5]. *)
Definition quotes (srcUsd dstUsd : float)
  : list Event -> forall T, Call T -> Outcome T * N :=
  fun h T c =>
    match c in Call T return Outcome T * N with
    | AxiosGetPrice coinId =>
        if String.eqb coinId "ethereum" then (Returns (Some srcUsd), 40%N)
        else if String.eqb coinId "cosmos"
             then (Returns (Some (dstUsd / 25.5)%float), 40%N)
             else (Throws (Js.Error "Request failed with status code 404"), 40%N)
    | c' => Platform.calm 40 h _ c'
    end.

Definition now0 : Z := 1700000000000.

(** The scenario of the profitability gate: both legs worth $2500,
    deadline one hour ahead, empty caches. *)
Definition evenEnv : Env := Platform.env (quotes 2500 2500).
Definition evenOrder : Order.t := order (now0 + 3600000).

(** An order whose source amount is not a number. *)
Definition garbledOrder : Order.t :=
  Order.mk "0xabcdef0123456789" "0xMaker" (ChainNum 1) (ChainStr "cosmoshub-4")
           WETH "uatom" "abc" "25.5" (now0 + 3600000) "0xhash" "0xsig"
           None None None None StPending "0" None.

(** An analyzer whose price lookup rejects. *)
Definition offline : ProfitabilityAnalyzer.Methods :=
  ProfitabilityAnalyzer.mkMethods
    (fun _ _ => throw (Js.Error "network down"))
    ProfitabilityAnalyzer.estimateGasCosts
    ProfitabilityAnalyzer.checkLiquidityAvailability.

(** Timelocks, in seconds after [T]: the destination side can be
    cancelled an hour before the source side ... *)
Definition safeTimeLocks (T : Z) : TimeLocks.t :=
  TimeLocks.mk (T + 1800) (T + 3600) (T + 7200) (T + 9000)
               (T + 600) (T + 1800) (T + 3600).

(** ... and the other way round. *)
Definition unsafeTimeLocks (T : Z) : TimeLocks.t :=
  TimeLocks.mk (T + 600) (T + 1800) (T + 3600) (T + 5400)
               (T + 600) (T + 1800) (T + 7200).

(** A well-formed submission of the order above. *)
Definition submission (tl : option TimeLocks.t) : Submission.t :=
  Submission.mk (Some "0xabcdef0123456789") (Some "0xMaker")
                (Some (ChainNum 1)) (Some (ChainStr "cosmoshub-4"))
                (Some WETH) (Some "uatom") (Some "1.0") (Some "25.5")
                (Some (now0 + 3600000)) (Some "0xhash") (Some "0xsig") tl.


(** An order of 1.0 WETH on Sepolia for 25.5 ATOM. *)
Definition sepoliaOrder : Order.t :=
  Order.mk "0xabcdef0123456789" "0xMaker" (ChainNum 11155111) (ChainStr "cosmoshub-4")
           "0x7b79995e5f793a07bc00c21412e50ecae098e7f9" "uatom" "1.0" "25.5"
           (now0 + 3600000) "0xhash" "0xsig"
           None None None None StPending "0" None.

Definition goAhead (order : Order.t) : Decision.t :=
  Decision.mk (Order.orderHash order) true "Profitable order"
              94.5%float 3.78%float 3.5%float None None None (Some "axelar")
              12 now0.

Definition calmEnv : Env := Platform.env (Platform.calm 40).

(** The Cosmos chain rejects the broadcast. *)
Definition cosmosRejects : list Event -> forall T, Call T -> Outcome T * N :=
  fun h T c =>
    match c in Call T return Outcome T * N with
    | SignAndBroadcast _ _ _ _ _ =>
        (Returns (Broadcast.mk 5 "insufficient funds" "COSMOSTX" 100 90000), 40%N)
    | c' => Platform.calm 40 h _ c'
    end.

(** Seconds since the epoch at [now0]. *)
Definition T0 : Z := 1700000000.

Definition immutables (tl : TimeLocks.t) : Immutables.t :=
  Immutables.mk "0xabcdef0123456789" "0xlock" "0xMaker" "0xResolver"
                WETH "1000000000000000000" "1000" tl.

Definition orderArgs (tl : TimeLocks.t) : FillOrderArgs.t :=
  FillOrderArgs.mk "0xsalt" (immutables tl) "0xr" "0xvs"
                   "1000000000000000000" "0" "0x".

Definition swap : Swap.t :=
  Swap.mk (immutables (safeTimeLocks T0)) "" "" (ChainNum 11155111)
          SwActive now0 None.

(** A registry tracking [swap], at wall-clock time [now]. *)
Definition tracking (now : Z) : World :=
  set_activeSwaps (fun _ => [("0xlock", swap)]) (emptyWorld now).

(** A monitor service started at [now0] with the default
    interval. *)
Definition service : OrderMonitorService.t :=
  OrderMonitorService.mk true (Some now0)
                         OrderMonitorService.DEFAULT_POLL_INTERVAL.


(** An order of 1.0 WETH on Sepolia for 100 OSMO on Osmosis. *)
Definition osmosisOrder : Order.t :=
  Order.mk "0xabcdef0123456789" "0xMaker" (ChainNum 11155111) (ChainStr "osmosis-1")
           "0x7b79995e5f793a07bc00c21412e50ecae098e7f9" "uosmo" "1.0" "100"
           (now0 + 3600000) "0xhash" "0xsig"
           None None None None StPending "0" None.

(** [sepoliaOrder] under another hash and with another deadline. *)
Definition activeOrder (orderHash : string) (deadline : Z) : Order.t :=
  Order.mk orderHash "0xMaker" (ChainNum 11155111) (ChainStr "cosmoshub-4")
           "0x7b79995e5f793a07bc00c21412e50ecae098e7f9" "uatom" "1.0" "25.5"
           deadline "0xhash" "0xsig"
           None None None None StPending "0" None.

(** A registry at [now0 + 4020000] -- twenty seconds past the
    destination cancellation of [swap] -- tracking [swap] and, under
    another hashlock, a swap whose cancellation times lie a day
    later. *)
Definition laterSwap : Swap.t :=
  Swap.mk (Immutables.mk "0xfedcba9876543210" "0xlater" "0xMaker" "0xResolver"
                         WETH "1000000000000000000" "1000"
                         (safeTimeLocks (T0 + 86400)))
          "" "" (ChainNum 11155111) SwActive now0 None.

Definition twoTracked : World :=
  set_activeSwaps (fun _ => [("0xlock", swap); ("0xlater", laterSwap)])
                  (emptyWorld (now0 + 4020000)).

(** Both locks are accepted under different hashes; the source lock is
    mined, the destination lock reverts: its receipt, were it asked
    for, has status 0. *)
Definition destinationReverts
  : list Event -> forall T, Call T -> Outcome T * N :=
  fun h T c =>
    match c in Call T return Outcome T * N with
    | LockFunds Source _ _ _ _ _ _ _ => (Returns "0xsourcelock", 40%N)
    | LockFunds Destination _ _ _ _ _ _ _ => (Returns "0xdestlock", 40%N)
    | GetTransactionReceipt txHash =>
        (Returns (Some (if String.eqb txHash "0xdestlock" then 0 else 1)), 40%N)
    | c' => Platform.calm 40 h _ c'
    end.

(** An order of 1.0 WETH on Sepolia for 1.0 WETH on Sepolia. *)
Definition sepoliaToSepolia : Order.t :=
  Order.mk "0xabcdef0123456789" "0xMaker" (ChainNum 11155111) (ChainNum 11155111)
           "0x7b79995e5f793a07bc00c21412e50ecae098e7f9"
           "0x7b79995e5f793a07bc00c21412e50ecae098e7f9" "1.0" "1.0"
           (now0 + 3600000) "0xhash" "0xsig"
           None None None None StPending "0" None.



(** A resolver at [now0] with two active orders: one whose deadline
    passed a second ago, one with an hour to go. *)
Definition twoActive : World :=
  set_activeOrders
    (fun _ => [("0xlate000000000000", activeOrder "0xlate000000000000" (now0 - 1000));
               ("0xlive000000000000", activeOrder "0xlive000000000000" (now0 + 3600000))])
    (emptyWorld now0).

End Scenario.


(* ===================================================================== *)
(** * Properties *)
(* ===================================================================== *)

(** ** A small program logic for [M] *)

Set Warnings "-clear-no-such-hyp".


Section Rules.
Context {A B : Type}.

Lemma emits_mono (m : M A) w (Q Q' : Res A -> list Event -> World -> Prop) :
  emits m w Q -> (forall r tr w', Q r tr w' -> Q' r tr w') -> emits m w Q'.
Proof. intros (tr & Ht & HQ) Himp. exists tr. auto. Qed.

Lemma emits_ret (a : A) w (Q : Res A -> list Event -> World -> Prop) :
  Q (Ok a) [] w -> emits (ret a) w Q.
Proof. exists []. by rewrite app_nil_r. Qed.

Lemma emits_throw e w (Q : Res A -> list Event -> World -> Prop) :
  Q (Throw e) [] w -> emits (throw e) w Q.
Proof. exists []. by rewrite app_nil_r. Qed.

Lemma emits_diverge w (Q : Res A -> list Event -> World -> Prop) :
  Q OutOfFuel [] w -> emits diverge w Q.
Proof. exists []. by rewrite app_nil_r. Qed.

Lemma emits_gets (f : World -> A) w (Q : Res A -> list Event -> World -> Prop) :
  Q (Ok (f w)) [] w -> emits (gets f) w Q.
Proof. exists []. by rewrite app_nil_r. Qed.

Lemma emits_bind (m : M A) (k : A -> M B) w
      (Q : Res B -> list Event -> World -> Prop) :
  emits m w (fun r tr1 w1 =>
               match r with
               | Ok a => emits (k a) w1 (fun r2 tr2 w2 => Q r2 (tr1 ++ tr2)%list w2)
               | Throw e => Q (Throw e) tr1 w1
               | OutOfFuel => Q OutOfFuel tr1 w1
               end) ->
  emits (bind m k) w Q.
Proof.
  unfold emits, bind. intros (tr1 & Ht & H).
  destruct (m w) as [[a|e|] w1]; cbn in *; eauto.
  destruct H as (tr2 & Ht2 & H). exists (tr1 ++ tr2)%list.
  by rewrite Ht2, Ht, app_assoc.
Qed.

Lemma emits_try_catch (m : M A) (h : Js.exn -> M A) w
      (Q : Res A -> list Event -> World -> Prop) :
  emits m w (fun r tr1 w1 =>
               match r with
               | Throw e => emits (h e) w1 (fun r2 tr2 w2 => Q r2 (tr1 ++ tr2)%list w2)
               | Ok a => Q (Ok a) tr1 w1
               | OutOfFuel => Q OutOfFuel tr1 w1
               end) ->
  emits (try_catch m h) w Q.
Proof.
  unfold emits, try_catch. intros (tr1 & Ht & H).
  destruct (m w) as [[a|e|] w1]; cbn in *; eauto.
  destruct H as (tr2 & Ht2 & H). exists (tr1 ++ tr2)%list.
  by rewrite Ht2, Ht, app_assoc.
Qed.
End Rules.

Lemma emits_modify (f : World -> World) w
      (Q : Res unit -> list Event -> World -> Prop) :
  trace (f w) = trace w -> Q (Ok tt) [] (f w) -> emits (modify f) w Q.
Proof. intros Hf HQ. exists []. cbn. by rewrite app_nil_r. Qed.

Lemma emits_log l msg args w (Q : Res unit -> list Event -> World -> Prop) :
  Q (Ok tt) [Log l msg args]
    (set_trace (fun t => (t ++ [Log l msg args])%list) w) ->
  emits (log l msg args) w Q.
Proof. by exists [Log l msg args]. Qed.

Lemma emits_sleep E ms w (Q : Res unit -> list Event -> World -> Prop) :
  (forall late : N,
      Q (Ok tt) [Sleep ms]
        (set_clock (fun t => t + ms + Z.of_N late)
           (set_trace (fun t => (t ++ [Sleep ms])%list) w))) ->
  emits (sleep E ms) w Q.
Proof. intros H. exists [Sleep ms]. split; [done|]. apply H. Qed.

Lemma emits_fire E {T} (c : Call T) w (Q : Res unit -> list Event -> World -> Prop) :
  (forall o : Outcome T,
      Q (Ok tt) [Ev c o] (set_trace (fun t => (t ++ [Ev c o])%list) w)) ->
  emits (fire E c) w Q.
Proof.
  intros H. unfold emits, fire.
  destruct (respond E (trace w) T c) as [o dt]. exists [Ev c o].
  split; [done|]. apply H.
Qed.

Lemma emits_call E {T} (c : Call T) w (Q : Res T -> list Event -> World -> Prop) :
  (forall (o : Outcome T) (dt : N),
      Q (resOf o) [Ev c o]
        (set_clock (fun t => t + Z.of_N dt)
           (set_trace (fun t => (t ++ [Ev c o])%list) w))) ->
  emits (call E c) w Q.
Proof.
  intros H. unfold emits, call.
  destruct (respond E (trace w) T c) as [o dt].
  exists [Ev c o]. specialize (H o dt).
  by destruct o.
Qed.

Lemma emits_promiseAll2 {A B} (a : M A) (b : M B) w
      (Q : Res (A * B) -> list Event -> World -> Prop) :
  emits a w (fun ra tr1 w1 =>
    emits b w1 (fun rb tr2 w2 => Q (both ra rb) (tr1 ++ tr2)%list w2)) ->
  emits (promiseAll2 a b) w Q.
Proof.
  unfold emits, promiseAll2. intros (tr1 & Ht1 & tr2 & Ht2 & H).
  destruct (a w) as [ra w1]; cbn in *. destruct (b w1) as [rb w2]; cbn in *.
  exists (tr1 ++ tr2)%list. by rewrite Ht2, Ht1, app_assoc.
Qed.

(** One syntax-directed step of a proof about [emits]. *)
Ltac mstep :=
  lazymatch goal with
  | |- emits (bind _ _) _ _ => apply emits_bind
  | |- emits (promiseAll2 _ _) _ _ => apply emits_promiseAll2
  | |- emits (ret _) _ _ => apply emits_ret
  | |- emits (throw _) _ _ => apply emits_throw
  | |- emits diverge _ _ => apply emits_diverge
  | |- emits (try_catch _ _) _ _ => apply emits_try_catch
  | |- emits (log _ _ _) _ _ => apply emits_log
  | |- emits (gets _) _ _ => apply emits_gets
  | |- emits dateNow _ _ => apply emits_gets
  | |- emits (modify _) _ _ => apply emits_modify; [exact eq_refl|]
  | |- emits (call _ _) _ _ =>
      let o := fresh "o" in
      apply emits_call; intros o ?; destruct o; cbn [resOf]
  | |- emits (sleep _ _) _ _ => apply emits_sleep; intros ?
  | |- emits (fire _ _) _ _ => apply emits_fire; intros ?
  | |- emits (if ?b then _ else _) _ _ => destruct b eqn:?
  | |- emits (match ?x with _ => _ end) _ _ => destruct x eqn:?
  end; cbv beta iota.

Ltac msteps := repeat mstep.


(** Use an already proved specification of the computation at the head. *)
Ltac muse lem :=
  eapply emits_mono; [apply lem | cbv beta; intros ? ? ?].

Module ProfitabilityFacts.
Import ProfitabilityAnalyzer ProfitabilitySpec.

Lemma getTokenPrice_returns E token chain w :
  emits (getTokenPrice E token chain) w (fun r _ _ => exists p, r = Ok p).
Proof.
  unfold getTokenPrice, fetchTokenPrice, fetchCosmosTokenPrice.
  msteps; eauto.
Qed.

Lemma estimateGasCosts_returns order w :
  emits (estimateGasCosts order) w (fun r _ _ => exists g, r = Ok g).
Proof. unfold estimateGasCosts. msteps; eauto. Qed.


Lemma analyzeOrder_decides E order w :
  emits (analyzeOrder E order) w
        (fun r _ _ => exists d, r = Ok d /\ decided E order d).
Proof.
  unfold analyzeOrder, analyzeOrderWith, analyzeOrder_try, analyzeOrder_catch.
  cbn [self this_getTokenPrice this_estimateGasCosts
       this_checkLiquidityAvailability].
  msteps.
  muse getTokenPrice_returns. destruct 1 as (sp & ->).
  muse getTokenPrice_returns. destruct 1 as (dp & ->).
  cbn [both]. msteps.
  muse estimateGasCosts_returns. destruct 1 as (g & ->).
  unfold checkLiquidityAvailability. msteps.
  eexists; split; [reflexivity|]. exists sp, dp. cbn. repeat split.
Qed.
End ProfitabilityFacts.

(* ===================================================================== *)
(** ** The profitability gate *)
(* ===================================================================== *)

Module ProfitabilityTheorems.
Import ProfitabilityAnalyzer ProfitabilitySpec ProfitabilityFacts.

(** The class's own [analyzeOrder] always resolves to a decision of the
    shape [decided]. *)
Lemma analyzeOrder_returns E order w :
  exists d w', analyzeOrder E order w = (Ok d, w') /\ decided E order d.
Proof.
  destruct (analyzeOrder_decides E order w) as (tr & _ & d & Hr & Hd).
  exists d, (analyzeOrder E order w).2. split; [|done].
  destruct (analyzeOrder E order w) as [r w']; cbn in *. by subst.
Qed.

(** C1 (the code at the scenario of the claim).  With both legs worth
    $2500 and gas estimated at $3 (source lock), $0.50 (destination
    lock) and $2 (claim), [analyzeOrder] caches an estimate whose
    [totalGasUsd] is 5.5 but charges only the two locks: it reports an
    estimated gas cost of 3.5 and an expected profit of -3.5, where the
    claim says -5.5.  The order is rejected for insufficient profit. *)
Theorem analyzeOrder_leaves_out_claim_gas :
  exists d w' srcPrice dstPrice g t,
    analyzeOrder Scenario.evenEnv Scenario.evenOrder (emptyWorld Scenario.now0)
      = (Ok d, w') /\
    Decision.srcTokenPrice d = Some srcPrice /\
    Decision.dstTokenPrice d = Some dstPrice /\
    (parseFloat Scenario.evenEnv "1.0" * TokenPrice.priceUsd srcPrice)%float
      = 2500%float /\
    (parseFloat Scenario.evenEnv "25.5" * TokenPrice.priceUsd dstPrice)%float
      = 2500%float /\
    gasCache w' !! "gas-1-cosmoshub-4" = Some (g, t) /\
    GasEstimate.sourceGasUsd g = 3%float /\
    GasEstimate.destinationGasUsd g = 0.5%float /\
    GasEstimate.claimGasUsd g = 2%float /\
    GasEstimate.totalGasUsd g = 5.5%float /\
    Decision.estimatedGasCost d = 3.5%float /\
    Decision.expectedProfitUsd d = (-3.5)%float /\
    Decision.shouldFill d = false /\
    Decision.reason d = "Insufficient profit: $-3.50 < $5".
Proof.
  do 6 eexists. vm_compute. repeat split.
Qed.

(** A second way in which [shouldFillOrder] departs from "profit at
    least $5": a profit that is not a number passes both threshold
    tests, so an order whose amount does not parse is admitted. *)
Example analyzeOrder_fills_garbled_amount :
  exists d w',
    analyzeOrder Scenario.evenEnv Scenario.garbledOrder (emptyWorld Scenario.now0)
      = (Ok d, w') /\
    PrimFloat.is_nan (Decision.expectedProfitUsd d) = true /\
    Decision.shouldFill d = true.
Proof. do 2 eexists. vm_compute. repeat split. Qed.

(** C8.  [checkLiquidityAvailability] resolves to the same status for
    every order and changes nothing; with that status [shouldFillOrder]
    is the conjunction of the two profit-threshold tests; and every
    decision of [analyzeOrder] carries that status, is admitted exactly
    when neither threshold test fails, and is never rejected for lack
    of liquidity. *)
Theorem checkLiquidityAvailability_constant (E : Env) (order : Order.t) (w : World) :
  let always := LiquidityStatus.mk true true 1.2%float 0.1%float in
  checkLiquidityAvailability order w = (Ok always, w) /\
  (forall net margin,
      shouldFillOrder net margin always
      = negb (PrimFloat.ltb net MIN_PROFIT_USD)
        && negb (PrimFloat.ltb margin MIN_PROFIT_MARGIN)) /\
  exists d w',
    analyzeOrder E order w = (Ok d, w') /\
    Decision.liquidityStatus d = Some always /\
    Decision.shouldFill d
      = negb (PrimFloat.ltb (Decision.expectedProfitUsd d) MIN_PROFIT_USD)
        && negb (PrimFloat.ltb (Decision.profitMarginPercent d) MIN_PROFIT_MARGIN) /\
    Decision.reason d <> "Insufficient destination liquidity".
Proof.
  intros always.
  assert (Hfill : forall net margin,
             shouldFillOrder net margin always
             = negb (PrimFloat.ltb net MIN_PROFIT_USD)
               && negb (PrimFloat.ltb margin MIN_PROFIT_MARGIN)).
  { intros net margin. unfold shouldFillOrder; cbn.
    by destruct (PrimFloat.ltb net _), (PrimFloat.ltb margin _). }
  split; [done|]. split; [exact Hfill|].
  destruct (analyzeOrder_returns E order w)
    as (d & w' & Hrun & sp & dp & _ & _ & _ & Hliq & _ & _ & Hsf & Hreason).
  exists d, w'. split; [done|]. split; [done|].
  fold always in Hsf, Hreason. rewrite Hfill in Hsf. split; [done|].
  rewrite Hreason. unfold getRejectReason.
  destruct (Decision.shouldFill d); [done|].
  destruct (PrimFloat.ltb (Decision.expectedProfitUsd d) _); [cbn; discriminate|].
  destruct (PrimFloat.ltb (Decision.profitMarginPercent d) _); [cbn; discriminate|].
  done.
Qed.

(** C9.  Whatever the methods awaited through [this] do, [analyzeOrder]
    never rejects: a throw inside the [try] block is turned into a
    decision with [shouldFill = false] whose reason carries the error's
    message.  With the class's own methods it always resolves to a
    decision. *)
Theorem analyzeOrder_never_throws
        (E : Env) (this : Methods) (order : Order.t) (w : World) :
  (forall e w', analyzeOrderWith E this order w <> (Throw e, w')) /\
  (forall e w1,
      analyzeOrder_try E this order (clock w) w = (Throw e, w1) ->
      exists d w',
        analyzeOrderWith E this order w = (Ok d, w') /\
        Decision.orderHash d = Order.orderHash order /\
        Decision.shouldFill d = false /\
        Decision.reason d = "Analysis error: " ++ Js.messageOr e "Unknown error") /\
  (exists d w', analyzeOrder E order w = (Ok d, w')).
Proof.
  split; [|split].
  - intros e w'. unfold analyzeOrderWith, bind, dateNow, gets, try_catch.
    cbv beta iota.
    by destruct (analyzeOrder_try E this order (clock w) w) as [[d|e'|] w1].
  - intros e w1 Htry.
    unfold analyzeOrderWith, bind, dateNow, gets, try_catch.
    cbv beta iota. rewrite Htry. cbn. eauto 10.
  - destruct (analyzeOrder_returns E order w) as (d & w' & Hrun & _). eauto.
Qed.

(** The catch branch at work: a price lookup that rejects. *)
Example analyzeOrder_offline :
  exists d w',
    analyzeOrderWith Scenario.evenEnv Scenario.offline Scenario.evenOrder
                     (emptyWorld Scenario.now0) = (Ok d, w') /\
    Decision.shouldFill d = false /\
    Decision.reason d = "Analysis error: network down".
Proof. do 2 eexists. vm_compute. repeat split. Qed.

End ProfitabilityTheorems.

(* ===================================================================== *)
(** ** Order intake *)
(* ===================================================================== *)

Module OrderMonitorTheorems.
Import OrderMonitor OrderMonitorSpec.


Lemma truthy_opt_string_false v : truthy_opt_string v = false <-> noString v.
Proof.
  unfold noString, truthy_opt_string, Js.truthy_string.
  destruct v as [[|c s]|]; cbn; naive_solver.
Qed.

Lemma truthy_opt_int_false v : truthy_opt_int v = false <-> noInt v.
Proof.
  unfold noInt, truthy_opt_int, Js.truthy_int.
  destruct v as [z|]; cbn; [destruct (Z.eqb_spec z 0)|]; naive_solver.
Qed.

Lemma truthy_opt_chain_false v : truthy_opt_chain v = false <-> noChain v.
Proof.
  unfold noChain, truthy_opt_chain, Js.truthy_int, Js.truthy_string.
  destruct v as [[z|[|c s]]|]; cbn; [destruct (Z.eqb_spec z 0)|..];
    naive_solver.
Qed.

Lemma find_required o :
  match List.find (fun field => negb (truthyField o field)) required with
  | Some _ => missingField o
  | None => ~ missingField o
  end.
Proof.
  unfold missingField. cbn.
  repeat match goal with
         | |- context [negb ?b] => destruct b eqn:?; cbn
         end;
    rewrite <- ?truthy_opt_string_false, <- ?truthy_opt_int_false,
            <- ?truthy_opt_chain_false;
    intuition congruence.
Qed.


Lemma validateOrder_run E o w :
  exists r, validateOrder E o w = (r, w) /\
            if rejected E o (clock w) then exists e, r = Throw (Js.Error e)
            else r = Ok tt.
Proof.
  unfold validateOrder, rejected.
  destruct (List.find _ required); [cbn; eauto|].
  unfold bind, dateNow, gets, throw, ret; cbn.
  destruct (deadlinePassed _ _); [cbn; eauto|].
  destruct (_ || _) eqn:Ha; [cbn; eauto|].
  destruct (negb _ || _) eqn:Hc; cbn; eauto.
Qed.

Lemma includes_false c : includes c = false <-> unsupported c.
Proof.
  unfold includes, unsupported. destruct c as [c|].
  - rewrite bool_decide_eq_false. split.
    + intros Hn (c' & [= <-] & Hin). done.
    + intros Hn Hin. apply Hn. eauto.
  - split; [|done]. intros _ (c' & [=] & _).
Qed.

Lemma rejected_iff E o now :
  rejected E o now = true <->
  missingField o \/ deadlineNotAhead o now \/
  notPositive E (Submission.srcAmount o) \/
  notPositive E (Submission.dstAmount o) \/
  unsupported (Submission.srcChainId o) \/
  unsupported (Submission.dstChainId o).
Proof.
  unfold rejected. pose proof (find_required o) as Hf.
  destruct (List.find _ required) as [f|]; [tauto|].
  assert (Hs : forall a, noString a \/ exists s, a = Some s).
  { intros [s|]; [right; eauto | left; by left]. }
  assert (Hamt : forall a, ~ noString a ->
             PrimFloat.leb (parseAmount E a) 0 = true <-> notPositive E a).
  { intros a Ha. destruct (Hs a) as [|(s & ->)]; [done|].
    unfold notPositive; cbn. split; [eauto|]. by intros (s' & [= <-] & H). }
  assert (Hdl : deadlinePassed (Submission.deadline o) now = true
                <-> deadlineNotAhead o now).
  { unfold deadlinePassed, deadlineNotAhead.
    destruct (Submission.deadline o) as [d|].
    - rewrite Z.leb_le. split; [eauto|]. by intros (d' & [= <-] & H).
    - split; [done|]. by intros (d' & [=] & _). }
  rewrite !orb_true_iff, !negb_true_iff, !includes_false, Hdl.
  unfold missingField in *.
  rewrite (Hamt (Submission.srcAmount o)), (Hamt (Submission.dstAmount o)) by tauto.
  tauto.
Qed.

Lemma submitOrder_run E o w :
  exists res tr w',
    submitOrder E o w = (Ok res, w') /\
    trace w' = (trace w ++ tr)%list /\ Forall isLog tr /\
    SubmitResult.success res = negb (rejected E o (clock w)).
Proof.
  unfold submitOrder, try_catch, bind.
  destruct (validateOrder_run E o w) as (r & -> & Hr).
  destruct (rejected E o (clock w)) eqn:Hrej.
  - destruct Hr as (e & ->). cbn.
    do 3 eexists. split; [reflexivity|]. cbn. split; [reflexivity|].
    split; [|done]. repeat constructor. unfold isLog; eauto.
  - subst r.
    assert (Hh : exists h, Submission.orderHash o = Some h).
    { pose proof (find_required o) as Hf. unfold rejected in Hrej.
      destruct (List.find _ required); [done|].
      destruct (Submission.orderHash o) as [h|] eqn:Hoh; [eauto|].
      exfalso. apply Hf. left. rewrite Hoh. by left. }
    destruct Hh as (h & ->). cbn.
    do 3 eexists. split; [reflexivity|]. cbn. split; [by rewrite <- !app_assoc|].
    split; [|done]. repeat constructor; unfold isLog; eauto.
Qed.

(** C10.  [submitOrder] always answers, touches nothing but the log
    (no chain action), and answers [success = false] exactly when a
    required field is missing, or the deadline is not strictly ahead of
    [Date.now()], or an amount parses to a value [<= 0], or a chain id
    is outside the supported set. *)
Theorem submitOrder_rejects_exactly (E : Env) (o : Submission.t) (w : World) :
  exists res tr w',
    submitOrder E o w = (Ok res, w') /\
    trace w' = (trace w ++ tr)%list /\ Forall isLog tr /\
    (SubmitResult.success res = false <->
     missingField o \/ deadlineNotAhead o (clock w) \/
     notPositive E (Submission.srcAmount o) \/
     notPositive E (Submission.dstAmount o) \/
     unsupported (Submission.srcChainId o) \/
     unsupported (Submission.dstChainId o)).
Proof.
  destruct (submitOrder_run E o w) as (res & tr & w' & Hrun & Htr & Hlog & Hs).
  exists res, tr, w'. repeat (split; [done|]).
  rewrite Hs, negb_false_iff. apply rejected_iff.
Qed.

End OrderMonitorTheorems.

(* ===================================================================== *)
(** ** Escrow actions *)
(* ===================================================================== *)

Lemma marks_app (a b : list Event) : marks (a ++ b)%list = (marks a ++ marks b)%list.
Proof.
  induction a as [|e a IH]; [done|]. cbn. destruct (kind e); cbn; by rewrite IH.
Qed.

(** Closing a leaf of a proof about [emits]: split the postcondition,
    push [marks] through the appended pieces, use what is known. *)
#[local] Arguments cancelMarks : simpl never.

Ltac leaf_marks :=
  rewrite ?marks_app;
  repeat match goal with
         | H : marks _ = _ |- _ => rewrite H; clear H
         end;
  cbn; rewrite ?app_nil_r.

Ltac leaf_use :=
  repeat match goal with
         | H : negb _ = true |- _ => apply negb_true_iff in H
         | H : negb _ = false |- _ => apply negb_false_iff in H
         | H : forall u, Ok ?a = Ok u -> _ |- _ => specialize (H _ eq_refl)
         | H : _ \/ _ |- _ => destruct H
         end.

Ltac leaf1 :=
  try done; try (intros; done); try (intros ? [= <-]; done);
  try (leaf_marks; done);
  try (leaf_marks;
       repeat match goal with
              | H : _ = _ |- _ => rewrite H
              end; done);
  try (cbn in *; lia);
  try (cbn in *; eauto; fail).

Ltac leaf :=
  leaf_use;
  repeat match goal with
         | |- _ /\ _ => split
         end;
  leaf1;
  try (left; leaf1; fail); try (right; leaf1; fail);
  try (intros ? _; leaf1; fail).

(** Apply the specification of the function at the head, if one is known;
    extended as specifications are proved. *)
Ltac mspec := fail.

Ltac mgo :=
  repeat (msteps;
          try (mspec;
               cbv beta iota;
               try lazymatch goal with
                   | |- match ?r with _ => _ end => is_var r; destruct r
                   end;
               cbv beta iota;
               try done)).

Module EscrowFacts.
Import EscrowExecutor.


Lemma parseUnitsM_spec E amount decimals w :
  emits (parseUnitsM E amount decimals) w
        (fun r tr w' => r <> OutOfFuel /\ tr = [] /\ w' = w).
Proof. unfold parseUnitsM. msteps; leaf. Qed.

Ltac mspec ::=
  lazymatch goal with
  | |- emits (parseUnitsM _ _ _) _ _ =>
      muse parseUnitsM_spec; intros (? & -> & ->)
  end.

Lemma approveToken_spec E token spender amount w :
  emits (approveToken E token spender amount) w
        (fun r tr w' => r <> OutOfFuel /\ marks tr = []).
Proof. unfold approveToken. mgo; leaf. Qed.

Ltac mspec ::=
  lazymatch goal with
  | |- emits (parseUnitsM _ _ _) _ _ =>
      muse parseUnitsM_spec; intros (? & -> & ->)
  | |- emits (approveToken _ _ _ _) _ _ =>
      muse approveToken_spec; intros (? & ?)
  end.

Lemma lockEvmEscrow_spec E order type w :
  emits (lockEvmEscrow E order type) w
        (fun r tr w' =>
           r <> OutOfFuel /\ marks tr = lockMarks r type /\
           (forall t, r = Ok t ->
                      Js.truthy_string (addresses E (chainOf order type)) = true)).
Proof.
  unfold lockEvmEscrow, getEscrowAddress.
  destruct type; cbn [chainOf]; mgo; leaf.
Qed.

Lemma lockCosmosEscrow_spec E order type w :
  emits (lockCosmosEscrow E order type) w
        (fun r tr w' =>
           r <> OutOfFuel /\ marks tr = lockMarks r type /\
           (forall t, r = Ok t -> TransactionResult.status t = TxConfirmed)).
Proof.
  unfold lockCosmosEscrow.
  destruct type; mgo; leaf.
Qed.

Ltac mspec ::=
  lazymatch goal with
  | |- emits (parseUnitsM _ _ _) _ _ =>
      muse parseUnitsM_spec; intros (? & -> & ->)
  | |- emits (approveToken _ _ _ _) _ _ =>
      muse approveToken_spec; intros (? & ?)
  | |- emits (lockEvmEscrow _ _ _) _ _ =>
      muse lockEvmEscrow_spec; intros (? & ? & ?)
  | |- emits (lockCosmosEscrow _ _ _) _ _ =>
      muse lockCosmosEscrow_spec; intros (? & ? & ?)
  end.

Lemma lockSourceEscrow_spec E order decision w :
  emits (lockSourceEscrow E order decision) w
        (fun r tr w' =>
           r <> OutOfFuel /\ marks tr = lockMarks r Source /\
           (forall t, r = Ok t ->
                      isString (Order.srcChainId order) = false ->
                      Js.truthy_string (addresses E (Order.srcChainId order)) = true)).
Proof. unfold lockSourceEscrow. mgo; leaf. Qed.


Lemma lockDestinationEscrow_spec E order decision w :
  emits (lockDestinationEscrow E order decision) w
        (fun r tr w' => r <> OutOfFuel /\ marks tr = dstLockMarks r).
Proof. unfold lockDestinationEscrow. mgo; leaf. Qed.

Lemma isTransactionConfirmed_spec E txHash chain w :
  emits (isTransactionConfirmed E txHash chain) w
        (fun r tr w' =>
           (exists b, r = Ok b) /\ marks tr = [] /\ clock w <= clock w').
Proof. unfold isTransactionConfirmed. mgo; leaf. Qed.

Lemma claimFromEscrow_spec E order secret w :
  emits (claimFromEscrow E order secret Source) w
        (fun r tr w' =>
           r <> OutOfFuel /\
           (marks tr = [] \/ marks tr = [KClaim Source]) /\
           (forall u, r = Ok u -> marks tr = [KClaim Source])).
Proof.
  unfold claimFromEscrow, claimFromCosmosEscrow, claimFromEvmEscrow,
         getEscrowAddress.
  mgo; leaf.
Qed.

Ltac mspec ::=
  lazymatch goal with
  | |- emits (claimFromEscrow _ _ _ Source) _ _ =>
      muse claimFromEscrow_spec; intros (? & ? & ?)
  end.

Lemma revealSecretAndClaim_spec E order decision w :
  emits (revealSecretAndClaim E order decision) w
        (fun r tr w' =>
           r <> OutOfFuel /\
           (marks tr = [] \/ marks tr = [KClaim Source]) /\
           (forall u, r = Ok u -> marks tr = [KClaim Source])).
Proof.
  unfold revealSecretAndClaim. mgo; leaf.
Qed.

Lemma cancelEvmEscrow_spec E order type w :
  emits (cancelEvmEscrow E order type) w
        (fun r tr w' =>
           if Js.truthy_string (addresses E (chainOf order type))
           then r = Ok tt /\ marks tr = [KRefund type]
           else (exists e, r = Throw e) /\ marks tr = []).
Proof.
  unfold cancelEvmEscrow, getEscrowAddress.
  destruct type; cbn [chainOf]; mgo; leaf.
Qed.

Ltac mspec ::=
  lazymatch goal with
  | |- emits (cancelEvmEscrow _ _ _) _ _ =>
      let H := fresh "H" in
      muse cancelEvmEscrow_spec; cbn [chainOf]; intros H;
      match type of H with
      | if ?b then _ else _ =>
          destruct b eqn:?; [destruct H as [-> ?] | destruct H as [[? ->] ?]]
      end
  end.

Lemma cancelEscrows_spec E order w :
  emits (cancelEscrows E order) w
        (fun r tr w' => r = Ok tt /\ marks tr = cancelMarks E order).
Proof.
  unfold cancelEscrows, cancelMarks.
  mgo; leaf.
Qed.
End EscrowFacts.

Module ResolverFacts.
Import EscrowExecutor EscrowFacts CrossChainResolver.


Ltac mspec ::=
  lazymatch goal with
  | |- emits (isTransactionConfirmed _ _ _) _ _ =>
      muse isTransactionConfirmed_spec; intros ([? ->] & ? & ?)
  end.

Lemma waitLoop_spec E fuel sourceTxHash destTxHash startTime :
  forall w,
    startTime <= clock w ->
    timeout - (clock w - startTime) <= pollDelay * Z.of_nat fuel ->
    emits (waitLoop E fuel sourceTxHash destTxHash startTime) w
          (fun r tr w' => r <> OutOfFuel /\ marks tr = confirmMarks r).
Proof.
  unfold timeout, pollDelay.
  induction fuel as [|fuel IH]; intros w Hstart Hfuel.
  - cbn [waitLoop]. unfold timeout. mgo; leaf.
  - cbn [waitLoop]. unfold timeout, pollDelay. mgo; try (leaf; fail).
    eapply emits_mono; [apply IH; cbn; lia|].
    cbv beta. intros r2 tr2 _ (? & ?). leaf.
Qed.

(** The poll resolves only in a turn in which both
    [isTransactionConfirmed] calls answered [true]; its last act is the
    entry "Both escrows confirmed", which nothing else writes. *)
Lemma waitLoop_confirmed E fuel sourceTxHash destTxHash startTime :
  forall w w',
    waitLoop E fuel sourceTxHash destTxHash startTime w = (Ok tt, w') ->
    exists w1 w2 w3 pre,
      trace w1 = (trace w ++ pre)%list /\
      isTransactionConfirmed E sourceTxHash Source w1 = (Ok true, w2) /\
      isTransactionConfirmed E destTxHash Destination w2 = (Ok true, w3) /\
      trace w' = (trace w3 ++ [Log LInfo "Both escrows confirmed" []])%list.
Proof.
  induction fuel as [|fuel IH]; intros w w'; cbn [waitLoop];
    unfold bind at 1, dateNow, gets; cbv beta iota.
  - destruct (Z.ltb _ _); discriminate.
  - destruct (Z.ltb _ _); [|discriminate].
    unfold bind at 1.
    destruct (isTransactionConfirmed E sourceTxHash Source w)
      as [[sourceConfirmed|e|] w2] eqn:Hsrc; try discriminate.
    unfold bind at 1.
    destruct (isTransactionConfirmed E destTxHash Destination w2)
      as [[destConfirmed|e|] w3] eqn:Hdst; try discriminate.
    destruct sourceConfirmed, destConfirmed; cbn [andb].
    1: { intros [= <-]. exists w, w2, w3, []. rewrite app_nil_r. by cbn. }
    all: unfold bind at 1, sleep; cbv beta iota; intros Hrest;
      apply IH in Hrest as (w1 & w2' & w3' & pre & Hpre & ? & ? & ?);
      cbn in Hpre;
      destruct (isTransactionConfirmed_spec E sourceTxHash Source w)
        as (tr1 & Htr1 & _);
      destruct (isTransactionConfirmed_spec E destTxHash Destination w2)
        as (tr2 & Htr2 & _);
      rewrite Hsrc in Htr1; rewrite Hdst in Htr2; cbn in Htr1, Htr2;
      exists w1, w2', w3', (tr1 ++ tr2 ++ [Sleep pollDelay] ++ pre)%list;
      (split; [|done]);
      rewrite Hpre, Htr2, Htr1, <- !app_assoc; reflexivity.
Qed.

Lemma waitForEscrowConfirmations_spec E sourceTxHash destTxHash w :
  emits (waitForEscrowConfirmations E sourceTxHash destTxHash) w
        (fun r tr w' => r <> OutOfFuel /\ marks tr = confirmMarks r).
Proof.
  unfold waitForEscrowConfirmations. mstep. mstep.
  eapply emits_mono; [apply waitLoop_spec; unfold timeout, pollDelay, pollFuel; lia|].
  cbv beta. intros r tr _ (? & ?). leaf.
Qed.

Ltac mspec ::=
  lazymatch goal with
  | |- emits (cancelEscrows _ _) _ _ =>
      muse cancelEscrows_spec; intros (-> & ?)
  end.

Lemma handleFailedSwap_spec E order error w :
  emits (handleFailedSwap E order error) w
        (fun r tr w' => r = Ok tt /\ marks tr = cancelMarks E order).
Proof. unfold handleFailedSwap. mgo; leaf. Qed.

Ltac mspec ::=
  lazymatch goal with
  | |- emits (lockSourceEscrow _ _ _) _ _ =>
      muse lockSourceEscrow_spec; intros (? & ? & ?)
  | |- emits (lockDestinationEscrow _ _ _) _ _ =>
      muse lockDestinationEscrow_spec; intros (? & ?)
  | |- emits (waitForEscrowConfirmations _ _ _) _ _ =>
      muse waitForEscrowConfirmations_spec; intros (? & ?)
  | |- emits (revealSecretAndClaim _ _ _) _ _ =>
      muse revealSecretAndClaim_spec; intros (? & ? & ?)
  | |- emits (handleFailedSwap _ _ _) _ _ =>
      muse handleFailedSwap_spec; intros (-> & ?)
  end.

Lemma executeAtomicSwap_shape E order decision w :
  emits (executeAtomicSwap E order decision) w
        (fun r tr w' => r = Ok tt /\ swapShape E order (marks tr)).
Proof.
  unfold executeAtomicSwap. mgo.
  all: leaf_use; (split; [done|]); leaf_marks.
  all: by constructor.
Qed.
End ResolverFacts.

(* ===================================================================== *)
(** ** The life of a swap *)
(* ===================================================================== *)


(** If the only claim of [m1 ++ y :: m2] is [y], a claim found in it is
    [y], at the same place. *)
Lemma claim_position (l1 l2 m1 m2 : list Kind) (x y : Kind) :
  (l1 ++ x :: l2 = m1 ++ y :: m2)%list ->
  isClaim x ->
  Forall (fun k => ~ isClaim k) m1 ->
  Forall (fun k => ~ isClaim k) m2 ->
  l1 = m1 /\ x = y.
Proof.
  revert m1. induction l1 as [|b l1 IH]; intros [|a m1] Heq Hx H1 H2;
    cbn in Heq; simplify_eq.
  - done.
  - by inversion H1.
  - exfalso. rewrite Forall_forall in H2. apply (H2 x); [|done].
    set_solver.
  - inversion H1; subst. destruct (IH m1) as [-> ->]; auto.
Qed.

Lemma no_claim (l1 l2 m : list Kind) (x : Kind) :
  (l1 ++ x :: l2)%list = m -> isClaim x -> Forall (fun k => ~ isClaim k) m -> False.
Proof.
  intros <- Hx Hm. rewrite Forall_forall in Hm. apply (Hm x); [|done].
  set_solver.
Qed.

Lemma cancelMarks_no_claim E order :
  Forall (fun k => ~ isClaim k) (cancelMarks E order).
Proof. unfold cancelMarks. repeat case_match; repeat constructor; cbn; tauto. Qed.

Ltac no_claims :=
  repeat match goal with
         | |- Forall _ (_ :: _) => apply Forall_cons; split; [cbn; tauto|]
         | |- Forall _ (_ ++ _)%list => apply Forall_app; split
         | |- Forall _ [] => apply Forall_nil
         end;
  try assumption.

Lemma marks_split (pre post : list Event) (ev : Event) (k : Kind) :
  kind ev = k -> k <> KNeutral ->
  marks (pre ++ ev :: post) = (marks pre ++ k :: marks post)%list.
Proof.
  intros Hk Hn. rewrite marks_app. cbn. rewrite Hk. by destruct k.
Qed.

Module SwapTheorems.
Import EscrowExecutor CrossChainResolver EscrowFacts ResolverFacts.

(** [executeAtomicSwap] always resolves, and the meaningful part of
    what it appends to the trace has one of the six shapes. *)
Lemma executeAtomicSwap_run E order decision w :
  exists tr w',
    executeAtomicSwap E order decision w = (Ok tt, w') /\
    trace w' = (trace w ++ tr)%list /\
    swapShape E order (marks tr).
Proof.
  destruct (executeAtomicSwap_shape E order decision w) as (tr & Ht & Hr & Hs).
  exists tr, (executeAtomicSwap E order decision w).2.
  destruct (executeAtomicSwap E order decision w) as [r w']; cbn in *.
  by subst.
Qed.



End SwapTheorems.

Module SwapExamples.
Import EscrowExecutor CrossChainResolver.


(** The same failure with an EVM source: the refund is issued. *)
Example sepolia_source_is_refunded :
  exists tr w',
    executeAtomicSwap (Platform.env Scenario.cosmosRejects) Scenario.sepoliaOrder
                      (Scenario.goAhead Scenario.sepoliaOrder)
                      (emptyWorld Scenario.now0) = (Ok tt, w') /\
    trace w' = tr /\
    marks tr = [KLockSubmitted Source; KDstLockFailed; KCancelling; KRefund Source].
Proof.
  do 2 eexists. split; [vm_compute; reflexivity|].
  split; [reflexivity|]. vm_compute; reflexivity.
Qed.

(** The happy path. *)
Example sepolia_swap_completes :
  exists tr w',
    executeAtomicSwap Scenario.calmEnv Scenario.sepoliaOrder
                      (Scenario.goAhead Scenario.sepoliaOrder)
                      (emptyWorld Scenario.now0) = (Ok tt, w') /\
    trace w' = tr /\
    marks tr = [KLockSubmitted Source; KLockSubmitted Destination; KBothConfirmed;
                KClaim Source; KCompleted].
Proof.
  do 2 eexists. split; [vm_compute; reflexivity|].
  split; [reflexivity|]. vm_compute; reflexivity.
Qed.
End SwapExamples.

Module ConfirmationTheorems.
Import EscrowExecutor EscrowFacts.

Ltac mspec ::=
  lazymatch goal with
  | |- emits (parseUnitsM _ _ _) _ _ =>
      muse parseUnitsM_spec; intros (? & -> & ->)
  end.

Lemma lockCosmosEscrow_immediate E order type w :
  emits (lockCosmosEscrow E order type) w
        (fun r tr w' =>
           Forall (fun e => queriesReceipt e = false) tr /\
           forall t, r = Ok t ->
             TransactionResult.status t = TxConfirmed /\
             exists e b,
               e ∈ tr /\ broadcastOf e = Some b /\ Broadcast.code b = 0 /\
               TransactionResult.hash t = Broadcast.transactionHash b /\
               TransactionResult.blockNumber t = Broadcast.height b).
Proof.
  unfold lockCosmosEscrow. mgo.
  all: split; [cbn; repeat constructor|]; intros t Ht; simplify_eq.
  all: split; [done|].
  all: match goal with
       | |- context [Ev (SignAndBroadcast ?a ?b ?c ?d ?e) (Returns ?v)] =>
           exists (Ev (SignAndBroadcast a b c d e) (Returns v)), v
       end.
  all: split; [set_solver|].
  all: apply negb_false_iff, Z.eqb_eq in Heqb; done.
Qed.

End ConfirmationTheorems.

(* ===================================================================== *)
(** ** The swap registry and the timeout check *)
(* ===================================================================== *)

Module JsMapFacts.
Section Facts.
Context {V : Type}.
Implicit Types (m : list (string * V)) (k : string) (v : V).


Lemma get_set_ne m k k' v :
  k <> k' -> JsMap.get (JsMap.set m k v) k' = JsMap.get m k'.
Proof.
  intros Hne. induction m as [|[k0 v0] m IH]; cbn.
  - destruct (String.eqb_spec k k'); congruence.
  - destruct (String.eqb_spec k0 k) as [->|]; cbn.
    + destruct (String.eqb_spec k k'); congruence.
    + by rewrite IH.
Qed.

Lemma get_delete_eq m k : JsMap.get (JsMap.delete m k) k = None.
Proof.
  induction m as [|[k' v'] m IH]; cbn; [done|].
  destruct (String.eqb k' k) eqn:Hk; cbn; [done|]. by rewrite Hk.
Qed.

Lemma get_delete_none m k k' :
  JsMap.get m k' = None -> JsMap.get (JsMap.delete m k) k' = None.
Proof.
  induction m as [|[k0 v0] m IH]; cbn; [done|].
  destruct (String.eqb k0 k') eqn:Hk'; [done|]. intros H.
  destruct (String.eqb k0 k); cbn; [auto|]. rewrite Hk'. auto.
Qed.

Lemma keys_set m k v :
  JsMap.keys (JsMap.set m k v)
  = if JsMap.has m k then JsMap.keys m else (JsMap.keys m ++ [k])%list.
Proof.
  unfold JsMap.has, JsMap.keys.
  induction m as [|[k' v'] m IH]; cbn; [done|].
  destruct (String.eqb k' k) eqn:Hk; cbn; [done|].
  rewrite IH. by destruct (JsMap.get m k).
Qed.

Lemma has_keys m k : JsMap.has m k = true <-> k ∈ JsMap.keys m.
Proof.
  unfold JsMap.has, JsMap.keys.
  induction m as [|[k' v'] m IH]; cbn.
  - split; [done|]. by intros ?%elem_of_nil.
  - rewrite elem_of_cons. destruct (String.eqb_spec k' k) as [->|Hne].
    + split; auto.
    + rewrite IH. split; [auto|]. by intros [->|?].
Qed.

(** A [Map] holds at most one entry per key, and [set] and [delete]
    keep it so. *)
Lemma set_unique m k v :
  NoDup (JsMap.keys m) -> NoDup (JsMap.keys (JsMap.set m k v)).
Proof.
  intros Hm. rewrite keys_set. destruct (JsMap.has m k) eqn:Hh; [done|].
  apply NoDup_app. split; [done|]. split; [|apply NoDup_singleton].
  intros x Hx ->%list_elem_of_singleton.
  apply has_keys in Hx. congruence.
Qed.

Lemma keys_delete m k x : x ∈ JsMap.keys (JsMap.delete m k) -> x ∈ JsMap.keys m.
Proof.
  unfold JsMap.keys. induction m as [|[k' v'] m IH]; cbn; [done|].
  destruct (String.eqb k' k); cbn; rewrite ?elem_of_cons; intuition.
Qed.

Lemma delete_unique m k :
  NoDup (JsMap.keys m) -> NoDup (JsMap.keys (JsMap.delete m k)).
Proof.
  unfold JsMap.keys. induction m as [|[k' v'] m IH]; cbn; [done|].
  intros [Hn Hm]%NoDup_cons.
  destruct (String.eqb k' k); cbn; [auto|].
  apply NoDup_cons. split; [|auto].
  intros Hin. apply Hn. by apply (keys_delete m k).
Qed.
End Facts.
End JsMapFacts.

Module RegistryFacts.
Import Resolver JsMapFacts RegistrySpec.


Lemma checkSwap_spec now hashlock swap w :
  emits (checkSwap now hashlock swap) w
        (fun r tr w' =>
           turned now w r tr w' /\
           (dstTimedOut now swap -> dstCancelled hashlock tr w')).
Proof.
  unfold checkSwap, cancelSwapOnSource, cancelSwapOnDestination,
         removeSwapFromTracking, turned, dstTimedOut, dstCancelled.
  msteps; cbn.
  all: repeat split; try done;
    auto using get_delete_none, delete_unique, get_delete_eq.
  all: try (cbn; rewrite ?elem_of_cons; tauto).
  all: try (intros; apply Z.ltb_ge in Heqb0; lia).
  all: intros; repeat apply delete_unique; assumption.
Qed.

Lemma checkEach_spec now entries :
  forall w,
    emits (checkEach now entries) w
          (fun r tr w' =>
             turned now w r tr w' /\
             forall hashlock swap,
               (hashlock, swap) ∈ entries -> dstTimedOut now swap ->
               dstCancelled hashlock tr w').
Proof.
  induction entries as [|[h s] entries IH]; intros w; cbn [checkEach].
  - mstep. unfold turned. split; [done|]. intros ? ? Hin. by apply elem_of_nil in Hin.
  - mstep. muse checkSwap_spec. intros ((-> & Hnone & Hdup) & Hcur).
    eapply emits_mono; [apply IH|]. cbv beta.
    intros r2 tr2 w2 ((-> & Hnone2 & Hdup2) & Hrest).
    unfold turned, dstCancelled in *.
    split; [split; [done|split; auto]|].
    intros hashlock swap Hin Hout.
    apply elem_of_cons in Hin as [[= -> ->]|Hin].
    + destruct (Hcur Hout) as [Hlog Hget].
      split; [apply elem_of_app; by left|auto].
    + destruct (Hrest _ _ Hin Hout) as [Hlog Hget].
      split; [apply elem_of_app; by right|done].
Qed.

(** One run of [checkAndHandleTimeout] on a registry tracking a swap
    whose [dstCancellation] is before the current time. *)
Lemma checkAndHandleTimeout_cancels w hashlock swap :
  (hashlock, swap) ∈ activeSwaps w ->
  TimeLocks.dstCancellation (Immutables.timelocks (Swap.immutables swap))
    < clock w / 1000 ->
  exists tr w',
    checkAndHandleTimeout w = (Ok tt, w') /\
    trace w' = (trace w ++ tr)%list /\
    Log LInfo "Cancelled destination chain swap" [hashlock] ∈ tr /\
    JsMap.get (activeSwaps w') hashlock = None /\
    JsMap.has (activeSwaps w') hashlock = false.
Proof.
  intros Hin Hout.
  assert (Hspec : emits checkAndHandleTimeout w
            (fun r tr w' => r = Ok tt /\ dstCancelled hashlock tr w')).
  { unfold checkAndHandleTimeout. msteps.
    eapply emits_mono; [apply checkEach_spec|]. cbv beta.
    intros r tr w' ((-> & _) & Hall). split; [done|].
    destruct (Hall hashlock swap) as [Hlog Hget]; [done|exact Hout|].
    split; [|done]. cbn. rewrite !elem_of_cons. auto. }
  destruct Hspec as (tr & Htr & Hr & Hlog & Hget).
  exists tr, (checkAndHandleTimeout w).2.
  split; [destruct (checkAndHandleTimeout w); cbn in *; by subst|].
  repeat split; try done. unfold JsMap.has. by rewrite Hget.
Qed.
End RegistryFacts.

Module RegistryTheorems.
Import Resolver JsMapFacts RegistrySpec RegistryFacts.

(** The registry keeps at most one record per hashlock: [addSwapOrder]
    and [removeSwapFromTracking] preserve it. *)
Lemma addSwapOrder_unique swap w :
  NoDup (JsMap.keys (activeSwaps w)) ->
  NoDup (JsMap.keys (activeSwaps (addSwapOrder swap w).2)).
Proof. intros H. cbn. by apply set_unique. Qed.

Lemma removeSwapFromTracking_unique hashlock w :
  NoDup (JsMap.keys (activeSwaps w)) ->
  NoDup (JsMap.keys (activeSwaps (removeSwapFromTracking hashlock w).2)).
Proof. intros H. cbn. by apply delete_unique. Qed.

Lemma processOrders_tracks E orderArgs chainId w :
  emits (processOrders E orderArgs chainId) w
        (fun r tr w' =>
           r <> OutOfFuel /\
           (NoDup (JsMap.keys (activeSwaps w)) ->
            NoDup (JsMap.keys (activeSwaps w'))) /\
           (r = Ok tt ->
            exists swap,
              JsMap.get (activeSwaps w')
                        (Immutables.hashlock (FillOrderArgs.immutables orderArgs))
                = Some swap /\
              Swap.immutables swap = FillOrderArgs.immutables orderArgs)).
Proof.
  unfold processOrders, createSrcEscrow, addSwapOrder, Contract.send, Contract.on.
  cbn [evmResolverContract evmFactoryContract Contract.functions Contract.events
       Contract.runner RESOLVER_ABI ESCROW_FACTORY_ABI existsb fst snd
       String.eqb Ascii.eqb Bool.eqb Nat.eqb andb orb].
  msteps. all: cbn. all: repeat split; try done.
Qed.
End RegistryTheorems.

Module TimelockTheorems.
Import OrderMonitor Resolver RegistryTheorems.

(** C5 (counterexample).  An otherwise valid order whose timelocks put
    the source cancellation (T+3600) before the destination
    cancellation (T+7200) passes validation and is accepted. *)
Lemma unsafe_timelocks_are_accepted :
  TimeLocks.srcCancellation (Scenario.unsafeTimeLocks Scenario.T0)
    = Scenario.T0 + 3600 /\
  TimeLocks.dstCancellation (Scenario.unsafeTimeLocks Scenario.T0)
    = Scenario.T0 + 7200 /\
  exists w',
    submitOrder Scenario.evenEnv
                (Scenario.submission (Some (Scenario.unsafeTimeLocks Scenario.T0)))
                (emptyWorld Scenario.now0)
    = (Ok (SubmitResult.mk true "Order 0xabcdef01 queued for processing"), w').
Proof. split; [done|]. split; [done|]. eexists. vm_compute. reflexivity. Qed.

(** The order with the safe arrangement is accepted as well. *)
Example safe_timelocks_are_accepted :
  exists w',
    submitOrder Scenario.evenEnv
                (Scenario.submission (Some (Scenario.safeTimeLocks Scenario.T0)))
                (emptyWorld Scenario.now0)
    = (Ok (SubmitResult.mk true "Order 0xabcdef01 queued for processing"), w').
Proof. eexists. vm_compute. reflexivity. Qed.

(** C5 (as the code has it).  Timelocks are not looked at when a swap
    is created: [submitOrder] gives the same answer whatever the
    order's [timeLocks] are, and [processOrders], whenever it resolves,
    tracks the swap with the immutables -- timelocks included -- it was
    given. *)
Theorem timelocks_are_not_validated
        (E : Env) (o : Submission.t) (tl : option TimeLocks.t)
        (orderArgs : FillOrderArgs.t) (chainId : ChainId) (w : World) :
  submitOrder E (Submission.with_timeLocks o tl) w = submitOrder E o w /\
  exists r w',
    processOrders E orderArgs chainId w = (r, w') /\
    (r = Ok tt ->
     exists swap,
       JsMap.get (activeSwaps w')
                 (Immutables.hashlock (FillOrderArgs.immutables orderArgs))
         = Some swap /\
       Immutables.timelocks (Swap.immutables swap)
         = Immutables.timelocks (FillOrderArgs.immutables orderArgs)).
Proof.
  split.
  - by destruct o.
  - destruct (processOrders_tracks E orderArgs chainId w)
      as (tr & _ & _ & _ & Hr).
    destruct (processOrders E orderArgs chainId w) as [r w']; cbn in *.
    exists r, w'. split; [done|]. intros ->.
    destruct (Hr eq_refl) as (swap & Hget & Himm).
    exists swap. split; [done|]. by rewrite Himm.
Qed.

End TimelockTheorems.

Module AdmissionFacts.
Import CrossChainResolver.

(** [processNewOrders] skips every order whose hash it has processed:
    a batch of such orders changes nothing and asks nothing of any
    chain. *)
Lemma processEach_skips_processed E orders w :
  Forall (fun order => Order.orderHash order ∈ processedOrders w) orders ->
  processEach E orders w = (Ok tt, w).
Proof.
  induction 1 as [|order orders Hin _ IH]; [done|].
  cbn [processEach]. unfold bind, gets. cbn.
  by rewrite (bool_decide_eq_true_2 _ Hin).
Qed.
End AdmissionFacts.


(* ===================================================================== *)
(** ** From the program logic to runs, and frames *)
(* ===================================================================== *)

Lemma emits_run {A} (m : M A) w (Q : Res A -> list Event -> World -> Prop) :
  emits m w Q ->
  exists r tr w', m w = (r, w') /\ trace w' = (trace w ++ tr)%list /\ Q r tr w'.
Proof.
  intros (tr & Htr & HQ). exists (m w).1, tr, (m w).2.
  by destruct (m w).
Qed.

Lemma emits_conj {A} (m : M A) w (Q1 Q2 : Res A -> list Event -> World -> Prop) :
  emits m w Q1 -> emits m w Q2 ->
  emits m w (fun r tr w' => Q1 r tr w' /\ Q2 r tr w').
Proof.
  intros (tr1 & Ht1 & H1) (tr2 & Ht2 & H2). exists tr1.
  split; [done|]. split; [done|].
  rewrite Ht1 in Ht2. apply app_inv_head in Ht2. by subst.
Qed.

Lemma emits_returns {A} (m : M A) w (a : A) (P : list Event -> World -> Prop) :
  emits m w (fun r tr w' => r = Ok a /\ P tr w') ->
  exists tr w', m w = (Ok a, w') /\ trace w' = (trace w ++ tr)%list /\ P tr w'.
Proof.
  intros H.
  destruct (emits_run _ _ _ H) as (r & tr & w' & Hrun & Htr & -> & HP).
  by exists tr, w'.
Qed.

Lemma run_emits {A} (m : M A) w (Q : Res A -> list Event -> World -> Prop) :
  (exists r tr w', m w = (r, w') /\ trace w' = (trace w ++ tr)%list /\ Q r tr w') ->
  emits m w Q.
Proof.
  intros (r & tr & w' & Hrun & Htr & HQ). exists tr. by rewrite Hrun.
Qed.

Section Keeps.
Import FrameSpec.
Context {X : Type} (f : World -> X) (Hq : quiet f).

Lemma keeps_ret {A} (a : A) : keeps f (ret a).
Proof. done. Qed.

Lemma keeps_throw {A} e : keeps f (@throw A e).
Proof. done. Qed.

Lemma keeps_diverge {A} : keeps f (@diverge A).
Proof. done. Qed.

Lemma keeps_gets {A} (g : World -> A) : keeps f (gets g).
Proof. done. Qed.

Lemma keeps_modify (g : World -> World) :
  (forall w, f (g w) = f w) -> keeps f (modify g).
Proof. intros H w. apply H. Qed.

Lemma keeps_log l msg args : keeps f (log l msg args).
Proof. intros w. apply Hq. Qed.

Lemma keeps_call E {T} (c : Call T) : keeps f (call E c).
Proof.
  intros w. unfold call. destruct (respond E (trace w) T c) as [[v|e] dt]; cbn.
  all: by rewrite (proj2 Hq), (proj1 Hq).
Qed.

Lemma keeps_fire E {T} (c : Call T) : keeps f (fire E c).
Proof.
  intros w. unfold fire. destruct (respond E (trace w) T c) as [o dt]; cbn.
  apply Hq.
Qed.

Lemma keeps_sleep E ms : keeps f (sleep E ms).
Proof. intros w. unfold sleep. cbn. by rewrite (proj2 Hq), (proj1 Hq). Qed.

Lemma keeps_bind {A B} (m : M A) (k : A -> M B) :
  keeps f m -> (forall a, keeps f (k a)) -> keeps f (bind m k).
Proof.
  intros Hm Hk w. unfold bind. specialize (Hm w).
  destruct (m w) as [[a|e|] w1]; cbn in *; [|done..].
  by rewrite Hk.
Qed.

Lemma keeps_try_catch {A} (m : M A) (h : Js.exn -> M A) :
  keeps f m -> (forall e, keeps f (h e)) -> keeps f (try_catch m h).
Proof.
  intros Hm Hh w. unfold try_catch. specialize (Hm w).
  destruct (m w) as [[a|e|] w1]; cbn in *; [done| |done].
  by rewrite Hh.
Qed.

Lemma keeps_promiseAll2 {A B} (a : M A) (b : M B) :
  keeps f a -> keeps f b -> keeps f (promiseAll2 a b).
Proof.
  intros Ha Hb w. unfold promiseAll2. specialize (Ha w).
  destruct (a w) as [ra w1]. specialize (Hb w1).
  destruct (b w1) as [rb w2]. cbn in *. congruence.
Qed.

Lemma emits_keeps {A} (m : M A) w (Q : Res A -> list Event -> World -> Prop) :
  emits m w Q -> keeps f m ->
  emits m w (fun r tr w' => Q r tr w' /\ f w' = f w).
Proof.
  intros (tr & Htr & HQ) Hk. exists tr. split; [done|]. split; [done|]. apply Hk.
Qed.
End Keeps.

(** One syntax-directed step of a proof that a part of the world is kept. *)
Ltac keeps_step :=
  lazymatch goal with
  | |- FrameSpec.keeps _ (bind _ _) => apply keeps_bind; [|intros ?]
  | |- FrameSpec.keeps _ (try_catch _ _) => apply keeps_try_catch; [|intros ?]
  | |- FrameSpec.keeps _ (promiseAll2 _ _) => apply keeps_promiseAll2
  | |- FrameSpec.keeps _ (ret _) => apply keeps_ret
  | |- FrameSpec.keeps _ (throw _) => apply keeps_throw
  | |- FrameSpec.keeps _ diverge => apply keeps_diverge
  | |- FrameSpec.keeps _ (gets _) => apply keeps_gets
  | |- FrameSpec.keeps _ dateNow => apply keeps_gets
  | |- FrameSpec.keeps _ (log _ _ _) => apply keeps_log; by split
  | |- FrameSpec.keeps _ (call _ _) => apply keeps_call; by split
  | |- FrameSpec.keeps _ (fire _ _) => apply keeps_fire; by split
  | |- FrameSpec.keeps _ (sleep _ _) => apply keeps_sleep; by split
  | |- FrameSpec.keeps _ (modify _) => apply keeps_modify; intros ?; reflexivity
  | |- FrameSpec.keeps _ (if ?b then _ else _) => destruct b
  | |- FrameSpec.keeps _ (match ?x with _ => _ end) => destruct x
  end; cbv beta zeta.

Ltac keeps_go := repeat keeps_step.

(* ===================================================================== *)
(** ** The price and gas caches *)
(* ===================================================================== *)

Module CacheFacts.
Import ProfitabilityAnalyzer TraceSpec.

(** Everything a call of [getTokenPrice] can do, by the [source] of
    what it returns. *)
Lemma getTokenPrice_run E token chainId w :
  emits (getTokenPrice E token chainId) w
        (fun r tr w' =>
           exists p, r = Ok p /\
             (length (requests tr) <= 1)%nat /\
             match TokenPrice.source p with
             | FromCache =>
                 w' = w /\
                 exists timestamp,
                   priceCache w !! priceCacheKey token chainId
                     = Some (TokenPrice.priceUsd p, timestamp) /\
                   clock w - timestamp < CACHE_TTL
             | FromApi =>
                 priceCache w'
                   = <[priceCacheKey token chainId
                         := (TokenPrice.priceUsd p, clock w')]> (priceCache w)
             | FromFallback =>
                 TokenPrice.priceUsd p = 1%float /\
                 priceCache w' = priceCache w
             end).
Proof.
  unfold getTokenPrice, fetchTokenPrice, fetchCosmosTokenPrice.
  msteps.
  all: eexists; split; [reflexivity|]; split; [cbn; lia|]; cbn; try done.
  all: split; [done|]; eexists; split; [reflexivity|]; by apply Z.ltb_lt.
Qed.

(** A fresh entry answers the call. *)
Lemma getTokenPrice_hit E token chainId w price timestamp :
  priceCache w !! priceCacheKey token chainId = Some (price, timestamp) ->
  clock w - timestamp < CACHE_TTL ->
  getTokenPrice E token chainId w = (Ok (TokenPrice.mk price FromCache), w).
Proof.
  intros Hc Hage. unfold getTokenPrice, bind, gets, dateNow. cbn.
  rewrite Hc. by rewrite (proj2 (Z.ltb_lt _ _) Hage).
Qed.
End CacheFacts.

Module CacheTheorems.
Import ProfitabilityAnalyzer TraceSpec CacheFacts.

(** X1.  [getTokenPrice] never rejects and asks for at most one quote.
    The [source] of its answer tells what happened: ['cache'] -- an
    entry younger than 30 s was returned and nothing changed at all;
    ['api'] -- the price was stored under the key with the time of
    storing; ['fallback'] -- the price is 1 and the cache is as it was
    (a fallback is never cached). *)
Theorem getTokenPrice_source_tells
        (E : Env) (token : string) (chainId : ChainId) (w : World) :
  exists p tr w',
    getTokenPrice E token chainId w = (Ok p, w') /\
    trace w' = (trace w ++ tr)%list /\
    (length (requests tr) <= 1)%nat /\
    match TokenPrice.source p with
    | FromCache =>
        w' = w /\
        exists timestamp,
          priceCache w !! priceCacheKey token chainId
            = Some (TokenPrice.priceUsd p, timestamp) /\
          clock w - timestamp < CACHE_TTL
    | FromApi =>
        priceCache w'
          = <[priceCacheKey token chainId
                := (TokenPrice.priceUsd p, clock w')]> (priceCache w)
    | FromFallback =>
        TokenPrice.priceUsd p = 1%float /\ priceCache w' = priceCache w
    end.
Proof.
  destruct (emits_run _ _ _ (getTokenPrice_run E token chainId w))
    as (r & tr & w' & Hrun & Htr & p & -> & Hreq & Hsrc).
  by exists p, tr, w'.
Qed.

(** X2.  Round trip through the price cache: once a call has returned a
    price from the API, any later call for the same token and chain
    that finds the entry in place less than 30 s after it was stored
    returns that price with source ['cache'], asks nothing and changes
    nothing. *)
Theorem getTokenPrice_served_from_cache
        (E : Env) (token : string) (chainId : ChainId)
        (w w1 w2 : World) (p : TokenPrice.t) :
  getTokenPrice E token chainId w = (Ok p, w1) ->
  TokenPrice.source p = FromApi ->
  priceCache w2 !! priceCacheKey token chainId
    = priceCache w1 !! priceCacheKey token chainId ->
  clock w2 < clock w1 + CACHE_TTL ->
  getTokenPrice E token chainId w2
    = (Ok (TokenPrice.mk (TokenPrice.priceUsd p) FromCache), w2).
Proof.
  intros Hrun Hsrc Hsame Hage.
  destruct (emits_run _ _ _ (getTokenPrice_run E token chainId w))
    as (r & tr & w' & Hrun' & _ & p' & -> & _ & Hp).
  rewrite Hrun in Hrun'. injection Hrun' as <- <-.
  rewrite Hsrc in Hp.
  apply (getTokenPrice_hit E token chainId w2 _ (clock w1)); [|lia].
  by rewrite Hsame, Hp, lookup_insert_eq.
Qed.

Lemma getTokenPrice_served_from_cache_witness :
  getTokenPrice Scenario.evenEnv Scenario.WETH (ChainNum 1)
    (set_clock (fun t => t + 29000)
       (getTokenPrice Scenario.evenEnv Scenario.WETH (ChainNum 1)
          (emptyWorld Scenario.now0)).2)
  = (Ok (TokenPrice.mk 2500 FromCache),
     set_clock (fun t => t + 29000)
       (getTokenPrice Scenario.evenEnv Scenario.WETH (ChainNum 1)
          (emptyWorld Scenario.now0)).2).
Proof.
  apply (getTokenPrice_served_from_cache
           Scenario.evenEnv Scenario.WETH (ChainNum 1)
           (emptyWorld Scenario.now0)
           (getTokenPrice Scenario.evenEnv Scenario.WETH (ChainNum 1)
              (emptyWorld Scenario.now0)).2
           (set_clock (fun t => t + 29000)
              (getTokenPrice Scenario.evenEnv Scenario.WETH (ChainNum 1)
                 (emptyWorld Scenario.now0)).2)
           (TokenPrice.mk 2500 FromApi)).
  - vm_compute. reflexivity.
  - reflexivity.
  - reflexivity.
  - vm_compute. reflexivity.
Defined.

(** X3.  A token for which neither price table has a value -- it is
    not a key of the table and not a name that every object inherits,
    such as ['constructor'] -- is priced at 1 USD on both kinds of
    chain, but not in the same way.  On an EVM chain the lookup throws
    before any request: the answer is the ['fallback'], nothing is
    cached, one warning is logged.  On a Cosmos chain the lookup
    answers 1 without any request: the answer counts as an ['api']
    price and is cached for the next 30 s. *)
Theorem unknown_token_is_priced_at_one
        (E : Env) (token : string) (n : Z) (s : string) (w : World) :
  Js.lookup coinGeckoIds token = None ->
  Js.lookup cosmosTokens token = None ->
  priceCache w !! priceCacheKey token (ChainNum n) = None ->
  priceCache w !! priceCacheKey token (ChainStr s) = None ->
  getTokenPrice E token (ChainNum n) w
    = (Ok (TokenPrice.mk 1 FromFallback),
       set_trace
         (fun t => (t ++ [Log LWarn "Failed to fetch price, using fallback"
                              [token]])%list) w) /\
  getTokenPrice E token (ChainStr s) w
    = (Ok (TokenPrice.mk 1 FromApi),
       set_priceCache
         (insert (priceCacheKey token (ChainStr s)) (1%float, clock w))
         (set_trace
            (fun t => (t ++ [Log LWarn "Unknown Cosmos token" [token]])%list)
            w)).
Proof.
  intros Hevm Hcosmos Hc1 Hc2. split.
  - unfold getTokenPrice, fetchTokenPrice, bind, gets, dateNow, try_catch.
    cbn. rewrite Hc1, Hevm. reflexivity.
  - unfold getTokenPrice, fetchTokenPrice, fetchCosmosTokenPrice,
           bind, gets, dateNow, try_catch.
    cbn. rewrite Hc2, Hcosmos. reflexivity.
Qed.

Lemma unknown_token_witness :
  getTokenPrice Scenario.evenEnv "0xdeadbeef" (ChainNum 1)
    (emptyWorld Scenario.now0)
    = (Ok (TokenPrice.mk 1 FromFallback),
       set_trace
         (fun t => (t ++ [Log LWarn "Failed to fetch price, using fallback"
                              ["0xdeadbeef"]])%list)
         (emptyWorld Scenario.now0)) /\
  getTokenPrice Scenario.evenEnv "0xdeadbeef" (ChainStr "osmosis-1")
    (emptyWorld Scenario.now0)
    = (Ok (TokenPrice.mk 1 FromApi),
       set_priceCache
         (insert (priceCacheKey "0xdeadbeef" (ChainStr "osmosis-1"))
                 (1%float, clock (emptyWorld Scenario.now0)))
         (set_trace
            (fun t => (t ++ [Log LWarn "Unknown Cosmos token"
                                 ["0xdeadbeef"]])%list)
            (emptyWorld Scenario.now0))).
Proof.
  apply (unknown_token_is_priced_at_one
           Scenario.evenEnv "0xdeadbeef" 1 "osmosis-1"
           (emptyWorld Scenario.now0)); reflexivity.
Defined.

End CacheTheorems.

Module GasTheorems.
Import ProfitabilityAnalyzer.

(** X4.  [estimateGasCosts] never rejects and is silent: it asks
    nothing, logs nothing (its fallback branch is never taken) and
    takes no time.  The estimate depends on the two chain ids only --
    not on the tokens or the amounts -- and without a cache entry it is
    the flat tariff: 3 USD to lock on an EVM chain, 0.5 USD on a Cosmos
    chain, 2 USD (EVM source) or 0.5 USD (Cosmos source) to claim, with
    [totalGasUsd] the sum of the three, stored under the chain pair. *)
Theorem estimateGasCosts_is_a_flat_tariff (order : Order.t) (w : World) :
  exists g w',
    estimateGasCosts order w = (Ok g, w') /\
    trace w' = trace w /\ clock w' = clock w /\
    (forall order',
        Order.srcChainId order' = Order.srcChainId order ->
        Order.dstChainId order' = Order.dstChainId order ->
        estimateGasCosts order' w = estimateGasCosts order w) /\
    (gasCache w !! gasCacheKey order = None ->
     GasEstimate.sourceGasUsd g
       = (if isString (Order.srcChainId order) then 0.5 else 3)%float /\
     GasEstimate.destinationGasUsd g
       = (if isString (Order.dstChainId order) then 0.5 else 3)%float /\
     GasEstimate.claimGasUsd g
       = (if isString (Order.srcChainId order) then 0.5 else 2)%float /\
     GasEstimate.totalGasUsd g
       = (GasEstimate.sourceGasUsd g + GasEstimate.destinationGasUsd g
          + GasEstimate.claimGasUsd g)%float /\
     gasCache w' = <[gasCacheKey order := (g, clock w)]> (gasCache w)).
Proof.
  assert (Hdep : forall order',
             Order.srcChainId order' = Order.srcChainId order ->
             Order.dstChainId order' = Order.dstChainId order ->
             estimateGasCosts order' w = estimateGasCosts order w).
  { intros order' Hs Hd. unfold estimateGasCosts, gasCacheKey.
    by rewrite Hs, Hd. }
  assert (Hrun : exists g w',
             estimateGasCosts order w = (Ok g, w') /\
             trace w' = trace w /\ clock w' = clock w /\
             (gasCache w !! gasCacheKey order = None ->
              GasEstimate.sourceGasUsd g
                = (if isString (Order.srcChainId order) then 0.5 else 3)%float /\
              GasEstimate.destinationGasUsd g
                = (if isString (Order.dstChainId order) then 0.5 else 3)%float /\
              GasEstimate.claimGasUsd g
                = (if isString (Order.srcChainId order) then 0.5 else 2)%float /\
              GasEstimate.totalGasUsd g
                = (GasEstimate.sourceGasUsd g + GasEstimate.destinationGasUsd g
                   + GasEstimate.claimGasUsd g)%float /\
              gasCache w' = <[gasCacheKey order := (g, clock w)]> (gasCache w))).
  { unfold estimateGasCosts, bind, gets, dateNow, try_catch, modify, ret.
    cbn.
    destruct (gasCache w !! gasCacheKey order) as [[g t]|] eqn:Hc.
    - destruct (Z.ltb (clock w - t) CACHE_TTL).
      + by exists g, w.
      + eexists _, _. split; [reflexivity|]. by cbn.
    - eexists _, _. split; [reflexivity|]. cbn.
      repeat split; try done.
      all: by destruct (Order.srcChainId order), (Order.dstChainId order). }
  destruct Hrun as (g & w' & Hrun & Htr & Hclock & Hfresh).
  by exists g, w'.
Qed.

End GasTheorems.

(* ===================================================================== *)
(** ** Amounts that do not parse *)
(* ===================================================================== *)

Module FloatFacts.

Lemma is_nan_SF x : PrimFloat.is_nan x = true <-> Prim2SF x = S754_nan.
Proof.
  unfold PrimFloat.is_nan. rewrite FloatAxioms.eqb_spec. unfold SFeqb.
  destruct (Prim2SF x) as [s|s| |s m e]; cbn; try (split; congruence).
  - destruct s; cbn; split; congruence.
  - rewrite Z.compare_refl, Pos.compare_cont_refl.
    destruct s; cbn; split; congruence.
Qed.

Lemma mul_nan_l x y : PrimFloat.is_nan x = true -> PrimFloat.is_nan (x * y) = true.
Proof.
  rewrite !is_nan_SF, FloatAxioms.mul_spec. by intros ->.
Qed.

Lemma sub_nan_l x y : PrimFloat.is_nan x = true -> PrimFloat.is_nan (x - y) = true.
Proof.
  rewrite !is_nan_SF, FloatAxioms.sub_spec. by intros ->.
Qed.

Lemma sub_nan_r x y : PrimFloat.is_nan y = true -> PrimFloat.is_nan (x - y) = true.
Proof.
  rewrite !is_nan_SF, FloatAxioms.sub_spec. intros ->.
  by destruct (Prim2SF x).
Qed.

Lemma div_nan_l x y : PrimFloat.is_nan x = true -> PrimFloat.is_nan (x / y) = true.
Proof.
  rewrite !is_nan_SF, FloatAxioms.div_spec. by intros ->.
Qed.

Lemma ltb_nan_l x y : PrimFloat.is_nan x = true -> PrimFloat.ltb x y = false.
Proof.
  rewrite is_nan_SF, FloatAxioms.ltb_spec. by intros ->.
Qed.

End FloatFacts.

Module AmountTheorems.
Import ProfitabilityAnalyzer ProfitabilitySpec ProfitabilityFacts FloatFacts.

(** X5.  An amount that does not parse makes the order pass.  If
    [parseFloat] gives [NaN] for the source or for the destination
    amount, the expected profit and the margin are [NaN], neither
    threshold test fails, and [analyzeOrder] answers [shouldFill = true]
    with reason "Profitable order" -- whatever the prices and the gas
    estimate are. *)
Theorem analyzeOrder_fills_unparsable_amount
        (E : Env) (order : Order.t) (w : World) :
  PrimFloat.is_nan (parseFloat E (Order.srcAmount order)) = true \/
  PrimFloat.is_nan (parseFloat E (Order.dstAmount order)) = true ->
  exists d w',
    analyzeOrder E order w = (Ok d, w') /\
    PrimFloat.is_nan (Decision.expectedProfitUsd d) = true /\
    PrimFloat.is_nan (Decision.profitMarginPercent d) = true /\
    Decision.shouldFill d = true /\
    Decision.reason d = "Profitable order".
Proof.
  intros Hnan.
  destruct (emits_run _ _ _ (analyzeOrder_decides E order w))
    as (r & tr & w' & Hrun & _ & d & -> & sp & dp
        & _ & _ & _ & _ & Hnet & Hmargin & Hfill & Hreason).
  exists d, w'. split; [done|].
  assert (Hn : PrimFloat.is_nan (Decision.expectedProfitUsd d) = true).
  { rewrite Hnet. apply sub_nan_l.
    destruct Hnan as [Hs|Hd].
    - by apply sub_nan_l, mul_nan_l.
    - by apply sub_nan_r, mul_nan_l. }
  assert (Hm : PrimFloat.is_nan (Decision.profitMarginPercent d) = true).
  { rewrite Hmargin. by apply mul_nan_l, div_nan_l. }
  assert (Hf : Decision.shouldFill d = true).
  { rewrite Hfill. unfold shouldFillOrder.
    by rewrite (ltb_nan_l _ _ Hn), (ltb_nan_l _ _ Hm). }
  repeat split; try done. by rewrite Hreason, Hf.
Qed.

Lemma analyzeOrder_fills_unparsable_amount_witness :
  exists d w',
    analyzeOrder Scenario.evenEnv Scenario.garbledOrder
                 (emptyWorld Scenario.now0) = (Ok d, w') /\
    PrimFloat.is_nan (Decision.expectedProfitUsd d) = true /\
    PrimFloat.is_nan (Decision.profitMarginPercent d) = true /\
    Decision.shouldFill d = true /\
    Decision.reason d = "Profitable order".
Proof.
  apply (analyzeOrder_fills_unparsable_amount
           Scenario.evenEnv Scenario.garbledOrder (emptyWorld Scenario.now0)).
  left. vm_compute. reflexivity.
Defined.

End AmountTheorems.

(* ===================================================================== *)
(** ** Warming the price cache up *)
(* ===================================================================== *)

Lemma emits_promiseAll_nil {A} w (Q : Res (list A) -> list Event -> World -> Prop) :
  Q (Ok []) [] w -> emits (promiseAll []) w Q.
Proof. apply emits_ret. Qed.

Lemma emits_promiseAll_cons {A} (m : M A) (rest : list (M A)) w
      (Q : Res (list A) -> list Event -> World -> Prop) :
  emits m w (fun ra tr1 w1 =>
    emits (promiseAll rest) w1 (fun rb tr2 w2 =>
      Q (match both ra rb with
         | Ok (x, xs) => Ok (x :: xs)
         | Throw e => Throw e
         | OutOfFuel => OutOfFuel
         end) (tr1 ++ tr2)%list w2)) ->
  emits (promiseAll (m :: rest)) w Q.
Proof.
  unfold emits. cbn [promiseAll]. intros (tr1 & Ht1 & tr2 & Ht2 & H).
  destruct (m w) as [ra w1]; cbn in *.
  destruct (promiseAll rest w1) as [rb w2]; cbn in *.
  exists (tr1 ++ tr2)%list. by rewrite Ht2, Ht1, app_assoc.
Qed.

Module WarmupFacts.
Import ProfitabilityAnalyzer.

(** The coin id under which [fetchTokenPrice] asks for a token. *)
Lemma warmupOne_known E token chainId coinId w :
  match chainId with
  | ChainNum _ => Js.lookup coinGeckoIds token = Some coinId
  | ChainStr _ => Js.lookup cosmosTokens token = Some coinId
  end ->
  priceCache w !! priceCacheKey token chainId = None ->
  emits (warmupOne E (token, chainId)) w
        (fun r tr w' =>
           r = Ok tt /\
           ((exists v,
                tr = [Ev (AxiosGetPrice coinId) (Returns v)] /\
                priceCache w'
                  = <[priceCacheKey token chainId
                        := (Js.orNumber v 1, clock w')]> (priceCache w)) \/
            (exists e,
                tr = [Ev (AxiosGetPrice coinId) (Throws e);
                      Log LWarn "Failed to fetch price, using fallback" [token]] /\
                priceCache w' = priceCache w))).
Proof.
  intros Hknown Hmiss.
  unfold warmupOne, getTokenPrice, fetchTokenPrice, fetchCosmosTokenPrice.
  cbn [fst snd].
  mstep. mstep. mstep. mstep. rewrite Hmiss. mstep.
  destruct chainId; rewrite Hknown; msteps; cbn; split; eauto.
Qed.

End WarmupFacts.

Module WarmupTheorems.
Import ProfitabilityAnalyzer TraceSpec WarmupFacts.

(** X6.  [initialize] never rejects, whatever the price feed does.
    Started with an empty price cache it asks for exactly three quotes
    (ethereum, cosmos, osmosis), and each of the three common tokens
    ends up cached if its quote arrived and absent from the cache if
    its request failed. *)
Theorem initialize_warms_the_cache (E : Env) (w : World) :
  priceCache w = ∅ ->
  exists tr w',
    initialize E w = (Ok tt, w') /\
    trace w' = (trace w ++ tr)%list /\
    length (requests tr) = 3%nat /\
    forall token chainId coinId,
      (token, chainId, coinId)
        ∈ [("0xC02aaA39b223FE8D0A0e5C4F27eAD9083C756Cc2", ChainNum 1, "ethereum");
           ("uatom", ChainStr "cosmoshub-4", "cosmos");
           ("uosmo", ChainStr "osmosis-1", "osmosis")] ->
      (exists v t,
          Ev (AxiosGetPrice coinId) (Returns v) ∈ tr /\
          priceCache w' !! priceCacheKey token chainId
            = Some (Js.orNumber v 1, t)) \/
      (exists e,
          Ev (AxiosGetPrice coinId) (Throws e) ∈ tr /\
          priceCache w' !! priceCacheKey token chainId = None).
Proof.
  intros Hempty.
  assert (Hk1 : priceCacheKey "0xC02aaA39b223FE8D0A0e5C4F27eAD9083C756Cc2"
                              (ChainNum 1)
                = "1-0xC02aaA39b223FE8D0A0e5C4F27eAD9083C756Cc2")
    by (vm_compute; reflexivity).
  assert (Hk2 : priceCacheKey "uatom" (ChainStr "cosmoshub-4")
                = "cosmoshub-4-uatom") by reflexivity.
  assert (Hk3 : priceCacheKey "uosmo" (ChainStr "osmosis-1")
                = "osmosis-1-uosmo") by reflexivity.
  apply emits_returns.
  unfold initialize, warmupPriceCache. cbn [map commonTokens].
  mstep. mstep. mstep. mstep.
  apply emits_promiseAll_cons.
  muse (warmupOne_known E "0xC02aaA39b223FE8D0A0e5C4F27eAD9083C756Cc2"
                        (ChainNum 1) "ethereum");
    [reflexivity | cbn; by rewrite Hempty, lookup_empty |].
  intros (-> & H1).
  apply emits_promiseAll_cons.
  muse (warmupOne_known E "uatom" (ChainStr "cosmoshub-4") "cosmos");
    [reflexivity | |].
  { destruct H1 as [(v & _ & ->)|(e & _ & ->)]; cbn;
      rewrite Hempty, ?Hk1, ?Hk2; by simplify_map_eq. }
  intros (-> & H2).
  apply emits_promiseAll_cons.
  muse (warmupOne_known E "uosmo" (ChainStr "osmosis-1") "osmosis");
    [reflexivity | |].
  { destruct H1 as [(v1 & _ & H1)|(e1 & _ & H1)];
    destruct H2 as [(v2 & _ & H2)|(e2 & _ & H2)];
      rewrite H2, H1; cbn; rewrite Hempty, ?Hk1, ?Hk2, ?Hk3; by simplify_map_eq. }
  intros (-> & H3).
  apply emits_promiseAll_nil. cbn [both]. msteps.
  split; [done|].
  destruct H1 as [(v1 & -> & H1)|(e1 & -> & H1)];
  destruct H2 as [(v2 & -> & H2)|(e2 & -> & H2)];
  destruct H3 as [(v3 & -> & H3)|(e3 & -> & H3)].
  all: split; [reflexivity|].
  all: cbn [priceCache set_trace] in *; rewrite H3, H2, H1, Hempty, ?Hk1, ?Hk2, ?Hk3.
  all: intros token chainId coinId Hin;
    repeat (apply elem_of_cons in Hin as [[= -> -> ->]|Hin]);
    try (by apply elem_of_nil in Hin);
    rewrite ?Hk1, ?Hk2, ?Hk3.
  all: first
         [ left; do 2 eexists; split;
           [ cbn; repeat first [apply list_elem_of_here | apply list_elem_of_further]
           | simplify_map_eq; reflexivity ]
         | right; eexists; split;
           [ cbn; repeat first [apply list_elem_of_here | apply list_elem_of_further]
           | simplify_map_eq; reflexivity ] ].
Qed.

Lemma initialize_warms_the_cache_witness :
  exists tr w',
    initialize Scenario.evenEnv (emptyWorld Scenario.now0) = (Ok tt, w') /\
    trace w' = (trace (emptyWorld Scenario.now0) ++ tr)%list /\
    length (requests tr) = 3%nat /\
    forall token chainId coinId,
      (token, chainId, coinId)
        ∈ [("0xC02aaA39b223FE8D0A0e5C4F27eAD9083C756Cc2", ChainNum 1, "ethereum");
           ("uatom", ChainStr "cosmoshub-4", "cosmos");
           ("uosmo", ChainStr "osmosis-1", "osmosis")] ->
      (exists v t,
          Ev (AxiosGetPrice coinId) (Returns v) ∈ tr /\
          priceCache w' !! priceCacheKey token chainId
            = Some (Js.orNumber v 1, t)) \/
      (exists e,
          Ev (AxiosGetPrice coinId) (Throws e) ∈ tr /\
          priceCache w' !! priceCacheKey token chainId = None).
Proof.
  apply (initialize_warms_the_cache Scenario.evenEnv (emptyWorld Scenario.now0)).
  reflexivity.
Defined.

(** The warm-up against a feed that knows ethereum and cosmos but not
    osmosis: two entries are cached, the third request fails and the
    warm-up still completes. *)
Example initialize_with_a_partial_feed :
  exists w',
    initialize Scenario.evenEnv (emptyWorld Scenario.now0) = (Ok tt, w') /\
    priceCache w' !! "1-0xC02aaA39b223FE8D0A0e5C4F27eAD9083C756Cc2"
      = Some (2500%float, Scenario.now0 + 40) /\
    priceCache w' !! "osmosis-1-uosmo" = None.
Proof. eexists. vm_compute. repeat split. Qed.
End WarmupTheorems.

(* ===================================================================== *)
(** ** Fetching and submitting orders *)
(* ===================================================================== *)

Module IntakeTheorems.
Import OrderMonitor OrderMonitorSpec TraceSpec.

(** X7.  [fetchPendingOrders] never rejects and asks exactly once, for
    the orders since [lastCheckedTimestamp].  If the request fails the
    answer is the empty list and the timestamp stays; if it succeeds
    the answer is the fetched orders in the same order, each reset to
    status ['pending'], gas cost ['0'] and no profitability, and the
    timestamp moves to the current time only when at least one order
    came back. *)
Theorem fetchPendingOrders_never_rejects (E : Env) (w : World) :
  exists orders tr w' o,
    fetchPendingOrders E w = (Ok orders, w') /\
    trace w' = (trace w ++ tr)%list /\
    requests tr = [Ev (AxiosGetOrders (lastCheckedTimestamp w)) o] /\
    match o with
    | Returns raw =>
        orders = map transformOrder raw /\
        lastCheckedTimestamp w'
          = (if raw is [] then lastCheckedTimestamp w else clock w')
    | Throws _ =>
        orders = [] /\ lastCheckedTimestamp w' = lastCheckedTimestamp w
    end /\
    Forall (fun order =>
              Order.status order = StPending /\
              Order.estimatedGasCost order = "0" /\
              Order.profitability order = None) orders.
Proof.
  assert (H : emits (fetchPendingOrders E) w
                (fun r tr w' =>
                   exists orders o,
                     r = Ok orders /\
                     requests tr = [Ev (AxiosGetOrders (lastCheckedTimestamp w)) o] /\
                     match o with
                     | Returns raw =>
                         orders = map transformOrder raw /\
                         lastCheckedTimestamp w'
                           = (if raw is [] then lastCheckedTimestamp w else clock w')
                     | Throws _ =>
                         orders = [] /\
                         lastCheckedTimestamp w' = lastCheckedTimestamp w
                     end)).
  { unfold fetchPendingOrders. msteps.
    all: do 2 eexists; split; [reflexivity|]; split; [reflexivity|]; by cbn. }
  destruct (emits_run _ _ _ H)
    as (r & tr & w' & Hrun & Htr & orders & o & -> & Hreq & Ho).
  exists orders, tr, w', o. repeat (split; [done|]).
  destruct o as [raw|e]; destruct Ho as [-> _]; [|constructor].
  apply Forall_forall. intros order (raw0 & -> & _)%list_elem_of_fmap.
  done.
Qed.

End IntakeTheorems.

Module RouteTheorems.
Import OrderMonitor OrderMonitorSpec OrderMonitorTheorems Routes.

(** The handler's own check is one that [validateOrder] makes too. *)
Lemma precheck_rejected E o now :
  negb (truthy_opt_string (Submission.orderHash o))
  || negb (truthy_opt_string (Submission.maker o))
  || negb (truthy_opt_string (Submission.srcAmount o))
  || negb (truthy_opt_string (Submission.dstAmount o)) = true ->
  rejected E o now = true.
Proof.
  intros Hp. apply rejected_iff. left.
  rewrite !orb_true_iff, !negb_true_iff, !truthy_opt_string_false in Hp.
  unfold missingField. tauto.
Qed.

(** X8.  [POST /api/orders] always answers 200 or 400, never 500, for
    a body of the order type, and it only logs.  It answers 400, with
    [success = false], exactly when a required field is missing, or
    the deadline is not ahead, or an amount parses to a number [<= 0],
    or a chain is not supported; otherwise it answers 200 with
    [success = true], the order's hash and the fill-time estimate.  An
    amount that parses to no number at all is no reason to reject:
    [NaN <= 0] is false.  The handler's own four-field check never
    changes the verdict of [submitOrder]. *)
Theorem postOrders_answers (E : Env) (o : Submission.t) (w : World) :
  exists resp tr w',
    postOrders E o w = (Ok resp, w') /\
    trace w' = (trace w ++ tr)%list /\ Forall isLog tr /\
    (SubmissionResponse.code resp = 200 \/ SubmissionResponse.code resp = 400) /\
    (SubmissionResponse.code resp = 400 <->
     missingField o \/ deadlineNotAhead o (clock w) \/
     notPositive E (Submission.srcAmount o) \/
     notPositive E (Submission.dstAmount o) \/
     unsupported (Submission.srcChainId o) \/
     unsupported (Submission.dstChainId o)) /\
    (SubmissionResponse.code resp = 200 ->
     SubmissionResponse.success resp = true /\
     SubmissionResponse.orderHash resp = Submission.orderHash o /\
     SubmissionResponse.estimatedFillTime resp = Some "2-5 minutes") /\
    (SubmissionResponse.code resp = 400 ->
     SubmissionResponse.success resp = false /\
     SubmissionResponse.orderHash resp = None).
Proof.
  assert (H : emits (postOrders E o) w
                (fun r tr w' =>
                   exists resp, r = Ok resp /\ Forall isLog tr /\
                     (if rejected E o (clock w)
                      then SubmissionResponse.code resp = 400 /\
                           SubmissionResponse.success resp = false /\
                           SubmissionResponse.orderHash resp = None
                      else SubmissionResponse.code resp = 200 /\
                           SubmissionResponse.success resp = true /\
                           SubmissionResponse.orderHash resp = Submission.orderHash o /\
                           SubmissionResponse.estimatedFillTime resp
                             = Some "2-5 minutes"))).
  { unfold postOrders. mstep. mstep. mstep. mstep.
    - rewrite (precheck_rejected E o (clock w) Heqb). mstep. eexists. split; [reflexivity|].
      split; [|done]. repeat constructor. unfold isLog. eauto.
    - mstep. apply run_emits.
      destruct (submitOrder_run E o
                  (set_trace
                     (fun t => (t ++ [Log LInfo "Order submission request"
                                          [shownHash (Submission.orderHash o)]])%list)
                     w))
        as (res & tr & w' & Hrun & Htr & Hlogs & Hsucc).
      cbn [clock set_trace] in Hsucc.
      exists (Ok res), tr, w'. split; [done|]. split; [done|].
      destruct (rejected E o (clock w)) eqn:Hrej; cbn in Hsucc; rewrite Hsucc.
      + msteps. eexists. split; [reflexivity|]. split; [|done].
        apply Forall_app; split; [repeat constructor; unfold isLog; eauto|].
        apply Forall_app; split; [done|].
        repeat constructor; unfold isLog; eauto.
      + destruct (Submission.orderHash o) as [h|] eqn:Hh; msteps.
        * eexists. split; [reflexivity|]. split; [|done].
          apply Forall_app; split; [repeat constructor; unfold isLog; eauto|].
          apply Forall_app; split; [done|].
          repeat constructor; unfold isLog; eauto.
        * exfalso. cbn in Heqb. done. }
  destruct (emits_run _ _ _ H)
    as (r & tr & w' & Hrun & Htr & resp & -> & Hlogs & Hv).
  exists resp, tr, w'. repeat (split; [done|]).
  rewrite <- rejected_iff.
  destruct (rejected E o (clock w)).
  - destruct Hv as (Hc & Hs & Hh). rewrite Hc. intuition congruence.
  - destruct Hv as (Hc & Hs & Hh & Hf). rewrite Hc. intuition congruence.
Qed.

(** X9.  [GET /api/orders/:orderHash] answers 200 and looks at nothing
    but the keys of [activeOrders], cut to ten characters.  It reports
    ['executing'] exactly when some active order's hash has the same
    first ten characters as the hash asked for; any other hash --
    including one the resolver has never seen -- is reported
    ['completed'], every step done, with the fixed transaction
    hashes. *)
Theorem getOrder_reports
        (resolver : CrossChainResolver.t) (orderHash : string) (w : World) :
  exists resp w',
    getOrder resolver orderHash w = (Ok resp, w') /\
    OrderStatusResponse.code resp = 200 /\
    OrderStatusResponse.orderHash resp = orderHash /\
    (OrderStatusResponse.status resp = "executing" <->
     exists h, h ∈ JsMap.keys (activeOrders w) /\
               Js.slice10 h = Js.slice10 orderHash) /\
    (OrderStatusResponse.status resp <> "executing" ->
     OrderStatusResponse.status resp = "completed" /\
     Forall (fun p => Progress.completed p = true)
            (OrderStatusResponse.progress resp) /\
     OrderStatusResponse.transactionHashes resp
       = Some (TransactionHashes.mk "0x1234...5678" "cosmos123...789"
                                    "0xabcd...efgh")).
Proof.
  unfold getOrder, try_catch, bind, log, modify, CrossChainResolver.getStatus,
         gets, dateNow, ret.
  cbn.
  destruct (existsb _ _) eqn:Hact.
  - eexists _, _. split; [reflexivity|]. cbn. repeat split; try done.
    apply existsb_exists in Hact as (h10 & Hin & Heq%String.eqb_eq).
    apply list_elem_of_In, list_elem_of_fmap in Hin as (h & -> & Hin). eauto.
  - eexists _, _. split; [reflexivity|]. cbn. repeat split; try done.
    + intros (h & Hin & Heq). exfalso.
      apply not_true_iff_false in Hact. apply Hact.
      apply existsb_exists. exists (Js.slice10 h). split.
      * apply list_elem_of_In, list_elem_of_fmap. eauto.
      * by apply String.eqb_eq.
    + repeat constructor.
Qed.

(** An order hash nobody ever submitted is reported as completed. *)
Example getOrder_unknown_hash :
  exists resp w',
    getOrder (CrossChainResolver.mk true) "0xnever-submitted"
             (emptyWorld Scenario.now0) = (Ok resp, w') /\
    OrderStatusResponse.status resp = "completed".
Proof. do 2 eexists. vm_compute. repeat split. Qed.

End RouteTheorems.

(* ===================================================================== *)
(** ** What the executor asks of the chains *)
(* ===================================================================== *)

Module ExecutorFacts.
Import EscrowExecutor TraceSpec.

Lemma approveToken_asks E token spender amount w :
  emits (approveToken E token spender amount) w
        (fun r tr w' =>
           locks tr = [] /\
           (approvals tr = [] \/
            exists required allowance,
              parseUnits E amount 18 = Some required /\
              allowances tr = [allowance] /\
              allowance < required /\
              approvals tr = [(token, spender, required)]) /\
           (r = Ok tt ->
            exists required allowance,
              parseUnits E amount 18 = Some required /\
              allowances tr = [allowance] /\
              (approvals tr = [] <-> required <= allowance))).
Proof.
  unfold approveToken, parseUnitsM. msteps.
  all: repeat match goal with
              | H : Z.ltb _ _ = true |- _ => apply Z.ltb_lt in H
              | H : Z.ltb _ _ = false |- _ => apply Z.ltb_ge in H
              end.
  all: cbn; split; [done|]; split;
    [ first [by left | right; eauto 10] |].
  all: try (intros [=]; fail).
  all: intros _; do 2 eexists; split; [reflexivity|]; split; [reflexivity|].
  all: split; [intros; try done; lia | intros; try done; lia].
Qed.

Lemma locks_app a b : locks (a ++ b) = (locks a ++ locks b)%list.
Proof. apply omap_app. Qed.
Lemma approvals_app a b : approvals (a ++ b) = (approvals a ++ approvals b)%list.
Proof. apply omap_app. Qed.
Lemma allowances_app a b : allowances (a ++ b) = (allowances a ++ allowances b)%list.
Proof. apply omap_app. Qed.
Lemma signers_app a b : signers (a ++ b) = (signers a ++ signers b)%list.
Proof. apply omap_app. Qed.
Lemma refunds_app a b : refunds (a ++ b) = (refunds a ++ refunds b)%list.
Proof. apply omap_app. Qed.
Lemma claims_app a b : claims (a ++ b) = (claims a ++ claims b)%list.
Proof. apply omap_app. Qed.
Lemma cosmosSends_app a b : cosmosSends (a ++ b) = (cosmosSends a ++ cosmosSends b)%list.
Proof. apply omap_app. Qed.

Ltac proj_app :=
  rewrite ?locks_app, ?approvals_app, ?allowances_app, ?signers_app,
          ?refunds_app, ?claims_app, ?cosmosSends_app.

Ltac mspec ::=
  lazymatch goal with
  | |- emits (approveToken _ _ _ _) _ _ =>
      muse approveToken_asks; intros (? & ? & ?)
  end.

Lemma lockEvmEscrow_asks E order type w :
  let chainId := chainOf order type in
  let amount :=
    match type with Source => Order.srcAmount order | Destination => Order.dstAmount order end in
  let token :=
    match type with Source => Order.srcToken order | Destination => Order.dstToken order end in
  emits (lockEvmEscrow E order type) w
        (fun r tr w' =>
           (locks tr = [] \/
            exists units recipient,
              parseUnits E amount 18 = Some units /\
              locks tr
                = [LockRequest.mk type (addresses E chainId) (Order.secretHash order)
                                  token units (clock w / 1000 + 7200) recipient
                                  (if String.eqb token ZeroAddress then units else 0)] /\
              match type with
              | Source => recipient ∈ signers tr
              | Destination => recipient = Order.maker order
              end) /\
           (if String.eqb token ZeroAddress
            then approvals tr = [] /\ allowances tr = []
            else approvals tr = [] \/
                 exists units allowance,
                   parseUnits E amount 18 = Some units /\
                   allowances tr = [allowance] /\ allowance < units /\
                   approvals tr = [(token, addresses E chainId, units)]) /\
           (forall t, r = Ok t ->
              locks tr <> [] /\
              TransactionResult.chainId t = chainIdToString chainId /\
              TransactionResult.blockNumber t = 0 /\
              TransactionResult.gasUsed t = "300000" /\
              TransactionResult.status t = TxPending)).
Proof.
  unfold lockEvmEscrow, getEscrowAddress, parseUnitsM.
  destruct type; cbn [chainOf]; cbv zeta; mgo.
  all: try match goal with
           | |- context [if String.eqb ?a ?b then _ else _] =>
               destruct (String.eqb a b) eqn:?
           end.
  all: proj_app; cbn; rewrite ?app_nil_r;
    repeat match goal with
           | H : locks ?t = _ |- _ => rewrite H; clear H
           end; cbn.
  all: split;
    [ try first [ by left
            | right; do 2 eexists; split; [reflexivity|]; split; [reflexivity|];
              first [ reflexivity
                    | apply list_elem_of_here
                    | rewrite elem_of_app; right; apply list_elem_of_here ] ]
    |].
  all: try (split; [| first [ by intros ? [=]
                          | intros ? [= <-]; cbn; done ] ]).
  all: try done.
  all: by left.
Qed.

Ltac mspec ::= fail.

Lemma lockCosmosEscrow_asks E order type w :
  let amount :=
    match type with Source => Order.srcAmount order | Destination => Order.dstAmount order end in
  let denom :=
    match type with Source => Order.srcToken order | Destination => Order.dstToken order end in
  emits (lockCosmosEscrow E order type) w
        (fun r tr w' =>
           locks tr = [] /\
           (cosmosSends tr = [] \/
            exists units from,
              parseUnits E amount 6 = Some units /\
              cosmosSends tr
                = [(type, from, denom, pretty units,
                    "Escrow lock for order " ++ Js.slice10 (Order.orderHash order))]) /\
           (forall t, r = Ok t -> TransactionResult.chainId t = "cosmoshub-4") /\
           (forall b, omap broadcastOf tr = [b] ->
              if Z.eqb (Broadcast.code b) 0
              then exists t, r = Ok t /\
                     TransactionResult.gasUsed t = pretty (Broadcast.gasUsed b)
              else r = Throw (Js.Error ("Cosmos transaction failed: "
                                          ++ Broadcast.rawLog b)))).
Proof.
  unfold lockCosmosEscrow, parseUnitsM.
  destruct type; cbv zeta; msteps.
  all: cbn; split; [done|]; split; [first [by left | right; eauto]|].
  all: split; [first [by intros ? [=] | by intros ? [= <-]]|].
  all: intros b [=]; subst.
  all: match type of Heqb with
       | negb _ = true => apply negb_true_iff in Heqb
       | negb _ = false => apply negb_false_iff in Heqb
       end; rewrite Heqb; eauto.
Qed.

Lemma revealSecretAndClaim_asks E order decision w :
  emits (revealSecretAndClaim E order decision) w
        (fun r tr w' =>
           locks tr = [] /\ refunds tr = [] /\
           if isString (Order.srcChainId order)
           then claims tr = []
           else claims tr = [] \/
                exists secret,
                  Ev RandomBytes32 (Returns secret) ∈ tr /\
                  claims tr
                    = [(Source, addresses E (Order.srcChainId order), secret)]).
Proof.
  unfold revealSecretAndClaim, claimFromEscrow, claimFromCosmosEscrow,
         claimFromEvmEscrow, getEscrowAddress.
  msteps.
  all: cbn; split; [done|]; split; [done|]; try done.
  all: try first [ by left
             | right; eexists; split; [|reflexivity];
               repeat first [apply list_elem_of_here | apply list_elem_of_further] ].
  destruct (isString _); [done|by left].
Qed.

Lemma cancelEvmEscrow_asks E order type w :
  emits (cancelEvmEscrow E order type) w
        (fun r tr w' =>
           locks tr = [] /\ claims tr = [] /\ List.filter isSleep tr = [] /\
           if Js.truthy_string (addresses E (chainOf order type))
           then r = Ok tt /\
                refunds tr = [(type, addresses E (chainOf order type),
                               Order.secretHash order)]
           else (exists e, r = Throw e) /\ refunds tr = []).
Proof.
  unfold cancelEvmEscrow, getEscrowAddress.
  destruct type; cbn [chainOf]; msteps.
  all: cbn; split; [done|]; split; [done|]; split; [done|]; eauto.
Qed.

Ltac mspec ::=
  lazymatch goal with
  | |- emits (cancelEvmEscrow _ _ _) _ _ =>
      let H := fresh "H" in
      muse cancelEvmEscrow_asks; cbn [chainOf]; intros (? & ? & ? & H);
      match type of H with
      | if ?b then _ else _ =>
          destruct b eqn:?; [destruct H as [-> ?] | destruct H as [[? ->] ?]]
      end
  end.

Lemma cancelEscrows_asks E order w :
  emits (cancelEscrows E order) w
        (fun r tr w' =>
           r = Ok tt /\ locks tr = [] /\ claims tr = [] /\
           refunds tr = expectedRefunds E order /\
           List.filter isSleep tr = []).
Proof.
  unfold cancelEscrows, expectedRefunds.
  mgo.
  all: proj_app; rewrite ?List.filter_app; cbn;
    repeat match goal with
           | H : locks _ = _ |- _ => rewrite H; clear H
           | H : claims _ = _ |- _ => rewrite H; clear H
           | H : refunds _ = _ |- _ => rewrite H; clear H
           | H : List.filter isSleep _ = _ |- _ => rewrite H; clear H
           end; cbn.
  all: done.
Qed.

End ExecutorFacts.

Module ExecutorFrames.
Import EscrowExecutor CrossChainResolver FrameSpec.

(** The executor holds no state of the resolver: nothing it does
    touches the caches, the processed set or the maps of active orders
    and swaps. *)
Section Frames.
Context {X : Type} (f : World -> X) (Hq : quiet f).

Ltac q := repeat first [keeps_step | apply keeps_log; exact Hq
                        | apply keeps_call; exact Hq
                        | apply keeps_sleep; exact Hq ].

Lemma keeps_parseUnitsM E amount decimals : keeps f (parseUnitsM E amount decimals).
Proof. unfold parseUnitsM. q. Qed.

Lemma keeps_approveToken E token spender amount :
  keeps f (approveToken E token spender amount).
Proof. unfold approveToken, parseUnitsM. q. Qed.

Lemma keeps_lockSourceEscrow E order decision :
  keeps f (lockSourceEscrow E order decision).
Proof.
  unfold lockSourceEscrow, lockCosmosEscrow, lockEvmEscrow, getEscrowAddress,
         approveToken, parseUnitsM.
  q.
Qed.

Lemma keeps_lockDestinationEscrow E order decision :
  keeps f (lockDestinationEscrow E order decision).
Proof.
  unfold lockDestinationEscrow, lockCosmosEscrow, lockEvmEscrow,
         getEscrowAddress, approveToken, parseUnitsM.
  q.
Qed.

Lemma keeps_revealSecretAndClaim E order decision :
  keeps f (revealSecretAndClaim E order decision).
Proof.
  unfold revealSecretAndClaim, claimFromEscrow, claimFromCosmosEscrow,
         claimFromEvmEscrow, getEscrowAddress.
  q.
Qed.

Lemma keeps_isTransactionConfirmed E txHash chain :
  keeps f (isTransactionConfirmed E txHash chain).
Proof. unfold isTransactionConfirmed. q. Qed.

Lemma keeps_cancelEscrows E order : keeps f (cancelEscrows E order).
Proof. unfold cancelEscrows, cancelEvmEscrow, getEscrowAddress. q. Qed.

Lemma keeps_handleFailedSwap E order error :
  keeps f (handleFailedSwap E order error).
Proof.
  unfold handleFailedSwap. q. apply keeps_cancelEscrows.
Qed.

Lemma keeps_waitLoop E fuel sourceTxHash destTxHash startTime :
  keeps f (waitLoop E fuel sourceTxHash destTxHash startTime).
Proof.
  induction fuel as [|fuel IH]; cbn [waitLoop]; q.
  all: try apply keeps_isTransactionConfirmed.
  all: q.
  all: exact IH.
Qed.

Lemma keeps_waitForEscrowConfirmations E sourceTxHash destTxHash :
  keeps f (waitForEscrowConfirmations E sourceTxHash destTxHash).
Proof. unfold waitForEscrowConfirmations. q. apply keeps_waitLoop. Qed.

End Frames.
End ExecutorFrames.

Module ExecutorTheorems.
Import EscrowExecutor TraceSpec ExecutorFacts.

(** X10.  [approveToken] approves only what is missing.  It sends an
    [approve] only after the token contract answered an allowance below
    the required amount ([amount] at 18 decimals), and then for exactly
    that amount and for the given spender; when it resolves, it has
    approved if and only if the allowance was too low.  It never locks
    funds. *)
Theorem approveToken_approves_what_is_missing
        (E : Env) (token spender amount : string) (w : World) :
  exists r tr w',
    approveToken E token spender amount w = (r, w') /\
    trace w' = (trace w ++ tr)%list /\
    locks tr = [] /\
    (approvals tr = [] \/
     exists required allowance,
       parseUnits E amount 18 = Some required /\
       allowances tr = [allowance] /\
       allowance < required /\
       approvals tr = [(token, spender, required)]) /\
    (r = Ok tt ->
     exists required allowance,
       parseUnits E amount 18 = Some required /\
       allowances tr = [allowance] /\
       (approvals tr = [] <-> required <= allowance)).
Proof.
  destruct (emits_run _ _ _ (approveToken_asks E token spender amount w))
    as (r & tr & w' & Hrun & Htr & H).
  by exists r, tr, w'.
Qed.

(** X11.  What [lockEvmEscrow] asks of the chain.  At most one
    [lockFunds] is sent, to the escrow configured for the leg's chain,
    with the order's secret hash, the leg's token and its amount at 18
    decimals.  The timelock is always two hours after the time the
    method was entered, in seconds -- the order's own [timeLocks] and
    deadline play no part.  The recipient is the resolver's signer for
    the source leg and the maker for the destination leg; the value
    sent is the amount for the native token and 0 otherwise.  For the
    native token nothing is asked of a token contract.  A result, when
    there is one, is ['pending'] at block 0 with gas ['300000']. *)
Theorem lockEvmEscrow_request (E : Env) (order : Order.t) (type : Side) (w : World) :
  let chainId := chainOf order type in
  let amount :=
    match type with Source => Order.srcAmount order | Destination => Order.dstAmount order end in
  let token :=
    match type with Source => Order.srcToken order | Destination => Order.dstToken order end in
  exists r tr w',
    lockEvmEscrow E order type w = (r, w') /\
    trace w' = (trace w ++ tr)%list /\
    (locks tr = [] \/
     exists units recipient,
       parseUnits E amount 18 = Some units /\
       locks tr
         = [LockRequest.mk type (addresses E chainId) (Order.secretHash order)
                           token units (clock w / 1000 + 7200) recipient
                           (if String.eqb token ZeroAddress then units else 0)] /\
       match type with
       | Source => recipient ∈ signers tr
       | Destination => recipient = Order.maker order
       end) /\
    (if String.eqb token ZeroAddress
     then approvals tr = [] /\ allowances tr = []
     else approvals tr = [] \/
          exists units allowance,
            parseUnits E amount 18 = Some units /\
            allowances tr = [allowance] /\ allowance < units /\
            approvals tr = [(token, addresses E chainId, units)]) /\
    (forall t, r = Ok t ->
       locks tr <> [] /\
       TransactionResult.chainId t = chainIdToString chainId /\
       TransactionResult.blockNumber t = 0 /\
       TransactionResult.gasUsed t = "300000" /\
       TransactionResult.status t = TxPending).
Proof.
  intros chainId amount token.
  destruct (emits_run _ _ _ (lockEvmEscrow_asks E order type w))
    as (r & tr & w' & Hrun & Htr & H).
  by exists r, tr, w'.
Qed.

(** X12.  What [lockCosmosEscrow] asks and reports.  At most one
    transaction is broadcast: the leg's denom and its amount at 6
    decimals, with the memo "Escrow lock for order <hash>"; no EVM lock
    is sent.  A broadcast answered with a non-zero code makes the
    method reject with "Cosmos transaction failed: <rawLog>"; one
    answered with code 0 makes it resolve.  The result's [chainId] is
    always ['cosmoshub-4'], whatever Cosmos chain the order names. *)
Theorem lockCosmosEscrow_request (E : Env) (order : Order.t) (type : Side) (w : World) :
  let amount :=
    match type with Source => Order.srcAmount order | Destination => Order.dstAmount order end in
  let denom :=
    match type with Source => Order.srcToken order | Destination => Order.dstToken order end in
  exists r tr w',
    lockCosmosEscrow E order type w = (r, w') /\
    trace w' = (trace w ++ tr)%list /\
    locks tr = [] /\
    (cosmosSends tr = [] \/
     exists units from,
       parseUnits E amount 6 = Some units /\
       cosmosSends tr
         = [(type, from, denom, pretty units,
             "Escrow lock for order " ++ Js.slice10 (Order.orderHash order))]) /\
    (forall t, r = Ok t -> TransactionResult.chainId t = "cosmoshub-4") /\
    (forall b, omap broadcastOf tr = [b] ->
       if Z.eqb (Broadcast.code b) 0
       then exists t, r = Ok t /\
              TransactionResult.gasUsed t = pretty (Broadcast.gasUsed b)
       else r = Throw (Js.Error ("Cosmos transaction failed: "
                                   ++ Broadcast.rawLog b))).
Proof.
  intros amount denom.
  destruct (emits_run _ _ _ (lockCosmosEscrow_asks E order type w))
    as (r & tr & w' & Hrun & Htr & H).
  by exists r, tr, w'.
Qed.

(** An order for the Osmosis chain is reported locked on
    ['cosmoshub-4']. *)
Example lockCosmosEscrow_osmosis :
  exists t w',
    lockCosmosEscrow Scenario.calmEnv Scenario.osmosisOrder Destination
                     (emptyWorld Scenario.now0) = (Ok t, w') /\
    Order.dstChainId Scenario.osmosisOrder = ChainStr "osmosis-1" /\
    TransactionResult.chainId t = "cosmoshub-4".
Proof. do 2 eexists. vm_compute. repeat split. Qed.

(** X13.  [revealSecretAndClaim] reads nothing of the order but its
    source chain and its hash, and nothing of the decision: the secret
    it claims with is the 32 random bytes it has just drawn, not one
    tied to the order's [secretHash].  On an EVM source chain it sends
    at most one [claimFunds], to the source escrow, with that secret;
    on a Cosmos source chain it sends no claim at all.  It never locks
    or refunds. *)
Theorem revealSecretAndClaim_uses_a_fresh_secret
        (E : Env) (order : Order.t) (decision : Decision.t) (w : World) :
  (forall order' decision',
      Order.srcChainId order' = Order.srcChainId order ->
      Order.orderHash order' = Order.orderHash order ->
      revealSecretAndClaim E order' decision' w
      = revealSecretAndClaim E order decision w) /\
  exists r tr w',
    revealSecretAndClaim E order decision w = (r, w') /\
    trace w' = (trace w ++ tr)%list /\
    locks tr = [] /\ refunds tr = [] /\
    if isString (Order.srcChainId order)
    then claims tr = []
    else claims tr = [] \/
         exists secret,
           Ev RandomBytes32 (Returns secret) ∈ tr /\
           claims tr = [(Source, addresses E (Order.srcChainId order), secret)].
Proof.
  split.
  - intros order' decision' Hc Hh.
    unfold revealSecretAndClaim, claimFromEscrow, claimFromCosmosEscrow,
           claimFromEvmEscrow.
    by rewrite Hc, Hh.
  - destruct (emits_run _ _ _ (revealSecretAndClaim_asks E order decision w))
      as (r & tr & w' & Hrun & Htr & H).
    by exists r, tr, w'.
Qed.

(** X14.  [cancelEscrows] never rejects, and asks for refunds only:
    one per EVM leg whose chain has an escrow address, the source leg
    first, each with the order's secret hash.  A refund that fails
    does not stop the next one; but a source chain without an escrow
    address ends the attempt before the destination leg is tried.
    Cosmos legs are never refunded. *)
Theorem cancelEscrows_refunds (E : Env) (order : Order.t) (w : World) :
  exists tr w',
    cancelEscrows E order w = (Ok tt, w') /\
    trace w' = (trace w ++ tr)%list /\
    locks tr = [] /\ claims tr = [] /\
    refunds tr = expectedRefunds E order /\
    (isString (Order.srcChainId order) = false ->
     isString (Order.dstChainId order) = false ->
     Js.truthy_string (addresses E (Order.srcChainId order)) = true ->
     Js.truthy_string (addresses E (Order.dstChainId order)) = true ->
     refunds tr = [(Source, addresses E (Order.srcChainId order),
                    Order.secretHash order);
                   (Destination, addresses E (Order.dstChainId order),
                    Order.secretHash order)]) /\
    (isString (Order.srcChainId order) = false ->
     Js.truthy_string (addresses E (Order.srcChainId order)) = false ->
     refunds tr = []) /\
    (isString (Order.srcChainId order) = true ->
     isString (Order.dstChainId order) = true ->
     refunds tr = []).
Proof.
  destruct (emits_returns _ _ _ _ (cancelEscrows_asks E order w))
    as (tr & w' & Hrun & Htr & Hl & Hc & Hr & _).
  exists tr, w'. repeat (split; [done|]).
  rewrite Hr. unfold expectedRefunds.
  split; [|split].
  - by intros -> -> -> ->.
  - by intros -> ->.
  - by intros -> ->.
Qed.

End ExecutorTheorems.

(* ===================================================================== *)
(** ** Orders on their way through the resolver *)
(* ===================================================================== *)

Module SwapFrames.
Import EscrowExecutor CrossChainResolver FrameSpec EscrowFacts ResolverFacts
       ExecutorFrames.

Lemma quiet_resolverState : quiet resolverState.
Proof. by split. Qed.

Lemma frame_lockSourceEscrow E order decision w :
  emits (lockSourceEscrow E order decision) w
        (fun r _ w' => r <> OutOfFuel /\ resolverState w' = resolverState w).
Proof.
  eapply emits_mono;
    [apply (emits_keeps resolverState _ _ _ (lockSourceEscrow_spec E order decision w)
              (keeps_lockSourceEscrow resolverState quiet_resolverState E order decision))|].
  cbv beta. intros r tr w' [(Hr & _) Hf]. done.
Qed.

Lemma frame_lockDestinationEscrow E order decision w :
  emits (lockDestinationEscrow E order decision) w
        (fun r _ w' => r <> OutOfFuel /\ resolverState w' = resolverState w).
Proof.
  eapply emits_mono;
    [apply (emits_keeps resolverState _ _ _ (lockDestinationEscrow_spec E order decision w)
              (keeps_lockDestinationEscrow resolverState quiet_resolverState E order decision))|].
  cbv beta. intros r tr w' [(Hr & _) Hf]. done.
Qed.

Lemma frame_waitForEscrowConfirmations E sourceTxHash destTxHash w :
  emits (waitForEscrowConfirmations E sourceTxHash destTxHash) w
        (fun r _ w' => r <> OutOfFuel /\ resolverState w' = resolverState w).
Proof.
  eapply emits_mono;
    [apply (emits_keeps resolverState _ _ _
              (waitForEscrowConfirmations_spec E sourceTxHash destTxHash w)
              (keeps_waitForEscrowConfirmations resolverState quiet_resolverState E
                 sourceTxHash destTxHash))|].
  cbv beta. intros r tr w' [(Hr & _) Hf]. done.
Qed.

Lemma frame_revealSecretAndClaim E order decision w :
  emits (revealSecretAndClaim E order decision) w
        (fun r _ w' => r <> OutOfFuel /\ resolverState w' = resolverState w).
Proof.
  eapply emits_mono;
    [apply (emits_keeps resolverState _ _ _ (revealSecretAndClaim_spec E order decision w)
              (keeps_revealSecretAndClaim resolverState quiet_resolverState E order decision))|].
  cbv beta. intros r tr w' [(Hr & _) Hf]. done.
Qed.

Lemma frame_handleFailedSwap E order error w :
  emits (handleFailedSwap E order error) w
        (fun r _ w' => r = Ok tt /\ resolverState w' = resolverState w).
Proof.
  eapply emits_mono;
    [apply (emits_keeps resolverState _ _ _ (handleFailedSwap_spec E order error w)
              (keeps_handleFailedSwap resolverState quiet_resolverState E order error))|].
  cbv beta. intros r tr w' [(Hr & _) Hf]. done.
Qed.

Ltac mspec ::=
  lazymatch goal with
  | |- emits (lockSourceEscrow _ _ _) _ _ =>
      muse frame_lockSourceEscrow; intros (? & ?)
  | |- emits (lockDestinationEscrow _ _ _) _ _ =>
      muse frame_lockDestinationEscrow; intros (? & ?)
  | |- emits (waitForEscrowConfirmations _ _ _) _ _ =>
      muse frame_waitForEscrowConfirmations; intros (? & ?)
  | |- emits (revealSecretAndClaim _ _ _) _ _ =>
      muse frame_revealSecretAndClaim; intros (? & ?)
  | |- emits (handleFailedSwap _ _ _) _ _ =>
      muse frame_handleFailedSwap; intros (-> & ?)
  end.

(** Whatever happens to the swap, the order leaves [activeOrders] and
    nothing else of the resolver's state changes. *)
Lemma executeAtomicSwap_state E order decision w :
  emits (executeAtomicSwap E order decision) w
        (fun r _ w' =>
           r = Ok tt /\
           resolverState w'
           = resolverState
               (set_activeOrders
                  (fun m => JsMap.delete m (Order.orderHash order)) w)).
Proof.
  unfold executeAtomicSwap. mgo.
  all: split; [done|].
  all: unfold resolverState in *; cbn in *; simplify_eq; congruence.
Qed.

End SwapFrames.

Module SwapOutcomeTheorems.
Import EscrowExecutor CrossChainResolver FrameSpec TraceSpec
       ResolverFacts SwapFrames JsMapFacts.

Lemma cancelMarks_head E order :
  exists rest, cancelMarks E order = KCancelling :: rest /\
               Forall (fun k => exists t, k = KRefund t) rest.
Proof.
  unfold cancelMarks. eexists. split; [reflexivity|].
  repeat case_match; repeat constructor; eauto.
Qed.

(** X15.  Every run of [executeAtomicSwap] resolves and ends in
    exactly one of two ways: the swap is logged as completed, or the
    cancellation path is entered -- never both, never neither.  Either
    way the order is gone from [activeOrders] afterwards, and nothing
    else of the resolver's state (caches, processed set, other active
    orders, tracked swaps) has changed. *)
Theorem executeAtomicSwap_completes_or_cancels
        (E : Env) (order : Order.t) (decision : Decision.t) (w : World) :
  exists tr w',
    executeAtomicSwap E order decision w = (Ok tt, w') /\
    trace w' = (trace w ++ tr)%list /\
    (KCompleted ∈ marks tr <-> KCancelling ∉ marks tr) /\
    JsMap.get (activeOrders w') (Order.orderHash order) = None /\
    resolverState w'
    = resolverState
        (set_activeOrders (fun m => JsMap.delete m (Order.orderHash order)) w).
Proof.
  destruct (emits_run _ _ _
              (emits_conj _ _ _ _ (executeAtomicSwap_shape E order decision w)
                          (executeAtomicSwap_state E order decision w)))
    as (r & tr & w' & Hrun & Htr & (-> & Hshape) & (_ & Hstate)).
  exists tr, w'. split; [done|]. split; [done|].
  split; [|split; [|done]].
  - destruct (cancelMarks_head E order) as (rest & Hcm & Hrest).
    assert (Hnc : KCompleted ∉ rest).
    { intros Hin. rewrite Forall_forall in Hrest.
      by destruct (Hrest _ Hin) as (t & ?). }
    inversion Hshape as [Heq|? Heq|? Heq|? Heq|? Heq|? Heq];
      rewrite ?Hcm; cbn; rewrite ?elem_of_cons, ?elem_of_nil.
    all: try (split; [intros [?|?]; try done | intros Hn; exfalso; apply Hn; tauto];
              repeat match goal with
                     | H : _ \/ _ |- _ => destruct H as [?|H]; try done
                     end; fail).
    all: split; [intuition discriminate|tauto].
  - assert (Ha : activeOrders w'
                 = JsMap.delete (activeOrders w) (Order.orderHash order)).
    { unfold resolverState in Hstate. cbn in Hstate. by simplify_eq. }
    rewrite Ha. apply get_delete_eq.
Qed.


(** X16.  An order whose source chain is an EVM chain without a
    configured escrow address goes nowhere: [executeAtomicSwap] asks
    nothing of any chain -- no approval, no lock, no refund -- it only
    logs the failure and the cancellation and drops the order from
    [activeOrders].  With the default addresses this is every order
    whose source chain is not Sepolia, chains 1, 56 and 137 of the
    supported list included. *)
Theorem swap_without_source_escrow
        (E : Env) (order : Order.t) (decision : Decision.t) (w : World) :
  isString (Order.srcChainId order) = false ->
  Js.truthy_string (addresses E (Order.srcChainId order)) = false ->
  exists tr w',
    executeAtomicSwap E order decision w = (Ok tt, w') /\
    trace w' = (trace w ++ tr)%list /\
    requests tr = [] /\
    marks tr = [KCancelling] /\
    activeOrders w' = JsMap.delete (activeOrders w) (Order.orderHash order).
Proof.
  intros Hevm Hnone. apply emits_returns.
  unfold executeAtomicSwap, lockSourceEscrow, lockEvmEscrow, getEscrowAddress,
         handleFailedSwap, cancelEscrows, cancelEvmEscrow, getEscrowAddress.
  rewrite Hevm, Hnone. msteps. by cbn.
Qed.

Lemma swap_without_source_escrow_witness :
  exists tr w',
    executeAtomicSwap Scenario.calmEnv Scenario.evenOrder
                      (Scenario.goAhead Scenario.evenOrder)
                      (emptyWorld Scenario.now0) = (Ok tt, w') /\
    trace w' = (trace (emptyWorld Scenario.now0) ++ tr)%list /\
    requests tr = [] /\
    marks tr = [KCancelling] /\
    activeOrders w'
    = JsMap.delete (activeOrders (emptyWorld Scenario.now0))
                   (Order.orderHash Scenario.evenOrder).
Proof.
  apply (swap_without_source_escrow
           Scenario.calmEnv Scenario.evenOrder
           (Scenario.goAhead Scenario.evenOrder) (emptyWorld Scenario.now0));
    reflexivity.
Defined.

End SwapOutcomeTheorems.

Module AdmissionFrames.
Import ProfitabilityAnalyzer EscrowExecutor CrossChainResolver FrameSpec TraceSpec
       ProfitabilityFacts SwapFrames.

Lemma keeps_analyzeOrder E order : keeps bookkeeping (analyzeOrder E order).
Proof.
  unfold analyzeOrder, analyzeOrderWith, analyzeOrder_try, analyzeOrder_catch.
  cbn [self this_getTokenPrice this_estimateGasCosts
       this_checkLiquidityAvailability].
  unfold getTokenPrice, fetchTokenPrice, fetchCosmosTokenPrice,
         estimateGasCosts, checkLiquidityAvailability.
  keeps_go.
Qed.

Lemma getTokenPrice_no_transaction E token chainId w :
  emits (getTokenPrice E token chainId) w
        (fun r tr _ => (exists p, r = Ok p) /\ transactions tr = []).
Proof.
  unfold getTokenPrice, fetchTokenPrice, fetchCosmosTokenPrice.
  msteps; eauto.
Qed.

Lemma estimateGasCosts_no_transaction order w :
  emits (estimateGasCosts order) w
        (fun r tr _ => (exists g, r = Ok g) /\ transactions tr = []).
Proof. unfold estimateGasCosts. msteps; eauto. Qed.

Lemma transactions_app a b :
  transactions (a ++ b) = (transactions a ++ transactions b)%list.
Proof. apply List.filter_app. Qed.

Lemma analyzeOrder_no_transaction E order w :
  emits (analyzeOrder E order) w
        (fun r tr w' =>
           (exists d, r = Ok d) /\ transactions tr = [] /\
           bookkeeping w' = bookkeeping w).
Proof.
  assert (H : emits (analyzeOrder E order) w
                (fun r tr _ => (exists d, r = Ok d) /\ transactions tr = [])).
  { unfold analyzeOrder, analyzeOrderWith, analyzeOrder_try, analyzeOrder_catch.
    cbn [self this_getTokenPrice this_estimateGasCosts
         this_checkLiquidityAvailability].
    msteps.
    muse getTokenPrice_no_transaction. intros ((sp & ->) & Ht1).
    muse getTokenPrice_no_transaction. intros ((dp & ->) & Ht2).
    cbn [both]. msteps.
    muse estimateGasCosts_no_transaction. intros ((g & ->) & Ht3).
    unfold checkLiquidityAvailability. msteps.
    split; [eauto|].
    rewrite !transactions_app, Ht1, Ht2, Ht3. reflexivity. }
  eapply emits_mono;
    [exact (emits_keeps bookkeeping _ _ _ H (keeps_analyzeOrder E order))|].
  cbv beta. by intros r tr w' [[? ?] ?].
Qed.


Lemma delete_set {V} (m : list (string * V)) k v :
  JsMap.delete (JsMap.set m k v) k = JsMap.delete m k.
Proof.
  induction m as [|[k' v'] m IH]; cbn.
  - by rewrite String.eqb_refl.
  - destruct (String.eqb k' k) eqn:Hk; cbn; rewrite Hk; [done|]. by rewrite IH.
Qed.

Ltac mspec ::=
  lazymatch goal with
  | |- emits (analyzeOrder _ _) _ _ =>
      muse analyzeOrder_no_transaction; intros ((? & ->) & ? & ?)
  | |- emits (executeAtomicSwap _ _ _) _ _ =>
      muse executeAtomicSwap_state; intros (-> & ?)
  end.

Lemma analyzeAndExecuteOrder_spec E order w :
  emits (analyzeAndExecuteOrder E order) w
        (fun r tr w' =>
           r = Ok tt /\
           lastCheckedTimestamp w' = lastCheckedTimestamp w /\
           processedOrders w' = processedOrders w /\
           activeSwaps w' = activeSwaps w /\
           (activeOrders w' = activeOrders w \/
            activeOrders w'
            = JsMap.delete (activeOrders w) (Order.orderHash order)) /\
           (transactions tr <> [] ->
            Log LInfo "Order is profitable" [Js.slice10 (Order.orderHash order)]
              ∈ tr)).
Proof.
  unfold analyzeAndExecuteOrder. mgo.
  all: unfold bookkeeping, resolverState, transactions in *; cbn in *; simplify_eq.
  - repeat (split; [done|]). split; [by left|].
    rewrite List.filter_app, H. cbn. done.
  - repeat (split; [congruence|]). split.
    + right. rewrite <- delete_set with (v := order). congruence.
    + intros _. apply elem_of_cons. right. apply elem_of_app. right.
      apply list_elem_of_here.
Qed.

Lemma keeps_fetchPendingOrders E :
  keeps processedOrders (OrderMonitor.fetchPendingOrders E).
Proof. unfold OrderMonitor.fetchPendingOrders. keeps_go. Qed.

Ltac mspec ::=
  lazymatch goal with
  | |- emits (analyzeAndExecuteOrder _ _) _ _ =>
      muse analyzeAndExecuteOrder_spec; intros (-> & ? & ? & ? & ? & ?)
  end.

(** The loop of [processNewOrders]: every order of the batch ends up in
    [processedOrders]. *)
Lemma processEach_spec E orders :
  forall w,
    emits (processEach E orders) w
          (fun r tr w' =>
             r = Ok tt /\
             processedOrders w'
             = list_to_set (map Order.orderHash orders) ∪ processedOrders w /\
             lastCheckedTimestamp w' = lastCheckedTimestamp w /\
             activeSwaps w' = activeSwaps w).
Proof.
  induction orders as [|order orders IH]; intros w; cbn [processEach].
  - mstep. cbn. split; [done|]. split; [set_solver|done].
  - mgo.
    + eapply emits_mono; [apply IH|]. cbv beta.
      intros r tr w' (-> & Hp & Hl & Hs). split; [done|].
      apply bool_decide_eq_true in Heqb.
      split; [|done]. rewrite Hp. cbn. set_solver.
    + eapply emits_mono; [apply IH|]. cbv beta.
      intros r2 tr2 w2 (-> & Hp & Hl & Hs). split; [done|].
      cbn in *. split; [|split; congruence].
      rewrite Hp. cbn. rewrite H0. set_solver.
Qed.

End AdmissionFrames.

Module AdmissionTheorems.
Import CrossChainResolver TraceSpec AdmissionFrames AdmissionFacts.

Lemma fetchPendingOrders_ok E w :
  emits (OrderMonitor.fetchPendingOrders E) w
        (fun r _ w' =>
           (exists orders, r = Ok orders) /\
           processedOrders w' = processedOrders w /\
           activeSwaps w' = activeSwaps w).
Proof. unfold OrderMonitor.fetchPendingOrders. msteps; cbn; eauto. Qed.

(** X18.  [processNewOrders] never rejects, and afterwards every order
    it fetched is in [processedOrders] -- whether it was filled, turned
    down or failed, it will not be looked at again.  Orders already in
    the set are skipped: if the whole batch is known, the poll does
    nothing beyond the fetch. *)
Theorem processNewOrders_marks_every_order (E : Env) (w : World) :
  exists orders w1 tr w',
    OrderMonitor.fetchPendingOrders E w = (Ok orders, w1) /\
    processNewOrders E w = (Ok tt, w') /\
    trace w' = (trace w ++ tr)%list /\
    processedOrders w'
    = list_to_set (map Order.orderHash orders) ∪ processedOrders w /\
    activeSwaps w' = activeSwaps w /\
    (Forall (fun order => Order.orderHash order ∈ processedOrders w) orders ->
     w' = w1).
Proof.
  destruct (emits_run _ _ _ (fetchPendingOrders_ok E w))
    as (r & tr1 & w1 & Hfetch & Htr1 & (orders & ->) & Hp1 & Hs1).
  destruct (emits_returns _ _ _ _ (processEach_spec E orders w1))
    as (tr2 & w' & Hrun & Htr2 & Hp & Hl & Hs).
  exists orders, w1, (tr1 ++ tr2)%list, w'.
  split; [done|].
  assert (Hnew : processNewOrders E w = processEach E orders w1).
  { unfold processNewOrders, bind. by rewrite Hfetch. }
  rewrite Hnew. split; [done|].
  split; [by rewrite Htr2, Htr1, app_assoc|].
  split; [by rewrite Hp, Hp1|].
  split; [congruence|].
  intros Hall. rewrite <- Hp1 in Hall.
  rewrite (processEach_skips_processed E orders w1 Hall) in Hrun.
  by injection Hrun.
Qed.

End AdmissionTheorems.

Module ExpiryFacts.
Import EscrowExecutor CrossChainResolver FrameSpec TraceSpec
       ExecutorFacts ExecutorFrames SwapFrames JsMapFacts.

Ltac mspec ::=
  lazymatch goal with
  | |- emits (cancelEscrows _ _) _ _ =>
      muse cancelEscrows_asks; intros (-> & ? & ? & ? & ?)
  end.

Lemma handleFailedSwap_asks E order error w :
  emits (handleFailedSwap E order error) w
        (fun r tr w' =>
           r = Ok tt /\ locks tr = [] /\ claims tr = [] /\
           refunds tr = expectedRefunds E order /\
           List.filter isSleep tr = [] /\
           resolverState w' = resolverState w).
Proof.
  assert (H : emits (handleFailedSwap E order error) w
                (fun r tr w' =>
                   r = Ok tt /\ locks tr = [] /\ claims tr = [] /\
                   refunds tr = expectedRefunds E order /\
                   List.filter isSleep tr = [])).
  { unfold handleFailedSwap. mgo.
    all: proj_app; rewrite ?List.filter_app; cbn;
      repeat match goal with
             | H : locks _ = _ |- _ => rewrite H; clear H
             | H : claims _ = _ |- _ => rewrite H; clear H
             | H : refunds _ = _ |- _ => rewrite H; clear H
             | H : List.filter isSleep _ = _ |- _ => rewrite H; clear H
             end; cbn.
    all: by rewrite ?app_nil_r. }
  eapply emits_mono;
    [exact (emits_keeps resolverState _ _ _ H
              (keeps_handleFailedSwap resolverState quiet_resolverState E order error))|].
  cbv beta. intros r tr w' [(? & ? & ? & ? & ?) ?]. done.
Qed.

Lemma filter_isSleep_app a b :
  List.filter isSleep (a ++ b) = (List.filter isSleep a ++ List.filter isSleep b)%list.
Proof. apply List.filter_app. Qed.

Ltac mspec ::=
  lazymatch goal with
  | |- emits (handleFailedSwap _ _ _) _ _ =>
      muse handleFailedSwap_asks; intros (-> & ? & ? & ? & ? & ?)
  end.

#[local] Arguments expectedRefunds : simpl never.

Ltac norm_tr :=
  proj_app; rewrite ?filter_isSleep_app;
  repeat match goal with
         | H : locks _ = _ |- _ => rewrite H; clear H
         | H : claims _ = _ |- _ => rewrite H; clear H
         | H : refunds _ = _ |- _ => rewrite H; clear H
         | H : List.filter isSleep _ = _ |- _ => rewrite H; clear H
         end;
  cbn.

Lemma without_nil {V} (m : list (string * V)) : ExpirySpec.without [] m = m.
Proof.
  unfold ExpirySpec.without. induction m as [|e m IH]; cbn; [done|].
  f_equal. exact IH.
Qed.

Lemma delete_filter {V} (m : list (string * V)) k :
  JsMap.delete m k = List.filter (fun e => negb (String.eqb (fst e) k)) m.
Proof.
  induction m as [|[k' v] m IH]; cbn; [done|].
  destruct (String.eqb k' k); cbn; by rewrite IH.
Qed.

Lemma filter_filter {A} (p q : A -> bool) (l : list A) :
  List.filter p (List.filter q l) = List.filter (fun a => q a && p a) l.
Proof.
  induction l as [|a l IH]; cbn; [done|].
  destruct (q a); cbn; [destruct (p a)|]; by rewrite IH.
Qed.

Lemma without_delete {V} (m : list (string * V)) k ks :
  ExpirySpec.without ks (JsMap.delete m k) = ExpirySpec.without (k :: ks) m.
Proof.
  unfold ExpirySpec.without. rewrite delete_filter, filter_filter.
  apply List.filter_ext. intros [k' v]. cbn.
  by destruct (String.eqb k' k).
Qed.

Lemma without_twice {V} (m : list (string * V)) k ks :
  ExpirySpec.without (k :: k :: ks) m = ExpirySpec.without (k :: ks) m.
Proof.
  unfold ExpirySpec.without. apply List.filter_ext. intros [k' v]. cbn.
  by destruct (String.eqb k' k).
Qed.

(** With one entry per key, dropping the keys of the entries that
    satisfy [p] is dropping those entries. *)
Lemma without_selected {V} (p : string * V -> bool) (m : list (string * V)) :
  NoDup (JsMap.keys m) ->
  ExpirySpec.without (map fst (List.filter p m)) m
  = List.filter (fun e => negb (p e)) m.
Proof.
  intros Hnd. unfold ExpirySpec.without.
  apply List.filter_ext_in. intros [k v] Hin. f_equal.
  destruct (p (k, v)) eqn:Hp.
  - apply existsb_exists. exists k. split; [|apply String.eqb_refl].
    apply in_map_iff. exists (k, v). split; [done|].
    apply List.filter_In. done.
  - apply not_true_iff_false. intros (k' & Hk' & Heq)%existsb_exists.
    apply String.eqb_eq in Heq. cbn in Heq. subst k'.
    apply in_map_iff in Hk' as ([k' v'] & Hfst & Hf). cbn in Hfst. subst k'.
    apply List.filter_In in Hf as [Hin' Hp'].
    assert (v' = v); [|congruence].
    clear Hp Hp'. unfold JsMap.keys in Hnd.
    induction m as [|[k0 v0] m IH]; [done|].
    cbn in Hnd. apply NoDup_cons in Hnd as [Hnotin Hnd].
    destruct Hin as [[= -> ->]|Hin], Hin' as [[= ->]|Hin'].
    + done.
    + exfalso. apply Hnotin. apply list_elem_of_fmap. exists (k, v').
      split; [done|]. by apply list_elem_of_In.
    + exfalso. apply Hnotin. apply list_elem_of_fmap. exists (k, v).
      split; [done|]. by apply list_elem_of_In.
    + by apply IH.
Qed.

Ltac mspec ::=
  lazymatch goal with
  | |- emits (handleFailedSwap _ _ _) _ _ =>
      muse handleFailedSwap_asks; intros (-> & ? & ? & ? & ? & ?)
  end.

Lemma checkEach_expired E now entries :
  forall w,
    emits (checkEach E now entries) w
          (fun r tr w' =>
             r = Ok tt /\
             activeOrders w'
             = ExpirySpec.without
                 (map fst (List.filter (ExpirySpec.expired now) entries))
                 (activeOrders w) /\
             (priceCache w', gasCache w', lastCheckedTimestamp w',
              processedOrders w', activeSwaps w')
             = (priceCache w, gasCache w, lastCheckedTimestamp w,
                processedOrders w, activeSwaps w) /\
             locks tr = [] /\ claims tr = [] /\
             refunds tr
             = flat_map (fun e => expectedRefunds E (snd e))
                        (List.filter (ExpirySpec.expired now) entries) /\
             List.filter isSleep tr = []).
Proof.
  induction entries as [|[h o] entries IH]; intros w; cbn [checkEach].
  - mstep. cbn. by rewrite without_nil.
  - cbn [List.filter].
    change (ExpirySpec.expired now (h, o)) with (Z.ltb (Order.deadline o) now).
    mgo.
    + eapply emits_mono; [apply IH|]. cbv beta.
      intros r tr2 w2 (-> & Ha & Hrest & Hl & Hc & Hr & Hs).
      split; [done|]. cbn [map fst flat_map snd].
      norm_tr.
      unfold resolverState in *. cbn in *. simplify_eq.
      split; [rewrite <- without_delete; unfold ExpirySpec.without; congruence|].
      split; [congruence|]. rewrite app_nil_r. done.
    + eapply emits_mono; [apply IH|]. cbv beta.
      intros r tr2 w2 (-> & Ha & Hrest & Hl & Hc & Hr & Hs).
      split; [done|]. by norm_tr.
Qed.

End ExpiryFacts.

Module ExpiryTheorems.
Import EscrowExecutor CrossChainResolver FrameSpec TraceSpec ExpirySpec
       ExecutorFacts ExpiryFacts.

(** X19.  [checkActiveOrders] never rejects.  It drops from
    [activeOrders] exactly the orders whose deadline is before the
    time at which the check started, keeps the others in their order,
    and for each dropped order asks for the refunds of
    [cancelEscrows], in the order of the map.  It sends no lock and no
    claim and touches nothing else of the resolver's state. *)
Theorem checkActiveOrders_drops_expired (E : Env) (w : World) :
  NoDup (JsMap.keys (activeOrders w)) ->
  exists tr w',
    checkActiveOrders E w = (Ok tt, w') /\
    trace w' = (trace w ++ tr)%list /\
    activeOrders w'
    = List.filter (fun e => negb (expired (clock w) e)) (activeOrders w) /\
    refunds tr
    = flat_map (fun e => expectedRefunds E (snd e))
               (List.filter (expired (clock w)) (activeOrders w)) /\
    locks tr = [] /\ claims tr = [] /\
    processedOrders w' = processedOrders w /\
    activeSwaps w' = activeSwaps w.
Proof.
  intros Hnd. apply emits_returns.
  unfold checkActiveOrders. mstep. mstep. mstep. mstep.
  eapply emits_mono; [apply checkEach_expired|]. cbv beta.
  intros r tr w' (-> & Ha & Hrest & Hl & Hc & Hr & _).
  split; [done|]. rewrite Ha, (without_selected _ _ Hnd).
  cbn. simplify_eq. done.
Qed.

Lemma checkActiveOrders_drops_expired_witness :
  exists tr w',
    checkActiveOrders Scenario.calmEnv Scenario.twoActive = (Ok tt, w') /\
    trace w' = (trace Scenario.twoActive ++ tr)%list /\
    activeOrders w'
    = List.filter (fun e => negb (expired (clock Scenario.twoActive) e))
                  (activeOrders Scenario.twoActive) /\
    refunds tr
    = flat_map (fun e => expectedRefunds Scenario.calmEnv (snd e))
               (List.filter (expired (clock Scenario.twoActive))
                            (activeOrders Scenario.twoActive)) /\
    locks tr = [] /\ claims tr = [] /\
    processedOrders w' = processedOrders Scenario.twoActive /\
    activeSwaps w' = activeSwaps Scenario.twoActive.
Proof.
  apply (checkActiveOrders_drops_expired Scenario.calmEnv Scenario.twoActive).
  apply (bool_decide_unpack _). vm_compute. reflexivity.
Defined.

(** Two active orders, the first past its deadline: it is dropped, and
    its source escrow on Sepolia is asked for a refund. *)
Example checkActiveOrders_run :
  exists w',
    checkActiveOrders Scenario.calmEnv Scenario.twoActive = (Ok tt, w') /\
    JsMap.keys (activeOrders w') = ["0xlive000000000000"] /\
    refunds (trace w')
    = [(Source, "0x718B8f5c8C1A9bd20b8f3cB347b7CD661A7694B1", "0xhash")].
Proof. eexists. vm_compute. repeat split. Qed.


#[local] Arguments expectedRefunds : simpl never.

Ltac mspec ::=
  lazymatch goal with
  | |- emits (handleFailedSwap _ _ _) _ _ =>
      muse handleFailedSwap_asks; intros (-> & ? & ? & ? & ? & ?)
  end.

(** The waiting loop of [shutdown] ends within its fuel: every turn
    takes a second at least. *)
Lemma waitActive_spec E fuel startTime :
  forall w,
    startTime <= clock w ->
    shutdownTimeout - (clock w - startTime) <= shutdownDelay * Z.of_nat fuel ->
    emits (waitActive E fuel startTime) w
          (fun r tr w' =>
             r = Ok tt /\ resolverState w' = resolverState w /\
             locks tr = [] /\ claims tr = [] /\ refunds tr = [] /\
             (length (List.filter isSleep tr) <= fuel)%nat /\
             (activeOrders w = [] -> tr = [])).
Proof.
  unfold shutdownTimeout, shutdownDelay.
  induction fuel as [|fuel IH]; intros w Hstart Hfuel; cbn [waitActive].
  - msteps.
    + apply andb_true_iff in Heqb as [_ Hlt%Z.ltb_lt].
      unfold shutdownTimeout in Hlt. lia.
    + by cbn.
  - msteps.
    + eapply emits_mono;
        [apply IH; unfold shutdownDelay; cbn; lia|].
      cbv beta. intros r tr w' (-> & Hst & Hl & Hc & Hr & Hn & _).
      split; [done|]. split; [exact Hst|]. norm_tr.
      do 3 (split; [done|]). split; [cbn; lia|].
      intros Hempty. rewrite Hempty in Heqb. done.
    + cbn. repeat split; try done; lia.
Qed.

Lemma cleanEach_spec E entries :
  forall w,
    emits (cleanEach E entries) w
          (fun r tr w' =>
             r = Ok tt /\ resolverState w' = resolverState w /\
             locks tr = [] /\ claims tr = [] /\
             refunds tr = flat_map (fun e => expectedRefunds E (snd e)) entries /\
             List.filter isSleep tr = []).
Proof.
  induction entries as [|[h o] entries IH]; intros w; cbn [cleanEach].
  - by mstep.
  - mgo. eapply emits_mono; [apply IH|]. cbv beta.
    intros r tr2 w2 (-> & Hst & Hl & Hc & Hr & Hs).
    split; [done|]. split; [etrans; [exact Hst|]; assumption|].
    norm_tr. cbn. by rewrite ?app_nil_r.
Qed.

(** X20.  [shutdown] always completes: it waits at most thirty times
    one second for [activeOrders] to empty (not at all when it is
    empty), then asks for the refunds of [cancelEscrows] for every
    order still active, in the order of the map.  The orders it
    "force cleans" are not removed: [activeOrders] and the rest of the
    resolver's state are as they were.  With the object it leaves
    ([isRunning = false]) both timer callbacks return at once. *)
Theorem shutdown_always_completes
        (E : Env) (this : CrossChainResolver.t) (w : World) :
  exists tr w',
    shutdown E this w = (Ok (CrossChainResolver.mk false), w') /\
    trace w' = (trace w ++ tr)%list /\
    (length (List.filter isSleep tr) <= 30)%nat /\
    (activeOrders w = [] -> List.filter isSleep tr = []) /\
    refunds tr = flat_map (fun e => expectedRefunds E (snd e)) (activeOrders w) /\
    locks tr = [] /\ claims tr = [] /\
    resolverState w' = resolverState w /\
    (forall w2, processTick E (CrossChainResolver.mk false) w2 = (Ok tt, w2)) /\
    (forall w2, checkTick E (CrossChainResolver.mk false) w2 = (Ok tt, w2)).
Proof.
  apply emits_returns.
  unfold shutdown. cbv zeta. mstep. mstep. mstep. mstep. mstep.
  eapply emits_mono;
    [apply waitActive_spec; unfold shutdownTimeout, shutdownDelay, shutdownFuel;
     cbn; lia|].
  cbv beta. intros r tr1 w1 (-> & Hst1 & Hl1 & Hc1 & Hr1 & Hn1 & He1).
  mstep. mstep. mstep.
  eapply emits_mono; [apply cleanEach_spec|].
  cbv beta. intros r tr2 w2 (-> & Hst2 & Hl2 & Hc2 & Hr2 & Hs2).
  msteps. split; [done|].
  assert (Hao : activeOrders w1 = activeOrders w).
  { unfold resolverState in Hst1. cbn in Hst1. by simplify_eq. }
  norm_tr. rewrite Hao.
  cbn [app]. rewrite ?app_nil_r.
  split; [exact Hn1|].
  split; [intros Hempty; by rewrite (He1 Hempty)|].
  repeat (split; [done|]).
  split; [etrans; [exact Hst2|exact Hst1]|].
  by split.
Qed.

End ExpiryTheorems.

(* ===================================================================== *)
(** ** The relayer-side registry, beyond the destination timeout *)
(* ===================================================================== *)

Module TimeoutFacts.
Import Resolver TraceSpec ExpirySpec ExpiryFacts.

Lemma checkEach_drops now entries :
  forall w,
    emits (checkEach now entries) w
          (fun r tr w' =>
             r = Ok tt /\
             activeSwaps w'
             = without (map fst (List.filter (timedOut now) entries))
                       (activeSwaps w) /\
             (clock w', priceCache w', gasCache w', lastCheckedTimestamp w',
              processedOrders w', activeOrders w')
             = (clock w, priceCache w, gasCache w, lastCheckedTimestamp w,
                processedOrders w, activeOrders w) /\
             requests tr = [] /\
             List.filter isSleep tr = []).
Proof.
  induction entries as [|[h s] entries IH]; intros w; cbn [checkEach].
  - mstep. cbn. by rewrite without_nil.
  - cbn [List.filter]. unfold timedOut at 1. cbn [snd].
    unfold checkSwap, cancelSwapOnSource, cancelSwapOnDestination,
           removeSwapFromTracking.
    msteps.
    all: eapply emits_mono; [apply IH|]; cbv beta;
      intros r tr2 w2 (-> & Ha & Hrest & Hq & Hs);
      split; [done|]; cbn [orb map fst].
    all: unfold requests in *; rewrite ?List.filter_app, ?Hq, ?Hs; cbn.
    all: split; [|split; [rewrite Hrest; done|done]].
    all: rewrite Ha; cbn [activeSwaps set_activeSwaps set_trace];
      rewrite ?without_delete, ?without_twice; done.
Qed.

End TimeoutFacts.

Module RegistryMoreTheorems.
Import Resolver TraceSpec ExpirySpec ExpiryFacts TimeoutFacts JsMapFacts.

(** X21.  One run of [checkAndHandleTimeout] drops from [activeSwaps]
    exactly the swaps one of whose cancellation times -- source or
    destination -- is before the current time in seconds, and keeps
    the others in their order.  It never rejects and asks nothing of
    any chain: a "cancelled" swap is only logged and forgotten. *)
Theorem checkAndHandleTimeout_drops_timed_out (w : World) :
  NoDup (JsMap.keys (activeSwaps w)) ->
  exists tr w',
    checkAndHandleTimeout w = (Ok tt, w') /\
    trace w' = (trace w ++ tr)%list /\
    activeSwaps w'
    = List.filter (fun e => negb (timedOut (clock w / 1000) e)) (activeSwaps w) /\
    requests tr = [] /\
    clock w' = clock w /\
    activeOrders w' = activeOrders w /\
    processedOrders w' = processedOrders w.
Proof.
  intros Hnd. apply emits_returns.
  unfold checkAndHandleTimeout. mstep. mstep. mstep. mstep. mstep. mstep.
  eapply emits_mono; [apply checkEach_drops|]. cbv beta.
  intros r tr w' (-> & Ha & Hrest & Hq & Hs).
  split; [done|]. rewrite Ha. cbn [activeSwaps set_trace].
  rewrite (without_selected _ _ Hnd).
  split; [done|]. cbn in Hrest. simplify_eq.
  unfold requests in *. cbn. by rewrite Hq.
Qed.


Lemma checkAndHandleTimeout_drops_timed_out_witness :
  NoDup (JsMap.keys (activeSwaps Scenario.twoTracked)) /\
  List.filter (fun e => negb (timedOut (clock Scenario.twoTracked / 1000) e))
              (activeSwaps Scenario.twoTracked)
  = [("0xlater", Scenario.laterSwap)] /\
  exists tr w',
    checkAndHandleTimeout Scenario.twoTracked = (Ok tt, w') /\
    trace w' = (trace Scenario.twoTracked ++ tr)%list /\
    activeSwaps w'
    = List.filter
        (fun e => negb (timedOut (clock Scenario.twoTracked / 1000) e))
        (activeSwaps Scenario.twoTracked) /\
    requests tr = [] /\
    clock w' = clock Scenario.twoTracked /\
    activeOrders w' = activeOrders Scenario.twoTracked /\
    processedOrders w' = processedOrders Scenario.twoTracked.
Proof.
  split; [apply (bool_decide_unpack _); vm_compute; reflexivity|].
  split; [vm_compute; reflexivity|].
  apply (checkAndHandleTimeout_drops_timed_out Scenario.twoTracked).
  apply (bool_decide_unpack _). vm_compute. reflexivity.
Defined.

End RegistryMoreTheorems.

Module MonitorTheorems.
Import OrderMonitorService.

(** X23.  The monitor service holds at most one timer.  Starting a
    running service only warns and leaves its schedule as it is;
    stopping clears the schedule, so no tick is due any more;
    stopping a stopped service does nothing; and a start after a stop
    schedules ticks afresh from the time of that start, one interval
    apart. *)
Theorem monitor_holds_one_timer (service : t) (w : World) :
  exists running w1,
    start service w = (Ok running, w1) /\
    pollInterval running <> None /\
    (pollInterval service <> None -> running = service) /\
    (pollInterval service = None ->
     w1 = w /\
     forall k, tickTime running k
               = Some (clock w + (Z.of_nat k + 1) * pollIntervalMs service)) /\
    (forall w2, exists w3,
        start running w2 = (Ok running, w3) /\
        trace w3 = (trace w2 ++ [Log LWarn "Order monitor is already running." []])%list) /\
    (forall w2, exists stopped w3,
        stop running w2 = (Ok stopped, w3) /\
        trace w3 = (trace w2 ++ [Log LInfo "Order monitor service stopped." []])%list /\
        (forall k, tickTime stopped k = None) /\
        (forall w4, stop stopped w4 = (Ok stopped, w4)) /\
        (forall w4 k, exists again,
            start stopped w4 = (Ok again, w4) /\
            tickTime again k
            = Some (clock w4 + (Z.of_nat k + 1) * pollIntervalMs service))).
Proof.
  destruct service as [res [t0|] ms].
  - exists (mk res (Some t0) ms). eexists. split; [reflexivity|].
    repeat split; try done.
    + intros w2. eexists. split; reflexivity.
    + intros w2. do 2 eexists. split; [reflexivity|].
      repeat split. intros w4 k. eexists. split; reflexivity.
  - exists (mk res (Some (clock w)) ms). eexists. split; [reflexivity|].
    repeat split; try done.
    + intros w2. eexists. split; reflexivity.
    + intros w2. do 2 eexists. split; [reflexivity|].
      repeat split. intros w4 k. eexists. split; reflexivity.
Qed.

End MonitorTheorems.

(* ===================================================================== *)
(** ** Which transactions a swap waits for *)
(* ===================================================================== *)

Module SwapStory.
Import EscrowExecutor CrossChainResolver EscrowFacts ResolverFacts.

Lemma receipts_app a b : receipts (a ++ b) = (receipts a ++ receipts b)%list.
Proof. apply omap_app. Qed.

Ltac mspec ::= fail.

(** A lock that resolves has submitted a lock of its side under the
    hash it returns, and never asks for a receipt. *)
Lemma lockEvmEscrow_hash E order type w :
  emits (lockEvmEscrow E order type) w
        (fun r tr w' =>
           receipts tr = [] /\
           forall t, r = Ok t ->
             exists e, e ∈ tr /\ lockHashOf type e = Some (TransactionResult.hash t)).
Proof.
  unfold lockEvmEscrow, getEscrowAddress, approveToken, parseUnitsM.
  destruct type; msteps.
  all: cbn; split; [done|]; try (by intros ? [=]).
  all: intros t [= <-]; cbn.
  all: match goal with
       | |- context [Ev (LockFunds ?a ?b ?c ?d ?e ?f ?g ?h) (Returns ?v)] =>
           exists (Ev (LockFunds a b c d e f g h) (Returns v))
       end.
  all: split; [|cbn; by rewrite bool_decide_eq_true_2].
  all: rewrite ?elem_of_app, ?elem_of_cons; tauto.
Qed.

Lemma lockCosmosEscrow_hash E order type w :
  emits (lockCosmosEscrow E order type) w
        (fun r tr w' =>
           receipts tr = [] /\
           forall t, r = Ok t ->
             exists e, e ∈ tr /\ lockHashOf type e = Some (TransactionResult.hash t)).
Proof.
  unfold lockCosmosEscrow, parseUnitsM.
  destruct type; msteps.
  all: cbn; split; [done|]; try (by intros ? [=]).
  all: intros t [= <-]; cbn.
  all: match goal with
       | |- context [Ev (SignAndBroadcast ?a ?b ?c ?d ?e) (Returns ?v)] =>
           exists (Ev (SignAndBroadcast a b c d e) (Returns v))
       end.
  all: apply negb_false_iff in Heqb.
  all: split; [|cbn; by rewrite bool_decide_eq_true_2, Heqb].
  all: rewrite ?elem_of_app, ?elem_of_cons; tauto.
Qed.

Ltac mspec ::=
  lazymatch goal with
  | |- emits (lockEvmEscrow _ _ _) _ _ =>
      muse lockEvmEscrow_hash; intros (? & ?)
  | |- emits (lockCosmosEscrow _ _ _) _ _ =>
      muse lockCosmosEscrow_hash; intros (? & ?)
  end.

Lemma lockSourceEscrow_hash E order decision w :
  emits (lockSourceEscrow E order decision) w
        (fun r tr w' =>
           receipts tr = [] /\
           forall t, r = Ok t ->
             exists e, e ∈ tr /\ lockHashOf Source e = Some (TransactionResult.hash t)).
Proof.
  unfold lockSourceEscrow. mgo.
  all: rewrite ?receipts_app, ?app_nil_r; cbn; rewrite ?app_nil_r.
  all: split; [done|]; try (by intros ? [=]).
  all: intros t [= <-]; eauto.
Qed.

Lemma lockDestinationEscrow_hash E order decision w :
  emits (lockDestinationEscrow E order decision) w
        (fun r tr w' =>
           receipts tr = [] /\
           forall t, r = Ok t ->
             exists e, e ∈ tr /\
                       lockHashOf Destination e = Some (TransactionResult.hash t)).
Proof.
  unfold lockDestinationEscrow. mgo.
  all: rewrite ?receipts_app, ?app_nil_r; cbn; rewrite ?app_nil_r.
  all: split; [done|]; try (by intros ? [=]).
  all: intros t [= <-]; eauto.
Qed.

(** A source-side check answers [true] only on the receipt of the
    transaction it was asked about. *)
Lemma isTransactionConfirmed_source E txHash w :
  emits (isTransactionConfirmed E txHash Source) w
        (fun r tr w' =>
           Forall (eq txHash) (receipts tr) /\ marks tr = [] /\
           (r = Ok true -> tr = sourceConfirmation txHash)).
Proof.
  unfold isTransactionConfirmed, sourceConfirmation.
  rewrite bool_decide_eq_true_2 by done. cbn [andb].
  destruct (Js.startsWith txHash "0x") eqn:Hx; msteps.
  all: cbn; split; [repeat constructor|]; split; [done|]; try done.
  intros [= H]. destruct v as [status|]; [|done].
  apply Z.eqb_eq in H. by subst.
Qed.

Lemma isTransactionConfirmed_destination E txHash w :
  emits (isTransactionConfirmed E txHash Destination) w
        (fun r tr w' => r = Ok true /\ tr = []).
Proof.
  unfold isTransactionConfirmed.
  rewrite bool_decide_eq_false_2 by done. cbn [andb]. msteps. done.
Qed.

Ltac mspec ::=
  lazymatch goal with
  | |- emits (isTransactionConfirmed _ _ Source) _ _ =>
      muse isTransactionConfirmed_source; intros (? & ? & ?)
  | |- emits (isTransactionConfirmed _ _ Destination) _ _ =>
      muse isTransactionConfirmed_destination; intros (-> & ->)
  end.

(** The poll asks for receipts of the source lock only, and resolves
    right after a source-side check that answered [true]. *)
Lemma waitLoop_receipts E fuel sourceTxHash destTxHash startTime :
  forall w,
    emits (waitLoop E fuel sourceTxHash destTxHash startTime) w
          (fun r tr w' =>
             Forall (eq sourceTxHash) (receipts tr) /\
             (r = Ok tt ->
              exists c,
                tr = (c ++ sourceConfirmation sourceTxHash
                        ++ [Log LInfo "Both escrows confirmed" []])%list /\
                marks c = [])).
Proof.
  induction fuel as [|fuel IH]; intros w; cbn [waitLoop].
  - msteps; cbn; (split; [constructor|]); by intros [=].
  - mstep. mstep. mstep; [|mstep; cbn; (split; [constructor|]); by intros [=]].
    mstep. mspec. destruct r as [sourceConfirmed|e|]; cbv beta iota.
    2,3: cbn; split; [done|]; by intros [=].
    mstep. mspec. cbv beta iota.
    destruct sourceConfirmed; cbn [andb]; cbv beta iota.
    + mstep. cbn.
      rewrite ?app_nil_r, ?receipts_app. cbn. rewrite ?app_nil_r.
      split; [done|]. intros _. exists []. cbn. split; [|done].
      by rewrite H1.
    + mstep. mstep.
      eapply emits_mono; [apply IH|]. cbv beta.
      intros r tr2 w2 (Hall & Hok). cbn. rewrite !receipts_app. cbn.
      split; [apply Forall_app; split; [done|]; done|].
      intros Hr. destruct (Hok Hr) as (c & -> & Hc).
      exists (tr ++ Sleep pollDelay :: c)%list. rewrite <- !app_assoc. cbn.
      split; [done|]. rewrite marks_app. cbn. by rewrite H0, Hc.
Qed.


Lemma waitForEscrowConfirmations_receipts E sourceTxHash destTxHash w :
  emits (waitForEscrowConfirmations E sourceTxHash destTxHash) w
        (fun r tr w' =>
           Forall (eq sourceTxHash) (receipts tr) /\
           (r = Ok tt ->
            exists c,
              tr = (c ++ sourceConfirmation sourceTxHash
                      ++ [Log LInfo "Both escrows confirmed" []])%list /\
              marks c = [])).
Proof.
  unfold waitForEscrowConfirmations. mstep. mstep.
  eapply emits_mono; [apply waitLoop_receipts|]. cbv beta.
  intros r tr w' H. exact H.
Qed.

Ltac mspec ::= fail.

Lemma revealSecretAndClaim_receipts E order decision w :
  emits (revealSecretAndClaim E order decision) w
        (fun _ tr _ => receipts tr = []).
Proof.
  unfold revealSecretAndClaim, claimFromEscrow, claimFromCosmosEscrow,
         claimFromEvmEscrow, getEscrowAddress.
  msteps; done.
Qed.

Lemma handleFailedSwap_receipts E order error w :
  emits (handleFailedSwap E order error) w (fun _ tr _ => receipts tr = []).
Proof.
  unfold handleFailedSwap, cancelEscrows, cancelEvmEscrow, getEscrowAddress.
  msteps; done.
Qed.

(** The specifications of the steps of a swap, each with what it
    contributes to the story. *)
Ltac mspec ::=
  lazymatch goal with
  | |- emits (lockSourceEscrow _ _ _) _ _ =>
      eapply emits_mono;
      [ apply emits_conj;
        [apply lockSourceEscrow_spec | apply lockSourceEscrow_hash]
      | cbv beta; intros ? ? ? [(? & ? & ?) (? & ?)] ]
  | |- emits (lockDestinationEscrow _ _ _) _ _ =>
      eapply emits_mono;
      [ apply emits_conj;
        [apply lockDestinationEscrow_spec | apply lockDestinationEscrow_hash]
      | cbv beta; intros ? ? ? [(? & ?) (? & ?)] ]
  | |- emits (waitForEscrowConfirmations _ _ _) _ _ =>
      eapply emits_mono;
      [ apply emits_conj;
        [ apply waitForEscrowConfirmations_spec
        | apply waitForEscrowConfirmations_receipts ]
      | cbv beta; intros ? ? ? [(? & ?) (? & ?)] ]
  | |- emits (revealSecretAndClaim _ _ _) _ _ =>
      eapply emits_mono;
      [ apply emits_conj;
        [ apply revealSecretAndClaim_spec | apply revealSecretAndClaim_receipts ]
      | cbv beta; intros ? ? ? [(? & ? & ?) ?] ]
  | |- emits (handleFailedSwap _ _ _) _ _ =>
      eapply emits_mono;
      [ apply emits_conj;
        [ apply handleFailedSwap_spec | apply handleFailedSwap_receipts ]
      | cbv beta; intros ? ? ? [(-> & ?) ?] ]
  end.

Lemma marks_sourceConfirmation txHash : marks (sourceConfirmation txHash) = [].
Proof. unfold sourceConfirmation. by destruct (Js.startsWith _ _). Qed.

Lemma cancelMarks_not_confirmed E order :
  KBothConfirmed ∉ cancelMarks E order.
Proof.
  intros H. unfold cancelMarks in H.
  repeat case_match;
    repeat (apply elem_of_cons in H as [H|H]; [discriminate|]);
    by apply elem_of_nil in H.
Qed.

(** Facts about the steps, ready for use. *)
Ltac told_use :=
  unfold receipts in *;
  repeat match goal with
         | u : unit |- _ => destruct u
         | H : forall u, Ok ?a = Ok u -> _ |- _ => specialize (H _ eq_refl)
         | H : Ok ?a = Ok ?a -> _ |- _ => specialize (H eq_refl)
         | H : exists _, _ |- _ => destruct H
         | H : _ /\ _ |- _ => destruct H
         end.

Ltac told_receipts Hin :=
  rewrite ?omap_app in Hin;
  repeat match goal with
         | H : omap receiptOf _ = [] |- _ => rewrite H in Hin
         end;
  cbn in Hin; rewrite ?app_nil_r in Hin.

(** Every receipt asked for is the source lock's. *)
Ltac told_source Hin :=
  match goal with
  | Hall : Forall (eq ?h) (omap receiptOf ?t),
    He : ?e ∈ _, Hh : lockHashOf Source ?e = Some ?h |- _ =>
      rewrite Forall_forall in Hall; apply Hall in Hin; subst;
      exists e; split; [rewrite ?elem_of_app; tauto | exact Hh]
  end.

(** No confirmation was logged. *)
Ltac told_unconfirmed :=
  let H := fresh "H" in
  intros H; exfalso;
  rewrite ?marks_app in H;
  repeat match goal with
         | Hm : marks _ = _ |- _ => rewrite Hm in H
         end;
  cbn in H; rewrite ?app_nil_r in H;
  repeat match type of H with
         | _ ∈ _ :: _ =>
             apply elem_of_cons in H; destruct H as [H|H]; [discriminate|]
         end;
  first [ by apply elem_of_nil in H
        | exact (cancelMarks_not_confirmed _ _ H) ].

(** The confirmation was logged: the pieces of the trace. *)
Ltac told_confirmed :=
  intros _; rewrite <- ?app_assoc;
  match goal with
  | HeS : ?eS ∈ ?trS, HhS : lockHashOf Source ?eS = Some ?hs,
    HeD : ?eD ∈ ?trD, HhD : lockHashOf Destination ?eD = Some ?hd,
    Hc : ?trW = (?c ++ sourceConfirmation ?hs ++ _)%list
    |- exists _ _ _ _ _ _ _ _,
         (?L1 ++ ?L2 ++ ?trS ++ ?L3 ++ ?L4 ++ ?trD ++ ?L5 ++ ?L6 ++ ?trW ++ ?d)%list
         = _ /\ _ =>
      let aS := fresh "aS" in let bS := fresh "bS" in let HS := fresh "HS" in
      let aD := fresh "aD" in let bD := fresh "bD" in let HD := fresh "HD" in
      apply list_elem_of_split in HeS as (aS & bS & HS);
      apply list_elem_of_split in HeD as (aD & bD & HD);
      exists hs, hd, (L1 ++ L2 ++ aS)%list, eS, (bS ++ L3 ++ L4 ++ aD)%list, eD,
             (bD ++ L5 ++ L6 ++ c)%list, d;
      split; [rewrite Hc, HS, HD; repeat rewrite <- app_assoc; reflexivity|];
      split; [exact HhS|]; split; [exact HhD|];
      transitivity (marks (L1 ++ L2 ++ trS ++ L3 ++ L4 ++ trD ++ L5 ++ L6
                              ++ c ++ sourceConfirmation hs));
      [ f_equal; rewrite HS, HD; repeat rewrite <- app_assoc; reflexivity
      | rewrite !marks_app, marks_sourceConfirmation;
        repeat match goal with
               | Hm : marks _ = _ |- _ => rewrite Hm
               end;
        reflexivity ]
  end.

Lemma executeAtomicSwap_told E order decision w :
  emits (executeAtomicSwap E order decision) w (fun _ tr _ => told tr).
Proof.
  unfold executeAtomicSwap. mgo.
  all: unfold told; told_use; split.
  all: try (intros txHash Hin; told_receipts Hin;
            first [by apply elem_of_nil in Hin | told_source Hin]).
  all: first [told_unconfirmed | told_confirmed].
Qed.

End SwapStory.

Module SwapClaims.
Import EscrowExecutor CrossChainResolver EscrowFacts ResolverFacts SwapStory.

(** Two ways of cutting one trace: a cut whose marks go one mark past
    those of [x] lies past the entry that carries that mark. *)
Lemma cut_past_mark (x d pre post : list Event) (l ev : Event) (k : Kind) :
  (x ++ l :: d = pre ++ ev :: post)%list ->
  kind l = k -> k <> KNeutral ->
  marks pre = (marks x ++ [k])%list ->
  exists d', pre = (x ++ l :: d')%list.
Proof.
  intros Heq Hk Hn Hm.
  apply app_eq_app in Heq as [rest [[-> Hrest]|[-> Hrest]]].
  - exfalso. rewrite marks_app in Hm.
    apply (f_equal length) in Hm. rewrite !length_app in Hm. cbn in Hm. lia.
  - destruct rest as [|e rest]; cbn in Hrest.
    + exfalso. rewrite app_nil_r in Hm.
      apply (f_equal length) in Hm. rewrite length_app in Hm. cbn in Hm. lia.
    + injection Hrest as <- _. by exists rest.
Qed.

Lemma regroup (a b c s d : list Event) (x y l : Event) :
  ((a ++ x :: b ++ y :: c ++ s) ++ l :: d
   = a ++ x :: b ++ y :: c ++ s ++ l :: d)%list.
Proof. repeat first [rewrite <- app_assoc | progress cbn [app]]. reflexivity. Qed.

Lemma story E order decision w :
  exists tr w',
    executeAtomicSwap E order decision w = (Ok tt, w') /\
    trace w' = (trace w ++ tr)%list /\
    swapShape E order (marks tr) /\ told tr.
Proof.
  apply emits_returns.
  eapply emits_mono;
    [ apply emits_conj;
      [apply executeAtomicSwap_shape | apply executeAtomicSwap_told] |].
  cbv beta. by intros r tr w' [[-> ?] ?].
Qed.

(** C2.  In every run of [executeAtomicSwap], a claim is issued on the
    source side only, and what precedes it is, in this order: the
    submission of the source lock, the submission of the destination
    lock, and the entry "Both escrows confirmed" of the confirmation
    poll, with no other lock, claim or refund in between.  The poll
    writes that entry right after the check of the source lock
    answered [true] -- for an EVM hash, on the receipt, with status 1,
    of the very transaction the source lock returned; the check of the
    destination lock answers [true] without a request. *)
Theorem claim_only_after_confirmed_locks
        (E : Env) (order : Order.t) (decision : Decision.t) (w : World) :
  exists tr w',
    executeAtomicSwap E order decision w = (Ok tt, w') /\
    trace w' = (trace w ++ tr)%list /\
    forall pre ev post type,
      tr = (pre ++ ev :: post)%list ->
      kind ev = KClaim type ->
      type = Source /\
      marks pre = [KLockSubmitted Source; KLockSubmitted Destination;
                   KBothConfirmed] /\
      exists sourceTxHash destTxHash a lockS b lockD c d,
        pre = (a ++ lockS :: b ++ lockD :: c
               ++ sourceConfirmation sourceTxHash
               ++ Log LInfo "Both escrows confirmed" [] :: d)%list /\
        lockHashOf Source lockS = Some sourceTxHash /\
        lockHashOf Destination lockD = Some destTxHash.
Proof.
  destruct (story E order decision w) as (tr & w' & Hrun & Ht & Hs & Hall & Htold).
  exists tr, w'. split; [done|]. split; [done|].
  intros pre ev post type -> Hk.
  assert (Hpre : type = Source /\
                 marks pre = [KLockSubmitted Source; KLockSubmitted Destination;
                              KBothConfirmed]).
  { rewrite (marks_split _ _ _ _ Hk) in Hs by done.
    pose proof (cancelMarks_no_claim E order) as Hc.
    inversion Hs as [Heq|? Heq|? Heq|? Heq|? Heq|? Heq]; symmetry in Heq.
    - exfalso. eapply no_claim; [exact Heq| done | done].
    - exfalso. eapply no_claim; [exact Heq| done | no_claims].
    - exfalso. eapply no_claim; [exact Heq| done | no_claims].
    - exfalso. eapply no_claim; [exact Heq| done | no_claims].
    - apply (claim_position _ _
               [KLockSubmitted Source; KLockSubmitted Destination; KBothConfirmed]
               (cancelMarks E order) _ (KClaim Source))
        in Heq as [-> [= ->]]; try done; no_claims; exact I.
    - apply (claim_position _ _
               [KLockSubmitted Source; KLockSubmitted Destination; KBothConfirmed]
               [KCompleted] _ (KClaim Source))
        in Heq as [-> [= ->]]; try done; no_claims; exact I. }
  destruct Hpre as [-> Hpre]. split; [done|]. split; [done|].
  destruct Htold
    as (hs & hd & a & lockS & b & lockD & c & d & Heq & HS & HD & Hm).
  { rewrite marks_app, Hpre. set_solver. }
  exists hs, hd, a, lockS, b, lockD, c.
  destruct (cut_past_mark
              (a ++ lockS :: b ++ lockD :: c ++ sourceConfirmation hs)
              d pre post (Log LInfo "Both escrows confirmed" []) ev
              KBothConfirmed) as [d' ->]; try done.
  - by rewrite Heq, regroup.
  - by rewrite Hm, Hpre.
  - exists d'. split; [|done]. apply regroup.
Qed.


End SwapClaims.

Module SwapClaimExamples.
Import EscrowExecutor CrossChainResolver.

(** A swap from Sepolia to Sepolia whose destination lock reverts on
    the chain: the receipt of the destination lock is never asked for,
    the poll reports both escrows confirmed, and the swap goes on to
    the claim and is logged as completed. *)
Example reverted_destination_lock_completes :
  exists w',
    executeAtomicSwap (Platform.env Scenario.destinationReverts)
                      Scenario.sepoliaToSepolia
                      (Scenario.goAhead Scenario.sepoliaToSepolia)
                      (emptyWorld Scenario.now0) = (Ok tt, w') /\
    marks (trace w')
    = [KLockSubmitted Source; KLockSubmitted Destination; KBothConfirmed;
       KClaim Source; KCompleted] /\
    receipts (trace w') = ["0xsourcelock"] /\
    respond (Platform.env Scenario.destinationReverts) (trace w') _
            (GetTransactionReceipt "0xdestlock")
    = (Returns (Some 0), 40%N).
Proof. eexists. vm_compute. repeat split. Qed.

End SwapClaimExamples.

(* ===================================================================== *)
(** ** Confirmation on the destination side *)
(* ===================================================================== *)

Module ConfirmationClaims.
Import EscrowExecutor EscrowFacts TraceSpec ConfirmationSpec.

Ltac mspec ::= fail.

Lemma lockCosmosEscrow_outcome E order type w :
  emits (lockCosmosEscrow E order type) w
        (fun r tr _ => cosmosLockOutcome E order type r tr).
Proof.
  unfold lockCosmosEscrow, parseUnitsM, cosmosLockOutcome.
  destruct type; cbv zeta; msteps.
  all: cbn; do 2 eexists; (split; [reflexivity|]); cbv beta iota.
  all: rewrite ?Heqo0; cbv beta iota.
  all: try (by eauto).
  all: eexists; (split; [reflexivity|]); cbv beta iota; try done.
  all: match type of Heqb with
       | negb _ = true => apply negb_true_iff in Heqb
       | negb _ = false => apply negb_false_iff in Heqb
       end; by rewrite Heqb.
Qed.

(** C7.  [isTransactionConfirmed] resolves to [true], without a request
    and without any other effect, whenever its [chain] argument is not
    ['source'] or the hash does not start with ["0x"] -- in particular
    for every destination-side check.  [lockCosmosEscrow] asks for the
    wallet's accounts and then broadcasts, and asks nothing else: no
    receipt, no query of the chain; when the broadcast is answered with
    code 0 it resolves at once with status ['confirmed'], the hash and
    the height being those of the answer. *)
Theorem destination_confirmation_is_assumed
        (E : Env) (txHash : string) (chain : Side)
        (order : Order.t) (type : Side) (w : World) :
  (chain <> Source \/ Js.startsWith txHash "0x" = false ->
   isTransactionConfirmed E txHash chain w = (Ok true, w)) /\
  isTransactionConfirmed E txHash Destination w = (Ok true, w) /\
  exists r tr w',
    lockCosmosEscrow E order type w = (r, w') /\
    trace w' = (trace w ++ tr)%list /\
    Forall (fun e => queriesReceipt e = false) tr /\
    (forall t, r = Ok t ->
      TransactionResult.status t = TxConfirmed /\
      exists e b,
        e ∈ tr /\ broadcastOf e = Some b /\ Broadcast.code b = 0 /\
        TransactionResult.hash t = Broadcast.transactionHash b /\
        TransactionResult.blockNumber t = Broadcast.height b) /\
    cosmosLockOutcome E order type r tr.
Proof.
  split; [|split].
  - intros H. unfold isTransactionConfirmed, try_catch.
    destruct chain; [|done].
    destruct H as [H|H]; [done|]. cbn. by rewrite H.
  - done.
  - apply emits_run.
    eapply emits_mono;
      [ apply emits_conj;
        [ apply ConfirmationTheorems.lockCosmosEscrow_immediate
        | apply lockCosmosEscrow_outcome ] |].
    cbv beta. by intros r tr w' [[? ?] ?].
Qed.

(** A Cosmos destination lock is reported confirmed as soon as it is
    broadcast, and the poll's check of it asks nothing. *)
Example cosmos_lock_is_confirmed_at_once :
  exists t w',
    lockCosmosEscrow Scenario.calmEnv Scenario.sepoliaOrder Destination
                     (emptyWorld Scenario.now0) = (Ok t, w') /\
    TransactionResult.status t = TxConfirmed /\
    length (requests (trace w')) = 2%nat /\
    isTransactionConfirmed Scenario.calmEnv (TransactionResult.hash t)
                           Destination w' = (Ok true, w').
Proof. do 2 eexists. vm_compute. repeat split. Qed.

End ConfirmationClaims.

(* ===================================================================== *)
(** ** The timeout tick *)
(* ===================================================================== *)

Module TimeoutClaims.
Import Resolver TraceSpec ExpirySpec ExpiryFacts TimeoutFacts JsMapFacts
       RegistrySpec RegistryFacts.

Lemma get_elem_of {V} (m : list (string * V)) k v :
  JsMap.get m k = Some v -> (k, v) ∈ m.
Proof.
  induction m as [|[k' v'] m IH]; cbn; [done|].
  destruct (String.eqb k' k) eqn:Hk.
  - apply String.eqb_eq in Hk as ->. intros [= ->]. apply list_elem_of_here.
  - intros H. apply list_elem_of_further. auto.
Qed.

Lemma without_subset {V} ks (m : list (string * V)) e :
  e ∈ without ks m -> e ∈ m.
Proof.
  unfold without. intros H.
  apply list_elem_of_In in H. apply List.filter_In in H as [H _].
  by apply list_elem_of_In.
Qed.

(** One run of the timeout check. *)
Lemma checkAndHandleTimeout_run w :
  exists tr w',
    checkAndHandleTimeout w = (Ok tt, w') /\
    trace w' = (trace w ++ tr)%list /\
    requests tr = [] /\
    (forall h s, (h, s) ∈ activeSwaps w' -> (h, s) ∈ activeSwaps w) /\
    forall hashlock swap,
      (hashlock, swap) ∈ activeSwaps w ->
      dstTimedOut (clock w / 1000) swap ->
      dstCancelled hashlock tr w'.
Proof.
  apply emits_returns.
  unfold checkAndHandleTimeout. mstep. mstep. mstep. mstep. mstep. mstep.
  eapply emits_mono;
    [apply emits_conj; [apply checkEach_spec | apply checkEach_drops]|].
  cbv beta. intros r tr w' [[(-> & _) Hall] (_ & Ha & _ & Hq & _)].
  split; [done|]. cbn [activeSwaps set_trace clock] in *.
  split; [unfold requests in *; cbn; by rewrite Hq|].
  split; [intros h s; rewrite Ha; apply without_subset|].
  intros hashlock swap Hin Hout.
  destruct (Hall hashlock swap Hin Hout) as [Hlog Hget].
  split; [|done]. cbn. rewrite !elem_of_cons. auto.
Qed.

(** C6 (as the code has it).  Take a swap tracked under [hashlock]
    whose [dstCancellation] is before the current time in seconds.  A
    run of the monitor's timer callback, on a service that was given a
    resolver, logs the swap's destination side as cancelled and removes
    it from [activeSwaps] -- claimed or not: the code keeps no claim
    state.  That is all: nothing is asked of any chain
    ([cancelSwapOnDestination] has an empty body) and every record
    still tracked is a record that was tracked, unchanged.  On a
    service that was given no resolver the callback rejects and changes
    nothing.  Runs of the callback are due only once [start] has
    registered the timer: none before, and after a start at [clock w0]
    one in every window [(t, t + pollIntervalMs]] from then on.  The
    monitor that [Service] builds has no resolver and is not started. *)
Theorem timeout_tick_forgets_the_swap
        (service : OrderMonitorService.t) (w : World)
        (hashlock : string) (swap : Swap.t) :
  JsMap.get (activeSwaps w) hashlock = Some swap ->
  TimeLocks.dstCancellation (Immutables.timelocks (Swap.immutables swap))
    < clock w / 1000 ->
  0 < OrderMonitorService.pollIntervalMs service ->
  (if OrderMonitorService.resolver service
   then exists tr w',
          OrderMonitorService.tick service w = (Ok tt, w') /\
          trace w' = (trace w ++ tr)%list /\
          Log LInfo "Cancelled destination chain swap" [hashlock] ∈ tr /\
          JsMap.get (activeSwaps w') hashlock = None /\
          requests tr = [] /\
          (forall h s, (h, s) ∈ activeSwaps w' -> (h, s) ∈ activeSwaps w)
   else exists e, OrderMonitorService.tick service w = (Throw e, w)) /\
  (OrderMonitorService.pollInterval service = None ->
   (forall k, OrderMonitorService.tickTime service k = None) /\
   forall w0,
     exists started,
       OrderMonitorService.start service w0 = (Ok started, w0) /\
       OrderMonitorService.resolver started
       = OrderMonitorService.resolver service /\
       forall t, clock w0 <= t ->
         exists k tk,
           OrderMonitorService.tickTime started k = Some tk /\
           t < tk <= t + OrderMonitorService.pollIntervalMs service) /\
  OrderMonitorService.resolver (Service.orderMonitor Service.constructor)
  = false /\
  OrderMonitorService.pollInterval (Service.orderMonitor Service.constructor)
  = None.
Proof.
  intros Hget Hout Hms. split; [|split; [|done]].
  - unfold OrderMonitorService.tick.
    destruct (OrderMonitorService.resolver service); [|by eexists].
    destruct (checkAndHandleTimeout_run w)
      as (tr & w' & Hrun & Htr & Hq & Hsub & Hall).
    destruct (Hall hashlock swap (get_elem_of _ _ _ Hget) Hout) as [Hlog Hgone].
    by exists tr, w'.
  - intros Hidle. split.
    + intros k. unfold OrderMonitorService.tickTime. by rewrite Hidle.
    + intros w0. unfold OrderMonitorService.start. rewrite Hidle.
      eexists. split; [reflexivity|]. split; [reflexivity|].
      intros t Ht. unfold OrderMonitorService.tickTime. cbn.
      set (ms := OrderMonitorService.pollIntervalMs service) in *.
      set (t0 := clock w0) in *.
      exists (Z.to_nat ((t - t0) / ms)), (t0 + ((t - t0) / ms + 1) * ms).
      split.
      * rewrite Z2Nat.id; [done|]. apply Z.div_pos; lia.
      * pose proof (Z.div_mod (t - t0) ms ltac:(lia)) as Hdm.
        pose proof (Z.mod_pos_bound (t - t0) ms Hms) as Hmod.
        replace (((t - t0) / ms + 1) * ms) with (ms * ((t - t0) / ms) + ms) by ring.
        lia.
Qed.

Lemma timeout_tick_witness :
  let service := OrderMonitorService.constructor true None in
  let w := Scenario.tracking (Scenario.now0 + 4020000) in
  (if OrderMonitorService.resolver service
   then exists tr w',
          OrderMonitorService.tick service w = (Ok tt, w') /\
          trace w' = (trace w ++ tr)%list /\
          Log LInfo "Cancelled destination chain swap" ["0xlock"] ∈ tr /\
          JsMap.get (activeSwaps w') "0xlock" = None /\
          requests tr = [] /\
          (forall h s, (h, s) ∈ activeSwaps w' -> (h, s) ∈ activeSwaps w)
   else exists e, OrderMonitorService.tick service w = (Throw e, w)) /\
  (OrderMonitorService.pollInterval service = None ->
   (forall k, OrderMonitorService.tickTime service k = None) /\
   forall w0,
     exists started,
       OrderMonitorService.start service w0 = (Ok started, w0) /\
       OrderMonitorService.resolver started
       = OrderMonitorService.resolver service /\
       forall t, clock w0 <= t ->
         exists k tk,
           OrderMonitorService.tickTime started k = Some tk /\
           t < tk <= t + OrderMonitorService.pollIntervalMs service) /\
  OrderMonitorService.resolver (Service.orderMonitor Service.constructor)
  = false /\
  OrderMonitorService.pollInterval (Service.orderMonitor Service.constructor)
  = None.
Proof.
  apply (timeout_tick_forgets_the_swap
           (OrderMonitorService.constructor true None)
           (Scenario.tracking (Scenario.now0 + 4020000))
           "0xlock" Scenario.swap).
  - vm_compute. reflexivity.
  - vm_compute. reflexivity.
  - vm_compute. reflexivity.
Defined.

(** C6 (counterexample).  A registry tracking one swap, twenty seconds
    past its [dstCancellation].  The callback of a started monitor
    forgets the swap and sends nothing: its whole trace is three log
    entries, so the destination leg is cancelled nowhere.  The callback
    of the monitor that [Service] builds rejects, and the swap stays
    tracked. *)
Lemma timeout_tick_sends_no_cancellation :
  let w := Scenario.tracking (Scenario.now0 + 4020000) in
  JsMap.get (activeSwaps w) "0xlock" = Some Scenario.swap /\
  TimeLocks.dstCancellation (Immutables.timelocks (Swap.immutables Scenario.swap))
    < clock w / 1000 /\
  (exists w',
      OrderMonitorService.tick Scenario.service w = (Ok tt, w') /\
      activeSwaps w' = [] /\
      trace w' = [Log LInfo "Checking active swaps for timeouts" [];
                  Log LInfo "Removed swap from tracking" ["0xlock"];
                  Log LInfo "Cancelled destination chain swap" ["0xlock"]]) /\
  exists e,
    OrderMonitorService.tick (Service.orderMonitor Service.constructor) w
    = (Throw e, w).
Proof.
  cbv zeta. split; [vm_compute; reflexivity|]. split; [vm_compute; reflexivity|].
  split; eexists; vm_compute; repeat split.
Qed.

End TimeoutClaims.

(* ===================================================================== *)
(** ** Admission of an order that is tracked *)
(* ===================================================================== *)

Module AdmissionClaims.
Import CrossChainResolver TraceSpec JsMapFacts AdmissionFrames AdmissionFacts.

Ltac mspec ::=
  lazymatch goal with
  | |- emits (analyzeAndExecuteOrder _ _) _ _ =>
      muse analyzeAndExecuteOrder_spec; intros (-> & ? & ? & ? & ? & ?)
  end.





End AdmissionClaims.

Module AdmissionOrderFacts.
Import CrossChainResolver FrameSpec TraceSpec AdmissionFrames.

Ltac mspec ::=
  lazymatch goal with
  | |- emits (ProfitabilityAnalyzer.analyzeOrder _ _) _ _ =>
      muse analyzeOrder_no_transaction; intros ((? & ->) & ? & ?)
  | |- emits (executeAtomicSwap _ _ _) _ _ =>
      muse SwapFrames.executeAtomicSwap_state; intros (-> & ?)
  end.

(** The trace of [analyzeAndExecuteOrder] either holds no transaction,
    or splits at the entry that logs the order as profitable with no
    transaction before it. *)
Lemma analyzeAndExecuteOrder_order E order w :
  emits (analyzeAndExecuteOrder E order) w
        (fun r tr w' =>
           transactions tr = [] \/
           exists a s,
             tr = (a ++ Log LInfo "Order is profitable"
                           [Js.slice10 (Order.orderHash order)] :: s)%list /\
             transactions a = []).
Proof.
  unfold analyzeAndExecuteOrder. mgo.
  all: unfold bookkeeping, resolverState, transactions in *; cbn in *; simplify_eq.
  - left. rewrite List.filter_app, H. cbn. done.
  - right.
    exists (Log LInfo "Analyzing order" [Js.slice10 (Order.orderHash order)] :: tr), tr0.
    split; [done|]. cbn. done.
Qed.

Lemma transactions_none tr e :
  transactions tr = [] -> e ∈ tr -> sendsTransaction e = false.
Proof.
  unfold transactions. intros Hnone Hin.
  destruct (sendsTransaction e) eqn:He; [|done].
  assert (Hf : e ∈ List.filter sendsTransaction tr).
  { apply list_elem_of_In, List.filter_In. split; [by apply list_elem_of_In|done]. }
  rewrite Hnone in Hf. by apply elem_of_nil in Hf.
Qed.

(** An entry of [a ++ l :: s] that is neither in [a] nor [l] comes
    after [l]. *)
Lemma entry_after_mark {A} (a s pre post : list A) (l e : A) :
  (a ++ l :: s = pre ++ e :: post)%list ->
  e ∉ a -> e <> l -> l ∈ pre.
Proof.
  revert pre. induction a as [|x a IH]; intros pre Heq Hnot Hne.
  - destruct pre as [|p pre]; cbn in Heq.
    + injection Heq as <- _. done.
    + injection Heq as <- _. apply list_elem_of_here.
  - destruct pre as [|p pre]; cbn in Heq.
    + injection Heq as <- _. exfalso. apply Hnot, list_elem_of_here.
    + injection Heq as <- Heq. apply list_elem_of_further.
      apply IH; [done| |done].
      intros Hin. apply Hnot. by apply list_elem_of_further.
Qed.

End AdmissionOrderFacts.

Module AdmissionOrderTheorems.
Import CrossChainResolver TraceSpec AdmissionFrames AdmissionOrderFacts.

(** X17.  [analyzeAndExecuteOrder] never rejects.  It sends a
    transaction (approval, lock, claim, refund or broadcast) only after
    it has logged the order as profitable: in its trace every
    transaction is preceded by that log entry.  Afterwards the order is
    not in [activeOrders] unless it was there before and was turned
    down; the processed set, the tracked swaps and the fetch timestamp
    are as they were. *)
Theorem analyzeAndExecuteOrder_never_rejects
        (E : Env) (order : Order.t) (w : World) :
  exists tr w',
    analyzeAndExecuteOrder E order w = (Ok tt, w') /\
    trace w' = (trace w ++ tr)%list /\
    (forall pre e post,
        tr = (pre ++ e :: post)%list -> sendsTransaction e = true ->
        Log LInfo "Order is profitable" [Js.slice10 (Order.orderHash order)]
          ∈ pre) /\
    (transactions tr <> [] ->
     Log LInfo "Order is profitable" [Js.slice10 (Order.orderHash order)] ∈ tr) /\
    (activeOrders w' = activeOrders w \/
     activeOrders w' = JsMap.delete (activeOrders w) (Order.orderHash order)) /\
    processedOrders w' = processedOrders w /\
    activeSwaps w' = activeSwaps w /\
    lastCheckedTimestamp w' = lastCheckedTimestamp w.
Proof.
  destruct (emits_run _ _ _
              (emits_conj _ _ _ _
                 (analyzeAndExecuteOrder_spec E order w)
                 (analyzeAndExecuteOrder_order E order w)))
    as (r & tr & w' & Hrun & Htr & (-> & Hl & Hp & Hs & Ha & Ht) & Hord).
  exists tr, w'. repeat (split; [done|]).
  split; [|done].
  intros pre e post Heq He.
  destruct Hord as [Hnone | (a & s & Hsplit & Hnone)].
  - rewrite (transactions_none tr e Hnone) in He; [done|].
    rewrite Heq. apply elem_of_app. right. apply list_elem_of_here.
  - rewrite Hsplit in Heq.
    apply (entry_after_mark a s pre post _ e Heq).
    + intros Hin. by rewrite (transactions_none a e Hnone Hin) in He.
    + intros ->. done.
Qed.

End AdmissionOrderTheorems.

(* ===================================================================== *)
(** ** The deployment of the source escrow *)
(* ===================================================================== *)

Module DeploymentTheorems.
Import Resolver TraceSpec.

(** X22.  [processOrders] never deploys and never tracks.
    [createSrcEscrow] calls [deploySrc] with six values; the ABI of the
    resolver contract declares it with seven inputs, so the call is
    rejected for want of a matching fragment -- and with any number of
    values it would be rejected all the same, the contract having been
    built without a runner.  So [createSrcEscrow] and [processOrders]
    reject before any request is sent, and nothing is logged,
    subscribed to, or tracked. *)
Theorem processOrders_never_tracks
        (E : Env) (orderArgs : FillOrderArgs.t) (chainId : ChainId) (w : World) :
  (forall (nargs : nat) (request : M string),
      exists e,
        Contract.send evmResolverContract "deploySrc" nargs request w
        = (Throw e, w)) /\
  (exists e, createSrcEscrow E orderArgs w = (Throw e, w)) /\
  (exists e, processOrders E orderArgs chainId w = (Throw e, w)).
Proof.
  split; [|split].
  - intros nargs request. unfold Contract.send.
    destruct (existsb _ _); cbn; by eexists.
  - by eexists.
  - by eexists.
Qed.

End DeploymentTheorems.

Module LookupExamples.
Import ProfitabilityAnalyzer TraceSpec.

(** A token address that is no key of the price table but names a
    property every object inherits is looked up all the same: the
    price is asked for, and the answer -- 1 for want of a quote -- is
    cached as an ['api'] price. *)
Example inherited_name_is_priced :
  exists p w',
    getTokenPrice Scenario.calmEnv "constructor" (ChainNum 1)
                  (emptyWorld Scenario.now0) = (Ok p, w') /\
    TokenPrice.source p = FromApi /\
    requests (trace w')
    = [Ev (AxiosGetPrice "function Object() { [native code] }") (Returns None)] /\
    priceCache w' !! priceCacheKey "constructor" (ChainNum 1)
    = Some (1%float, clock w').
Proof. do 2 eexists. vm_compute. repeat split. Qed.

End LookupExamples.

Module RouteExamples.
Import OrderMonitor Routes.

(** An order whose source amount is not a number is accepted. *)
Example postOrders_accepts_unparsable_amount :
  exists resp w',
    postOrders Scenario.evenEnv
               (Submission.mk (Some "0xabcdef0123456789") (Some "0xMaker")
                              (Some (ChainNum 1)) (Some (ChainStr "cosmoshub-4"))
                              (Some Scenario.WETH) (Some "uatom")
                              (Some "abc") (Some "25.5")
                              (Some (Scenario.now0 + 3600000))
                              (Some "0xhash") (Some "0xsig") None)
               (emptyWorld Scenario.now0) = (Ok resp, w') /\
    PrimFloat.is_nan (parseFloat Scenario.evenEnv "abc") = true /\
    SubmissionResponse.code resp = 200.
Proof. do 2 eexists. vm_compute. repeat split. Qed.

End RouteExamples.
